(** * Parallel Othello rollouts: a shallow embedding of the CUDA kernels

    The development embeds the device function [ray_cast], the kernels
    [find_actions] and [select_and_step] and the host driver [rollout] of
    the notebook, and proves the properties of the design document about
    them.

    Conventions of the embedding.
    - A board is the 8x8 array of the source, a list of rows; a cell holds
      [0] (empty), [1] or [2] (the player owning the token).  The source
      stores the cells as float32; only the three integral values occur and
      they are only compared, so they are integers here.
    - Scores are float32 values that are only copied and compared; they are
      rationals here.
    - Numba does not check array bounds on the device.  Every array access of
      the embedding is checked and an index outside the array is the error
      [OutOfBounds], so that memory safety is something to prove.
    - Loops that the source writes with [while] take fuel; running out of it
      is the error [OutOfFuel].
    - A kernel launch runs one thread body per thread.  The threads of
      [find_actions] run in the order of a schedule, each to completion; the
      threads of one block of [select_and_step] run phase by phase, the
      phases separated by [cuda.syncthreads()].  Where two threads of
      [find_actions] meet on a stream, the thread body is also given in two
      halves, split between the load and the store of the state of the
      stream, so that the halves of two threads can be interleaved. *)

From Stdlib Require Import ZArith QArith Lqa Lia Sorted.

From stdpp Require Import base tactics option numbers list.

#[local] Open Scope Z_scope.

(** ** Results of device and host code *)

Inductive error : Type :=
  | OutOfBounds   (* an index outside its array *)
  | OutOfFuel     (* a [while] loop that outlived its fuel *)
  | ValueError.   (* raised by numpy *)

Inductive res (A : Type) : Type :=
  | Ret (a : A)
  | Err (e : error).

Arguments Ret {A} a.

Arguments Err {A} e.

Definition bind {A B : Type} (m : res A) (f : A -> res B) : res B :=
  match m with
  | Ret a => f a
  | Err e => Err e
  end.

Notation "'let*' p ':=' m 'in' k" := (bind m (fun p => k))
  (at level 10, p pattern, m at level 100, k at level 200).

Fixpoint foldM {A S : Type} (f : A -> S -> res S) (l : list A) (s : S) : res S :=
  match l with
  | [] => Ret s
  | a :: l' => let* s' := f a s in foldM f l' s'
  end.

Fixpoint mapM {A B : Type} (f : A -> res B) (l : list A) : res (list B) :=
  match l with
  | [] => Ret []
  | a :: l' => let* b := f a in let* bs := mapM f l' in Ret (b :: bs)
  end.

(** ** Arrays *)

Definition rd {A : Type} (a : list A) (i : Z) : res A :=
  if i <? 0 then Err OutOfBounds
  else match a !! Z.to_nat i with
       | Some v => Ret v
       | None => Err OutOfBounds
       end.

Definition wr {A : Type} (a : list A) (i : Z) (v : A) : res (list A) :=
  if (i <? 0) || (Z.of_nat (length a) <=? i) then Err OutOfBounds
  else Ret (<[Z.to_nat i := v]> a).

Definition rd2 {A : Type} (a : list (list A)) (i j : Z) : res A :=
  let* row := rd a i in rd row j.

Definition wr2 {A : Type} (a : list (list A)) (i j : Z) (v : A) : res (list (list A)) :=
  let* row := rd a i in
  let* row' := wr row j v in
  wr a i row'.

Definition rd3 {A : Type} (a : list (list (list A))) (i j k : Z) : res A :=
  let* m := rd a i in rd2 m j k.

Definition wr3 {A : Type} (a : list (list (list A))) (i j k : Z) (v : A)
  : res (list (list (list A))) :=
  let* m := rd a i in
  let* m' := wr2 m j k v in
  wr a i m'.

(** [range(8)] *)
Definition range8 : list Z := [0; 1; 2; 3; 4; 5; 6; 7].

(** An array of 8 rows of 8 cells. *)
Definition well_shaped {A : Type} (b : list (list A)) : bool :=
  (length b =? 8)%nat && forallb (fun row : list A => (length row =? 8)%nat) b.

(** ** Constants of the notebook *)

Definition N_GAMES : nat := 32.

Abbreviation ray := (Z * Z)%type.

Definition RAYS : list ray :=
  [ (0, 1);    (* east *)
    (0, -1);   (* west *)
    (1, 0);    (* south *)
    (-1, 0);   (* north *)
    (1, 1);    (* southeast *)
    (1, -1);   (* southwest *)
    (-1, 1);   (* northeast *)
    (-1, -1)   (* northwest *) ].

Abbreviation board := (list (list Z)).

(** Fuel of the two [while] loops that walk along a ray: a walk on an 8x8
    board evaluates its loop condition at most 8 times. *)
Definition FUEL : nat := 8.

(** ** Device function [ray_cast] *)

Fixpoint ray_cast_loop (fuel : nat) (b : board) (x y : Z) (r : ray) (player : Z)
  : res bool :=
  match fuel with
  | O => Err OutOfFuel
  | S fuel' =>
      if (x >=? 0) && (y >=? 0) && (x <? 8) && (y <? 8) then
        let* v := rd2 b x y in
        if v =? 0 then Ret false
        else if v =? player then Ret true
        else ray_cast_loop fuel' b (x + r.1) (y + r.2) r player
      else Ret false
  end.

Definition ray_cast (b : board) (x0 y0 : Z) (r : ray) (player : Z) : res bool :=
  let opponent := 3 - player in
  let x := x0 + r.1 in
  let y := y0 + r.2 in
  if (x <? 0) || (y <? 0) || (x >=? 8) || (y >=? 8) then Ret false
  else
    let* v := rd2 b x y in
    if negb (v =? opponent) then Ret false
    else ray_cast_loop FUEL b (x + r.1) (y + r.2) r player.

(** ** The random source

    Modelled from the spec: the generator [xoroshiro128p_uniform_float32] and
    the state array made by [create_xoroshiro128p_states] belong to Numba,
    not to the notebook.  The design document asks of the collaborator a
    value in the open interval (0,1) per draw, reproducibly determined by the
    state of the stream it is drawn from.  A random source is therefore any
    type of stream states with a step function from a state to a draw and
    the next state; [UniformOpen] is the range contract. *)

Class RandomSource : Type := {
  rng_state : Type;
  next_uniform : rng_state -> Q * rng_state
}.

Class UniformOpen (R : RandomSource) : Prop :=
  draw_range : forall s : rng_state, (0 < (next_uniform s).1 /\ (next_uniform s).1 < 1)%Q.

(** Draw from stream [index] of [states] and advance that stream. *)
Definition xoroshiro128p_uniform_float32 `{RandomSource}
    (states : list rng_state) (index : Z) : res (Q * list rng_state) :=
  let* s := rd states index in
  let* states' := wr states index (next_uniform s).2 in
  Ret ((next_uniform s).1, states').

(** ** Device memory *)

Record device `{RandomSource} : Type := Device {
  boards : list board;                  (* shape (N_GAMES, 8, 8) *)
  player_status : list (list Z);        (* shape (N_GAMES, 2) *)
  rng_states : list rng_state;          (* 8*8*N_GAMES streams *)
  action_probs : list (list (list Q))   (* shape (N_GAMES, 8, 8) *)
}.

(** A thread of [find_actions]: [(blockIdx.x, threadIdx.x, threadIdx.y)]. *)
Abbreviation thread := (Z * Z * Z)%type.

(** ** Kernel [find_actions] *)

(** [for i in range(8)]: the first ray that hits ends the loop. *)
Fixpoint find_hit (b : board) (tx ty : Z) (rays : list ray) (player : Z)
    (idxs : list Z) : res bool :=
  match idxs with
  | [] => Ret false
  | i :: idxs' =>
      let* r := rd rays i in
      let* hit := ray_cast b tx ty r player in
      if hit then Ret true else find_hit b tx ty rays player idxs'
  end.

(** The body of one thread; [rays] is the constant array [RAYS] of the
    kernel.  [cuda.grid(1)] is [threadIdx.x + blockIdx.x * blockDim.x], and
    the kernel is launched with blocks of (8, 8) threads. *)
Definition find_actions_thread `{RandomSource} (rays : list ray) (player : Z)
    (t : thread) (d : device) : res device :=
  let '(bx, tx, ty) := t in
  let tid := tx + bx * 8 in
  let* v := rd3 (boards d) bx tx ty in
  if negb (v =? 0) then
    (* space isn't empty, invalid move *)
    let* ap := wr3 (action_probs d) bx tx ty 0%Q in
    Ret (Device _ (boards d) (player_status d) (rng_states d) ap)
  else
    let* b := rd (boards d) bx in
    let* hit := find_hit b tx ty rays player range8 in
    if hit then
      let* (p, rng) := xoroshiro128p_uniform_float32 (rng_states d) tid in
      let* ap := wr3 (action_probs d) bx tx ty p in
      Ret (Device _ (boards d) (player_status d) rng ap)
    else
      let* ap := wr3 (action_probs d) bx tx ty 0%Q in
      Ret (Device _ (boards d) (player_status d) (rng_states d) ap).

(** The draw of a thread, step by step.  The generator reads the state of
    the stream with a plain load and writes the next state with a plain
    store, and [find_actions] has no barrier and no atomic operation, so
    that nothing orders the loads and the stores of two threads. *)
Definition load_stream `{RandomSource} (states : list rng_state) (index : Z)
  : res rng_state :=
  rd states index.

Definition store_stream `{RandomSource} (states : list rng_state) (index : Z)
    (s : rng_state) : res (Q * list rng_state) :=
  let* states' := wr states index (next_uniform s).2 in
  Ret ((next_uniform s).1, states').

(** A thread up to the load of the state of its stream; [None] when the
    thread has no draw to make and writes the score 0. *)
Definition find_actions_load `{RandomSource} (rays : list ray) (player : Z)
    (t : thread) (d : device) : res (option rng_state) :=
  let '(bx, tx, ty) := t in
  let tid := tx + bx * 8 in
  let* v := rd3 (boards d) bx tx ty in
  if negb (v =? 0) then Ret None
  else
    let* b := rd (boards d) bx in
    let* hit := find_hit b tx ty rays player range8 in
    if hit then
      let* s := load_stream (rng_states d) tid in Ret (Some s)
    else Ret None.

(** The rest of the thread: the store of the next state of the stream and
    the store of the score. *)
Definition find_actions_store `{RandomSource} (t : thread)
    (loaded : option rng_state) (d : device) : res device :=
  let '(bx, tx, ty) := t in
  let tid := tx + bx * 8 in
  match loaded with
  | Some s =>
      let* (p, rng) := store_stream (rng_states d) tid s in
      let* ap := wr3 (action_probs d) bx tx ty p in
      Ret (Device _ (boards d) (player_status d) rng ap)
  | None =>
      let* ap := wr3 (action_probs d) bx tx ty 0%Q in
      Ret (Device _ (boards d) (player_status d) (rng_states d) ap)
  end.

(** The launch [find_actions[N_GAMES, (8,8)]], its threads run in the order
    of [sched]. *)
Definition find_actions `{RandomSource} (sched : list thread) (player : Z)
    (d : device) : res device :=
  foldM (find_actions_thread RAYS player) sched d.

(** The threads of a launch over [n] blocks of (8, 8) threads. *)
Definition block_ids (n : nat) : list Z := Z.of_nat <$> seq 0 n.

Definition grid_threads (n : nat) : list thread :=
  bx ← block_ids n; tx ← range8; ty ← range8; [(bx, tx, ty)].

(** ** Kernel [select_and_step] *)

(** Shared memory of a block. *)
Record shared : Type := Shared {
  row_max : list Q;
  row_max_idx : list Z;
  actions : list Z
}.

Definition shared_init : shared :=
  Shared (replicate 8 0%Q) (replicate 8 0) (replicate 2 0).

(** [a > b] on scores *)
Definition Qgtb (a b : Q) : bool := negb (Qle_bool a b).

(** The scan of both reductions: keep the running maximum and where it was
    found, replace it only by a strictly greater value. *)
Fixpoint argmax_loop (read : Z -> res Q) (idxs : list Z) (current_max : Q)
    (current_idx : Z) : res (Q * Z) :=
  match idxs with
  | [] => Ret (current_max, current_idx)
  | i :: idxs' =>
      let* v := read i in
      if Qgtb v current_max then argmax_loop read idxs' v i
      else argmax_loop read idxs' current_max current_idx
  end.

(** argmax reduction part 1, thread [tx] *)
Definition reduce_row (probs : list (list Q)) (tx : Z) (sh : shared) : res shared :=
  let* (current_max, current_idx) := argmax_loop (rd2 probs tx) range8 0%Q 0 in
  let* rm := wr (row_max sh) tx current_max in
  let* ri := wr (row_max_idx sh) tx current_idx in
  Ret (Shared rm ri (actions sh)).

(** argmax reduction part 2, thread 0 *)
Definition reduce_rows (sh : shared) : res shared :=
  let* (current_max, current_idx) := argmax_loop (rd (row_max sh)) range8 0%Q 0 in
  let* (x_idx, y_idx) :=
    if Qgtb current_max 0 then
      let* y := rd (row_max_idx sh) current_idx in Ret (current_idx, y)
    else Ret (-1, -1) in
  let* a := wr (actions sh) 0 x_idx in
  let* a := wr a 1 y_idx in
  Ret (Shared (row_max sh) (row_max_idx sh) a).

(** The flip loop [while boards[bx, x, y] == opponent]. *)
Fixpoint flip_loop (fuel : nat) (b : board) (x y : Z) (r : ray) (player : Z)
  : res board :=
  match fuel with
  | O => Err OutOfFuel
  | S fuel' =>
      let* v := rd2 b x y in
      if v =? 3 - player then
        let* b' := wr2 b x y player in
        flip_loop fuel' b' (x + r.1) (y + r.2) r player
      else Ret b
  end.

(** Execute action and update game state, thread [tx], on the board and the
    status row of the block's game. *)
Definition apply_action (rays : list ray) (player : Z) (sh : shared) (tx : Z)
    (g : board * list Z) : res (board * list Z) :=
  let '(b, status) := g in
  let* act_x := rd (actions sh) 0 in
  let* act_y := rd (actions sh) 1 in
  if act_x =? -1 then
    if tx =? 0 then
      let* status' := wr status (player - 1) 1 in Ret (b, status')
    else Ret (b, status)
  else
    let* r := rd rays tx in
    let* hit := ray_cast b act_x act_y r player in
    let* b1 :=
      if hit then flip_loop FUEL b (act_x + r.1) (act_y + r.2) r player
      else Ret b in
    if tx =? 0 then
      let* b2 := wr2 b1 act_x act_y player in
      let* status' := wr status (player - 1) 0 in
      Ret (b2, status')
    else Ret (b1, status).

(** The two reductions of a block: the 8 threads reduce their rows, then,
    after [cuda.syncthreads()], thread 0 reduces the row maxima. *)
Definition select_action (probs : list (list Q)) : res shared :=
  let* sh := foldM (reduce_row probs) range8 shared_init in
  reduce_rows sh.

(** One block: the reductions, then, after [cuda.syncthreads()], the 8
    threads apply the action along their rays. *)
Definition select_and_step_block (player : Z) (probs : list (list Q))
    (g : board * list Z) : res (board * list Z) :=
  let* sh := select_action probs in
  foldM (apply_action RAYS player sh) range8 g.

(** Block [bx] works on [action_probs[bx]], [boards[bx]] and
    [player_status[bx]]. *)
Definition select_and_step_at `{RandomSource} (player : Z) (bx : Z) (d : device)
  : res device :=
  let* probs := rd (action_probs d) bx in
  let* b := rd (boards d) bx in
  let* status := rd (player_status d) bx in
  let* (b', status') := select_and_step_block player probs (b, status) in
  let* bs := wr (boards d) bx b' in
  let* ps := wr (player_status d) bx status' in
  Ret (Device _ bs ps (rng_states d) (action_probs d)).

(** The launch [select_and_step[N_GAMES, 8]]. *)
Definition select_and_step `{RandomSource} (player : Z) (d : device) : res device :=
  foldM (select_and_step_at player) (block_ids N_GAMES) d.

(** ** Host function [rollout] *)

(** One turn of the driver: the two launches. *)
Definition turn `{RandomSource} (sched : list thread) (player : Z) (d : device)
  : res device :=
  let* d1 := find_actions sched player d in
  select_and_step player d1.

(** [np.sum(player_status.copy_to_host())] *)
Definition sum_status (ps : list (list Z)) : Z := foldr Z.add 0 (concat ps).

(** The [while] loop of [rollout].  [sched k] is the order in which the
    threads of [find_actions] run in turn [k]; the result is the device and
    the number of turns played. *)
Fixpoint rollout_loop `{RandomSource} (fuel : nat) (sched : nat -> list thread)
    (k : nat) (player : Z) (d : device) : res (device * nat) :=
  match fuel with
  | O => Err OutOfFuel
  | S fuel' =>
      if sum_status (player_status d) <? 2 * Z.of_nat N_GAMES then
        let* d' := turn (sched k) player d in
        rollout_loop fuel' sched (S k) (3 - player) d'
      else Ret (d, k)
  end.

(** [np.bincount(x, minlength)]: the number of occurrences of each value
    from 0 to the greatest value of [x]; negative values are refused. *)
Definition bincount (x : list Z) (minlength : nat) : res (list Z) :=
  if existsb (fun v => v <? 0) x then Err ValueError
  else
    let n := Nat.max (Z.to_nat (foldr Z.max (-1) x + 1)) minlength in
    Ret ((fun k : nat => Z.of_nat (length (List.filter (fun v => v =? Z.of_nat k) x)))
           <$> seq 0 n).

(** [np.argmax] of a row: the first index of the greatest value. *)
Fixpoint argmax_from (l : list Z) (i : Z) (best : Z) (best_i : Z) : Z :=
  match l with
  | [] => best_i
  | v :: l' =>
      if best <? v then argmax_from l' (i + 1) v i
      else argmax_from l' (i + 1) best best_i
  end.

Definition argmax (l : list Z) : Z :=
  match l with
  | [] => 0
  | v :: l' => argmax_from l' 1 v 0
  end.

(** [np.bincount(b.flatten(), minlength=3)[1:]] *)
Definition scores_of (b : board) : res (list Z) :=
  let* c := bincount (concat b) 3 in Ret (drop 1 c).

(** [np.argmax(scores, axis=1) + 1], and 0 where [scores[:,0] == scores[:,1]] *)
Definition winner_of (scores : list Z) : res Z :=
  let* s0 := rd scores 0 in
  let* s1 := rd scores 1 in
  Ret (if s0 =? s1 then 0 else argmax scores + 1).

Definition finalize (bs : list board) : res (list Z) :=
  let* scores := mapM scores_of bs in
  mapM winner_of scores.

(** [cuda.to_device(np.tile(board, (N_GAMES, 1, 1)), to=boards)]: Numba
    refuses the copy into the device array [boards], with a [ValueError],
    unless the host array has its shape (N_GAMES, 8, 8); the tiled array has
    it exactly when [board] is 8x8.  (The element type, float32 in the
    notebook, is not part of the embedding.) *)
Definition to_device_check (board0 : board) : res unit :=
  if well_shaped board0 then Ret tt else Err ValueError.

(** The device memory after the two copies of Init, when they are accepted:
    [np.tile(board, (N_GAMES, 1, 1))] and the zeroed status flags; the
    streams and the score array are the globals of the notebook. *)
Definition init `{RandomSource} (d : device) (board0 : board) : device :=
  Device _ (replicate N_GAMES board0) (replicate N_GAMES [0; 0])
         (rng_states d) (action_probs d).

(** The driver up to the end of its loop: the copies of Init, then the
    turns. *)
Definition rollout_run `{RandomSource} (fuel : nat) (sched : nat -> list thread)
    (d : device) (board0 : board) (planner : Z) : res (device * nat) :=
  let* _ := to_device_check board0 in
  rollout_loop fuel sched 0 planner (init d board0).

(** [rollout(board, planner)]: the winners, and the device it leaves. *)
Definition rollout `{RandomSource} (fuel : nat) (sched : nat -> list thread)
    (d : device) (board0 : board) (planner : Z) : res (list Z * device) :=
  let* (d', _) := rollout_run fuel sched d board0 planner in
  let* winner := finalize (boards d') in
  Ret (winner, d').

(** ** Notions of the design document *)

(** The cell of [b] at [(x, y)]; [None] off the 8x8 board. *)
Definition cell_at {A : Type} (b : list (list A)) (x y : Z) : option A :=
  if (0 <=? x) && (x <? 8) && (0 <=? y) && (y <? 8) then
    match b !! Z.to_nat x with
    | Some row => row !! Z.to_nat y
    | None => None
    end
  else None.

(** Cell states are empty, player 1 or player 2. *)
Definition valid_cell (v : Z) : bool := (v =? 0) || (v =? 1) || (v =? 2).

Definition valid_board (b : board) : bool :=
  well_shaped b && forallb (forallb valid_cell) b.

Definition is_player (p : Z) : bool := (p =? 1) || (p =? 2).

(** A capturing line from [(x0, y0)] along [r]: [n >= 1] opposing tokens at
    the steps [1..n], and a token of the mover at step [n + 1]. *)
Definition capturing_line (b : board) (x0 y0 : Z) (r : ray) (player : Z) : Prop :=
  exists n : nat, (1 <= n)%nat /\
    (forall j : nat, (1 <= j <= n)%nat ->
       cell_at b (x0 + Z.of_nat j * r.1) (y0 + Z.of_nat j * r.2) = Some (3 - player)) /\
    cell_at b (x0 + Z.of_nat (n + 1) * r.1) (y0 + Z.of_nat (n + 1) * r.2) = Some player.

(** ** Boards *)

Definition on_board (x y : Z) : Prop := 0 <= x < 8 /\ 0 <= y < 8.

(** The number of steps along [r] that stay on the board from [(x, y)]. *)
Definition room (x y : Z) (r : ray) : Z :=
  if r.1 =? 1 then 8 - x
  else if r.1 =? -1 then x + 1
  else if r.2 =? 1 then 8 - y
  else y + 1.

(** The tokens met from [(x, y)] on: [m] opposing tokens, then the mover's. *)
Definition bounded_run (b : board) (x y : Z) (r : ray) (player : Z) : Prop :=
  exists m : nat,
    (forall j : nat, (j < m)%nat ->
       cell_at b (x + Z.of_nat j * r.1) (y + Z.of_nat j * r.2) = Some (3 - player)) /\
    cell_at b (x + Z.of_nat m * r.1) (y + Z.of_nat m * r.2) = Some player.

(** The first [m] cells of the walk from [(x, y)] along [r]. *)
Definition on_segment (x y : Z) (r : ray) (m : nat) (x' y' : Z) : bool :=
  existsb (fun j : nat => (x' =? x + Z.of_nat j * r.1) && (y' =? y + Z.of_nat j * r.2))
          (seq 0 m).

(** ** Captures *)

(** [n >= 1] opposing tokens at the steps [1..n] from [(x0, y0)] along [r],
    then a token of the mover. *)
Definition captures (b : board) (x0 y0 : Z) (r : ray) (player : Z) (n : nat) : Prop :=
  (1 <= n)%nat /\
  (forall j : nat, (1 <= j <= n)%nat ->
     cell_at b (x0 + Z.of_nat j * r.1) (y0 + Z.of_nat j * r.2) = Some (3 - player)) /\
  cell_at b (x0 + Z.of_nat (n + 1) * r.1) (y0 + Z.of_nat (n + 1) * r.2) = Some player.

(** The cells strictly between [(x0, y0)] and the token that ends a capture
    of length [n]. *)
Definition between (x0 y0 : Z) (r : ray) (n : nat) (x y : Z) : bool :=
  on_segment (x0 + r.1) (y0 + r.2) r n x y.

(** The cells turned by the threads [P] of a block, whose action is
    [(ax, ay)] on the board [b0]. *)
Definition turned (b0 : board) (ax ay player : Z) (P : list Z) (x y : Z) : Prop :=
  exists (tx : Z) (r : ray) (n : nat),
    tx ∈ P /\ 0 <= tx /\ RAYS !! Z.to_nat tx = Some r /\
    captures b0 ax ay r player n /\ between ax ay r n x y = true.

(** The board [cur] after the threads [P] have applied the action. *)
Definition applied (b0 : board) (ax ay player : Z) (P : list Z) (cur : board) : Prop :=
  valid_board cur = true /\
  (cell_at cur ax ay = if decide (0 ∈ P) then Some player else cell_at b0 ax ay) /\
  (forall x y, ~ (x = ax /\ y = ay) -> turned b0 ax ay player P x y ->
     cell_at cur x y = Some player) /\
  (forall x y, ~ (x = ax /\ y = ay) -> ~ turned b0 ax ay player P x y ->
     cell_at cur x y = cell_at b0 x y).

(** Scores are not negative. *)
Definition nonneg (probs : list (list Q)) : bool :=
  forallb (forallb (Qle_bool 0)) probs.

(** [m] is the greatest score of row [tx] of the grid and [i] the first
    column that holds it. *)
Definition row_argmax (probs : list (list Q)) (tx : Z) (m : Q) (i : Z) : Prop :=
  0 <= i < 8 /\
  (exists v, cell_at probs tx i = Some v /\ (v == m)%Q) /\
  (forall k w, cell_at probs tx k = Some w -> (w <= m)%Q) /\
  (forall k w, k < i -> cell_at probs tx k = Some w -> (w < m)%Q).

(** The grid-wide maximum is at [(ax, ay)], and this is the first cell in
    row-major order that holds it. *)
Definition grid_argmax (probs : list (list Q)) (ax ay : Z) : Prop :=
  on_board ax ay /\
  exists M, cell_at probs ax ay = Some M /\ (0 < M)%Q /\
    (forall x y v, cell_at probs x y = Some v -> (v <= M)%Q) /\
    (forall x y v, x < ax \/ (x = ax /\ y < ay) ->
       cell_at probs x y = Some v -> (v < M)%Q).

(** ** The launch of [select_and_step] *)

(** The arrays of game [bx] that a block works on are in order. *)
Definition game_ready `{RandomSource} (d : device) (bx : nat) : Prop :=
  exists probs b status,
    action_probs d !! bx = Some probs /\ boards d !! bx = Some b /\
    player_status d !! bx = Some status /\
    well_shaped probs = true /\ nonneg probs = true /\
    valid_board b = true /\ length status = 2%nat.

(** ** One thread of [find_actions] *)

(** The ray [r] from [(x, y)] hits. *)
Definition ray_hit (b : board) (x y : Z) (player : Z) (r : ray) : bool :=
  match ray_cast b x y r player with
  | Ret h => h
  | Err _ => false
  end.

(** Some ray from [(x, y)] hits. *)
Definition has_capture (b : board) (x y player : Z) : bool :=
  existsb (ray_hit b x y player) RAYS.

(** The mover may play at [(x, y)]: the cell is empty and some ray hits. *)
Definition legal (b : board) (player : Z) (x y : Z) : bool :=
  match cell_at b x y with
  | Some v => (v =? 0) && has_capture b x y player
  | None => false
  end.

(** The next state of a stream. *)
Definition advance `{RandomSource} (s : rng_state) : rng_state := (next_uniform s).2.

(** The stream a thread draws from: [cuda.grid(1)]. *)
Definition slot (t : thread) : Z := let '(bx, tx, ty) := t in tx + bx * 8.

(** The threads of a launch over [n] blocks. *)
Definition in_grid (n : nat) (t : thread) : Prop :=
  let '(bx, tx, ty) := t in 0 <= bx < Z.of_nat n /\ on_board tx ty.

(** The thread finds a legal move at its cell, and draws. *)
Definition draws (bs : list board) (player : Z) (t : thread) : bool :=
  let '(bx, tx, ty) := t in
  match bs !! Z.to_nat bx with
  | Some b => legal b player tx ty
  | None => false
  end.

(** The score of the cell of a thread. *)
Definition score_of (ap : list (list (list Q))) (t : thread) : option Q :=
  let '(bx, tx, ty) := t in
  if bx <? 0 then None
  else match ap !! Z.to_nat bx with
       | Some g => cell_at g tx ty
       | None => None
       end.

(** The device arrays that [find_actions] works on are in order. *)
Definition find_ready `{RandomSource} (d : device) : bool :=
  (length (boards d) =? N_GAMES)%nat && forallb valid_board (boards d) &&
  (length (action_probs d) =? N_GAMES)%nat && forallb well_shaped (action_probs d) &&
  (length (rng_states d) =? 8 * 8 * N_GAMES)%nat.

(** ** The launch of [find_actions] *)

(** The draws that the threads of [l] take from stream [i]. *)
Fixpoint draws_of (bs : list board) (player : Z) (l : list thread) (i : nat) : nat :=
  match l with
  | [] => 0
  | t :: l' =>
      (if bool_decide (Z.to_nat (slot t) = i) && draws bs player t then 1 else 0)
      + draws_of bs player l' i
  end.

(** The draws taken from the stream of [t] by the threads that run before
    [t] in [l]. *)
Fixpoint draws_before (bs : list board) (player : Z) (l : list thread) (t : thread) : nat :=
  match l with
  | [] => 0
  | t' :: l' =>
      if decide (t' = t) then 0%nat
      else ((if bool_decide (slot t' = slot t) && draws bs player t' then 1 else 0)
            + draws_before bs player l' t)%nat
  end.

(** The score that thread [t] of the schedule [l] writes: 0 at a cell where
    the mover has no move, and otherwise the next draw of its stream, after
    the draws of the threads that ran before it. *)
Definition expected_score `{RandomSource} (bs : list board) (rng : list rng_state)
    (player : Z) (l : list thread) (t : thread) : option Q :=
  if draws bs player t then
    match rng !! Z.to_nat (slot t) with
    | Some s => Some (next_uniform (Nat.iter (draws_before bs player l t) advance s)).1
    | None => None
    end
  else Some 0%Q.

(** ** Empty cells and moves *)

(** The 64 cells of a board, in row-major order. *)
Definition cells : list (Z * Z) := x ← range8; y ← range8; [(x, y)].

Definition is_empty (b : board) (c : Z * Z) : bool :=
  match cell_at b c.1 c.2 with
  | Some v => v =? 0
  | None => false
  end.

(** The number of empty cells of a board. *)
Definition count_empty (b : board) : nat := length (List.filter (is_empty b) cells).

(** The mover has a legal move. *)
Definition has_move (b : board) (player : Z) : bool :=
  existsb (fun c : Z * Z => legal b player c.1 c.2) cells.

(** A schedule of a launch: every thread of the launch, once. *)
Definition schedule (l : list thread) : Prop := l ≡ₚ grid_threads N_GAMES.

(** ** One turn *)

(** The status rows are pairs of flags. *)
Definition status_ready `{RandomSource} (d : device) : bool :=
  (length (player_status d) =? N_GAMES)%nat &&
  forallb (fun s : list Z => (length s =? 2)%nat) (player_status d).

(** ** The loop of [rollout] *)

(** The flag of [player] in the status row of a game: 1 when the most
    recent turn of the player was a pass. *)
Definition flag (st : list Z) (player : Z) : Z := default 0 (st !! Z.to_nat (player - 1)).

Definition passed_both (st : list Z) : bool := (flag st 1 =? 1) && (flag st 2 =? 1).

(** A bound on the turns that a game takes until both flags are set, when
    [player] moves next. *)
Definition potential (b : board) (st : list Z) (player : Z) : nat :=
  if passed_both st then 0%nat
  else (2 * count_empty b + 2 - Z.to_nat (flag st (3 - player)))%nat.

(** The flags of a game tell the passes of the last two turns. *)
Definition game_inv (b : board) (st : list Z) (player : Z) : Prop :=
  length st = 2%nat /\
  (flag st 1 = 0 \/ flag st 1 = 1) /\ (flag st 2 = 0 \/ flag st 2 = 1) /\
  (flag st (3 - player) = 1 -> has_move b (3 - player) = false) /\
  (passed_both st = true -> has_move b player = false).

(** The invariant of the loop: the flags of every game tell its last two
    turns, and no game needs more than [K] further turns. *)
Definition batch_inv `{RandomSource} (d : device) (player : Z) (K : nat) : Prop :=
  find_ready d = true /\ status_ready d = true /\
  forall (g : nat) b st, boards d !! g = Some b -> player_status d !! g = Some st ->
    game_inv b st player /\ (potential b st player <= K)%nat.

(** ** Init *)

(** The globals of the notebook that [rollout] does not reset: the score
    array and the streams. *)
Definition globals_ready `{RandomSource} (d : device) : bool :=
  (length (action_probs d) =? N_GAMES)%nat && forallb well_shaped (action_probs d) &&
  (length (rng_states d) =? 8 * 8 * N_GAMES)%nat.

(** ** Finalize *)

(** The number of tokens of [player] on a board. *)
Definition tokens (b : board) (player : Z) : Z :=
  Z.of_nat (length (List.filter (fun v => v =? player) (concat b))).

(** The outcome of a final board: the player with more tokens, 0 for a
    draw. *)
Definition outcome (b : board) : Z :=
  if tokens b 1 =? tokens b 2 then 0
  else if tokens b 1 <? tokens b 2 then 2 else 1.

(** ** The arrays that [select_and_step] works on *)

Definition select_ready `{RandomSource} (d : device) : bool :=
  (length (boards d) =? N_GAMES)%nat && forallb valid_board (boards d) &&
  (length (action_probs d) =? N_GAMES)%nat &&
  forallb (fun g => well_shaped g && nonneg g) (action_probs d) &&
  (length (player_status d) =? N_GAMES)%nat &&
  forallb (fun s : list Z => (length s =? 2)%nat) (player_status d).

(** ** Fixtures *)

(** The initial board layout of the notebook. *)
Definition initial_board : board :=
  [ [0; 0; 0; 0; 0; 0; 0; 0];
    [0; 0; 0; 0; 0; 0; 0; 0];
    [0; 0; 0; 0; 0; 0; 0; 0];
    [0; 0; 0; 2; 1; 0; 0; 0];
    [0; 0; 0; 1; 2; 0; 0; 0];
    [0; 0; 0; 0; 0; 0; 0; 0];
    [0; 0; 0; 0; 0; 0; 0; 0];
    [0; 0; 0; 0; 0; 0; 0; 0] ].

(** A board on which player 1 cannot move and player 2 can. *)
Definition pass_board : board :=
  [ [2; 1; 0; 0; 0; 0; 0; 0];
    [0; 0; 0; 0; 0; 0; 0; 0];
    [0; 0; 0; 0; 0; 0; 0; 0];
    [0; 0; 0; 0; 0; 0; 0; 0];
    [0; 0; 0; 0; 0; 0; 0; 0];
    [0; 0; 0; 0; 0; 0; 0; 0];
    [0; 0; 0; 0; 0; 0; 0; 0];
    [0; 0; 0; 0; 0; 0; 0; 0] ].

(** A board without tokens: neither player can move. *)
Definition empty_board : board := replicate 8 (replicate 8 0).

(** A board on which two cells of row 0, (0, 0) and (0, 3), are legal moves
    of player 1; their threads are in the same warp. *)
Definition race_board : board :=
  [ [0; 2; 1; 0; 0; 0; 0; 0];
    [0; 0; 0; 2; 0; 0; 0; 0];
    [0; 0; 0; 1; 0; 0; 0; 0];
    [0; 0; 0; 0; 0; 0; 0; 0];
    [0; 0; 0; 0; 0; 0; 0; 0];
    [0; 0; 0; 0; 0; 0; 0; 0];
    [0; 0; 0; 0; 0; 0; 0; 0];
    [0; 0; 0; 0; 0; 0; 0; 0] ].

(** A linear congruential random source with draws in (0,1). *)
Definition lcg_source : RandomSource := {|
  rng_state := Z;
  next_uniform := fun s =>
    let s' := (s * 1103515245 + 12345) mod 2147483648 in
    (Qmake (s' + 1) 2147483649, s')
|}.

(** The globals of the notebook for [lcg_source]: one stream per index,
    seeded by the index, and a zeroed score array. *)
Definition device0 : @device lcg_source :=
  @Device lcg_source [] [] (Z.of_nat <$> seq 1 (8 * 8 * N_GAMES))
          (replicate N_GAMES (replicate 8 (replicate 8 0%Q))).

(** Two orders of the threads of [find_actions]. *)
Definition row_major (k : nat) : list thread := grid_threads N_GAMES.

Definition reversed (k : nat) : list thread := rev (grid_threads N_GAMES).

(** A device whose score array is all zeros, after Init on the initial
    layout. *)
Definition zero_scores_device : @device lcg_source := init device0 initial_board.

(** A score grid whose only positive score is at (2, 3), a legal move of
    player 1 on the initial layout, and a device that holds it for every
    game. *)
Definition move_grid : list (list Q) :=
  [ [0; 0; 0; 0; 0; 0; 0; 0]; [0; 0; 0; 0; 0; 0; 0; 0];
    [0; 0; 0; 1#2; 0; 0; 0; 0]; [0; 0; 0; 0; 0; 0; 0; 0];
    [0; 0; 0; 0; 0; 0; 0; 0]; [0; 0; 0; 0; 0; 0; 0; 0];
    [0; 0; 0; 0; 0; 0; 0; 0]; [0; 0; 0; 0; 0; 0; 0; 0] ]%Q.

Definition move_shared : shared :=
  Shared [0; 0; 1#2; 0; 0; 0; 0; 0]%Q [0; 0; 3; 0; 0; 0; 0; 0] [2; 3].

Definition move_device : @device lcg_source :=
  @Device lcg_source (replicate N_GAMES initial_board) (replicate N_GAMES [0; 0])
          (Z.of_nat <$> seq 1 (8 * 8 * N_GAMES)) (replicate N_GAMES move_grid).

(** The empty cells of all games. *)
Definition total_empty (bs : list board) : nat := foldr Nat.add 0%nat (count_empty <$> bs).

(** The turn of player 1 on [pass_board]: the total count of empty cells
    stays, player 2 can still move, and not all flags are set. *)
Definition pass_turn_check : bool :=
  match turn (row_major 0) 1 (init device0 pass_board) with
  | Ret d' =>
      (total_empty (boards d') =? total_empty (boards (init device0 pass_board)))%nat
      && has_move pass_board 2
      && (sum_status (player_status d') <? 2 * Z.of_nat N_GAMES)
  | Err _ => false
  end.

(** ** Two threads, one stream *)

(** A position with two empty cells, both in row 0 and both legal for
    player 1: playing (0, 2) first ends in a win of player 2, playing
    (0, 7) first in a win of player 1. *)
Definition endgame_board : board :=
  [ [1; 2; 0; 2; 2; 2; 2; 0];
    [2; 2; 2; 2; 1; 2; 2; 2];
    [2; 1; 2; 2; 2; 2; 1; 2];
    [2; 2; 2; 2; 2; 2; 2; 2];
    [2; 2; 2; 2; 2; 2; 2; 2];
    [2; 2; 2; 2; 2; 2; 2; 2];
    [2; 2; 2; 2; 1; 2; 2; 1];
    [1; 2; 2; 2; 2; 2; 2; 2] ].

(** The winners of two runs differ in every game. *)
Definition all_differ (a b : res (list Z * @device lcg_source)) : bool :=
  match a, b with
  | Ret (wa, _), Ret (wb, _) =>
      (length wa =? N_GAMES)%nat && (length wb =? N_GAMES)%nat &&
      forallb (fun p : Z * Z => negb (p.1 =? p.2)) (zip wa wb)
  | _, _ => false
  end.

(** A device on which game 0 is over from the start and the other games
    are at the initial layout. *)
Definition mixed_device : @device lcg_source :=
  @Device lcg_source (empty_board :: replicate (N_GAMES - 1) initial_board)
          (replicate N_GAMES [0; 0])
          (Z.of_nat <$> seq 1 (8 * 8 * N_GAMES))
          (replicate N_GAMES (replicate 8 (replicate 8 0%Q))).

(** The legal moves of the mover in row [tx] of a board. *)
Definition row_draws (b : board) (player tx : Z) : nat :=
  length (List.filter (fun ty => legal b player tx ty) range8).

(** * Proofs *)

(** ** The error monad *)

Lemma bind_Ret {A B : Type} (m : res A) (f : A -> res B) (b : B) :
  bind m f = Ret b <-> exists a, m = Ret a /\ f a = Ret b.
Proof.
  destruct m as [a|e]; simpl.
  - split; [eauto | intros (a' & [= <-] & ?); done].
  - split; [done | intros (a' & ? & ?); done].
Qed.

(** ** Arrays *)

Lemma rd_Ret {A : Type} (a : list A) (i : Z) (v : A) :
  rd a i = Ret v <-> 0 <= i /\ a !! Z.to_nat i = Some v.
Proof.
  unfold rd. destruct (Z.ltb_spec i 0).
  - split; [done | lia].
  - destruct (a !! Z.to_nat i) eqn:E.
    + split; [intros [= ->]; done | intros [_ [= ->]]; done].
    + split; [done | intros [_ ?]; done].
Qed.

Lemma rd_in_range {A : Type} (a : list A) (i : Z) :
  0 <= i < Z.of_nat (length a) -> exists v, rd a i = Ret v /\ a !! Z.to_nat i = Some v.
Proof.
  intros Hi. destruct (lookup_lt_is_Some_2 a (Z.to_nat i)) as [v Hv]; [lia|].
  exists v. split; [apply rd_Ret; split; [lia | done] | done].
Qed.

Lemma wr_Ret {A : Type} (a a' : list A) (i : Z) (v : A) :
  wr a i v = Ret a' <-> 0 <= i < Z.of_nat (length a) /\ a' = <[Z.to_nat i := v]> a.
Proof.
  unfold wr. destruct (Z.ltb_spec i 0); destruct (Z.leb_spec (Z.of_nat (length a)) i);
    simpl; split; try done; try lia.
  - intros [= <-]. split; [lia | done].
  - intros [_ ->]. done.
Qed.

Lemma wr_in_range {A : Type} (a : list A) (i : Z) (v : A) :
  0 <= i < Z.of_nat (length a) -> wr a i v = Ret (<[Z.to_nat i := v]> a).
Proof. intros Hi. apply wr_Ret. done. Qed.

Lemma cell_at_on_board {A : Type} (b : list (list A)) x y v :
  cell_at b x y = Some v -> on_board x y.
Proof.
  unfold cell_at, on_board.
  destruct (Z.leb_spec 0 x), (Z.ltb_spec x 8), (Z.leb_spec 0 y), (Z.ltb_spec y 8);
    simpl; try done; lia.
Qed.

Lemma cell_at_lookup {A : Type} (b : list (list A)) x y :
  on_board x y ->
  cell_at b x y = match b !! Z.to_nat x with Some row => row !! Z.to_nat y | None => None end.
Proof.
  unfold cell_at, on_board. intros [? ?].
  destruct (Z.leb_spec 0 x), (Z.ltb_spec x 8), (Z.leb_spec 0 y), (Z.ltb_spec y 8);
    simpl; try done; lia.
Qed.

Lemma well_shaped_spec {A : Type} (b : list (list A)) :
  well_shaped b = true <-> length b = 8%nat /\ Forall (fun row => length row = 8%nat) b.
Proof.
  unfold well_shaped. rewrite andb_true_iff, Nat.eqb_eq, forallb_forall, Forall_forall.
  split; intros [? Hr]; split; try done; intros row Hin.
  - apply Nat.eqb_eq. apply Hr. by apply list_elem_of_In.
  - apply Nat.eqb_eq. apply Hr. by apply list_elem_of_In.
Qed.

Lemma well_shaped_row {A : Type} (b : list (list A)) i row :
  well_shaped b = true -> b !! i = Some row -> length row = 8%nat.
Proof.
  intros [_ Hf]%well_shaped_spec Hrow.
  by apply (Forall_lookup_1 _ _ _ _ Hf Hrow).
Qed.

Lemma well_shaped_cell {A : Type} (b : list (list A)) x y :
  well_shaped b = true -> on_board x y -> exists v, cell_at b x y = Some v.
Proof.
  intros Hb Hxy. rewrite cell_at_lookup by done.
  pose proof Hb as [Hl _]%well_shaped_spec. destruct Hxy as [? ?].
  destruct (lookup_lt_is_Some_2 b (Z.to_nat x)) as [row Hrow]; [lia|].
  rewrite Hrow. apply lookup_lt_is_Some_2.
  rewrite (well_shaped_row _ _ _ Hb Hrow). lia.
Qed.

Lemma rd2_cell_at {A : Type} (b : list (list A)) x y v :
  on_board x y -> (rd2 b x y = Ret v <-> cell_at b x y = Some v).
Proof.
  intros Hxy. rewrite cell_at_lookup by done. destruct Hxy as [? ?].
  unfold rd2. rewrite bind_Ret. split.
  - intros (row & [_ Hrow]%rd_Ret & [_ Hv]%rd_Ret). by rewrite Hrow.
  - destruct (b !! Z.to_nat x) as [row|] eqn:Hrow; [|done]. intros Hv.
    exists row. split; apply rd_Ret; (split; [lia | done]).
Qed.

Lemma rd2_on_board {A : Type} (b : list (list A)) x y :
  well_shaped b = true -> on_board x y ->
  exists v, rd2 b x y = Ret v /\ cell_at b x y = Some v.
Proof.
  intros Hb Hxy. destruct (well_shaped_cell b x y Hb Hxy) as [v Hv].
  exists v. split; [by apply rd2_cell_at | done].
Qed.

Lemma valid_board_shape b : valid_board b = true -> well_shaped b = true.
Proof. unfold valid_board. by intros [? _]%andb_true_iff. Qed.

Lemma valid_board_cell b x y v :
  valid_board b = true -> cell_at b x y = Some v -> v = 0 \/ v = 1 \/ v = 2.
Proof.
  unfold valid_board. intros [_ Hv]%andb_true_iff Hc.
  pose proof (cell_at_on_board _ _ _ _ Hc) as Hxy.
  rewrite cell_at_lookup in Hc by done.
  destruct (b !! Z.to_nat x) as [row|] eqn:Hrow; [|done].
  rewrite forallb_forall in Hv.
  assert (Hrv : forallb valid_cell row = true).
  { apply Hv, list_elem_of_In, list_elem_of_lookup. eauto. }
  rewrite forallb_forall in Hrv.
  assert (Hvv : valid_cell v = true).
  { apply Hrv, list_elem_of_In, list_elem_of_lookup. eauto. }
  unfold valid_cell in Hvv. lia.
Qed.

(** ** [ray_cast] *)

Lemma is_player_spec p : is_player p = true <-> p = 1 \/ p = 2.
Proof. unfold is_player. lia. Qed.

Lemma RAYS_spec r :
  r ∈ RAYS <-> (r.1 = -1 \/ r.1 = 0 \/ r.1 = 1) /\ (r.2 = -1 \/ r.2 = 0 \/ r.2 = 1) /\
               (r.1 <> 0 \/ r.2 <> 0).
Proof.
  destruct r as [dx dy]. unfold RAYS. rewrite !elem_of_cons, elem_of_nil. simpl.
  split.
  - intros H. repeat destruct H as [H|H]; try done; simplify_eq; lia.
  - intros (Hx & Hy & Hn).
    destruct Hx as [-> | [-> | ->]], Hy as [-> | [-> | ->]]; try lia; tauto.
Qed.

Lemma room_step x y r :
  r ∈ RAYS -> room (x + r.1) (y + r.2) r = room x y r - 1.
Proof.
  intros (Hx & Hy & Hn)%RAYS_spec. unfold room.
  destruct (Z.eqb_spec r.1 1), (Z.eqb_spec r.1 (-1)), (Z.eqb_spec r.2 1); lia.
Qed.

Lemma room_on_board x y r : r ∈ RAYS -> on_board x y -> 1 <= room x y r <= 8.
Proof.
  intros (Hx & Hy & Hn)%RAYS_spec [? ?]. unfold room.
  destruct (Z.eqb_spec r.1 1), (Z.eqb_spec r.1 (-1)), (Z.eqb_spec r.2 1); lia.
Qed.

Lemma loop_guard x y :
  (x >=? 0) && (y >=? 0) && (x <? 8) && (y <? 8) = true <-> on_board x y.
Proof. unfold on_board. lia. Qed.

Lemma first_guard x y :
  (x <? 0) || (y <? 0) || (x >=? 8) || (y >=? 8) = false <-> on_board x y.
Proof. unfold on_board. lia. Qed.

Lemma ray_cast_loop_spec b r player :
  valid_board b = true -> is_player player = true -> r ∈ RAYS ->
  forall (fuel : nat) (x y : Z),
    (1 <= fuel)%nat -> (on_board x y -> room x y r < Z.of_nat fuel) ->
    exists h, ray_cast_loop fuel b x y r player = Ret h /\
              (h = true <-> bounded_run b x y r player).
Proof.
  intros Hb Hp%is_player_spec Hr. induction fuel as [|fuel IH]; intros x y Hf Hroom; [lia|].
  simpl. destruct ((x >=? 0) && (y >=? 0) && (x <? 8) && (y <? 8)) eqn:Hg.
  - apply loop_guard in Hg.
    destruct (rd2_on_board b x y (valid_board_shape _ Hb) Hg) as (v & Hrd & Hc).
    rewrite Hrd. simpl.
    pose proof (valid_board_cell _ _ _ _ Hb Hc) as Hv.
    destruct (Z.eqb_spec v 0) as [-> | Hv0].
    { exists false. split; [done|]. split; [done|]. intros (m & Hrun & Hend).
      destruct m as [|m].
      - rewrite Z.mul_0_l, !Z.add_0_r in Hend. rewrite Hc in Hend. injection Hend. lia.
      - specialize (Hrun 0%nat ltac:(lia)).
        rewrite Z.mul_0_l, !Z.add_0_r in Hrun. rewrite Hc in Hrun. injection Hrun. lia. }
    destruct (Z.eqb_spec v player) as [-> | Hvp].
    { exists true. split; [done|]. split; [|done]. intros _. exists 0%nat.
      split; [lia|]. by rewrite Z.mul_0_l, !Z.add_0_r. }
    assert (Hopp : v = 3 - player) by lia.
    destruct (IH (x + r.1) (y + r.2)) as (h & Hl & Hh).
    { pose proof (room_on_board x y r Hr Hg). specialize (Hroom Hg). lia. }
    { intros _. rewrite room_step by done. specialize (Hroom Hg). lia. }
    exists h. split; [done|]. rewrite Hh. split.
    + intros (m & Hrun & Hend). exists (S m). split.
      * intros [|j] Hj.
        -- rewrite Z.mul_0_l, !Z.add_0_r. by rewrite Hc, Hopp.
        -- specialize (Hrun j ltac:(lia)).
           replace (x + Z.of_nat (S j) * r.1) with (x + r.1 + Z.of_nat j * r.1) by lia.
           replace (y + Z.of_nat (S j) * r.2) with (y + r.2 + Z.of_nat j * r.2) by lia.
           done.
      * replace (x + Z.of_nat (S m) * r.1) with (x + r.1 + Z.of_nat m * r.1) by lia.
        replace (y + Z.of_nat (S m) * r.2) with (y + r.2 + Z.of_nat m * r.2) by lia.
        done.
    + intros (m & Hrun & Hend). destruct m as [|m].
      * rewrite Z.mul_0_l, !Z.add_0_r in Hend. rewrite Hc in Hend. congruence.
      * exists m. split.
        -- intros j Hj. specialize (Hrun (S j) ltac:(lia)).
           replace (x + Z.of_nat (S j) * r.1) with (x + r.1 + Z.of_nat j * r.1) in Hrun by lia.
           replace (y + Z.of_nat (S j) * r.2) with (y + r.2 + Z.of_nat j * r.2) in Hrun by lia.
           done.
        -- replace (x + Z.of_nat (S m) * r.1) with (x + r.1 + Z.of_nat m * r.1) in Hend by lia.
           replace (y + Z.of_nat (S m) * r.2) with (y + r.2 + Z.of_nat m * r.2) in Hend by lia.
           done.
  - exists false. split; [done|]. split; [done|]. intros (m & Hrun & Hend).
    assert (Hnb : ~ on_board x y) by (rewrite <- loop_guard; congruence).
    destruct m as [|m].
    + rewrite Z.mul_0_l, !Z.add_0_r in Hend. apply cell_at_on_board in Hend. done.
    + specialize (Hrun 0%nat ltac:(lia)). rewrite Z.mul_0_l, !Z.add_0_r in Hrun.
      apply cell_at_on_board in Hrun. done.
Qed.

Lemma capturing_line_run b x0 y0 r player :
  capturing_line b x0 y0 r player <->
  cell_at b (x0 + r.1) (y0 + r.2) = Some (3 - player) /\
  bounded_run b (x0 + r.1 + r.1) (y0 + r.2 + r.2) r player.
Proof.
  unfold capturing_line, bounded_run. destruct r as [dx dy]. simpl. split.
  - intros (n & Hn & Hrun & Hend). destruct n as [|m]; [lia|]. split.
    + specialize (Hrun 1%nat ltac:(lia)).
      by rewrite !Z.mul_1_l in Hrun.
    + exists m. split.
      * intros j Hj. specialize (Hrun (S (S j)) ltac:(lia)).
        replace (x0 + dx + dx + Z.of_nat j * dx) with (x0 + Z.of_nat (S (S j)) * dx) by lia.
        replace (y0 + dy + dy + Z.of_nat j * dy) with (y0 + Z.of_nat (S (S j)) * dy) by lia.
        done.
      * replace (x0 + dx + dx + Z.of_nat m * dx) with (x0 + Z.of_nat (S m + 1) * dx) by lia.
        replace (y0 + dy + dy + Z.of_nat m * dy) with (y0 + Z.of_nat (S m + 1) * dy) by lia.
        done.
  - intros (H1 & m & Hrun & Hend). exists (S m). split; [lia|]. split.
    + intros [|[|j]] Hj; [lia | by rewrite !Z.mul_1_l |].
      specialize (Hrun j ltac:(lia)).
      replace (x0 + dx + dx + Z.of_nat j * dx) with (x0 + Z.of_nat (S (S j)) * dx) in Hrun by lia.
      replace (y0 + dy + dy + Z.of_nat j * dy) with (y0 + Z.of_nat (S (S j)) * dy) in Hrun by lia.
      done.
    + replace (x0 + Z.of_nat (S m + 1) * dx) with (x0 + dx + dx + Z.of_nat m * dx) by lia.
      replace (y0 + Z.of_nat (S m + 1) * dy) with (y0 + dy + dy + Z.of_nat m * dy) by lia.
      done.
Qed.

(** [ray_cast] always returns, and answers whether there is a capturing
    line. *)
Lemma ray_cast_spec b x0 y0 r player :
  valid_board b = true -> is_player player = true -> r ∈ RAYS ->
  exists h, ray_cast b x0 y0 r player = Ret h /\
            (h = true <-> capturing_line b x0 y0 r player).
Proof.
  intros Hb Hp Hr. unfold ray_cast. setoid_rewrite capturing_line_run.
  destruct ((x0 + r.1 <? 0) || (y0 + r.2 <? 0) || (x0 + r.1 >=? 8) || (y0 + r.2 >=? 8)) eqn:Hg.
  - exists false. split; [done|]. split; [done|]. intros [H1%cell_at_on_board _].
    apply first_guard in H1. congruence.
  - apply first_guard in Hg.
    destruct (rd2_on_board b _ _ (valid_board_shape _ Hb) Hg) as (v & Hrd & Hc).
    rewrite Hrd. simpl. destruct (Z.eqb_spec v (3 - player)) as [-> | Hv]; simpl.
    + destruct (ray_cast_loop_spec b r player Hb Hp Hr FUEL
                  (x0 + r.1 + r.1) (y0 + r.2 + r.2)) as (h & Hl & Hh).
      { unfold FUEL. lia. }
      { intros _. rewrite room_step by done.
        pose proof (room_on_board _ _ r Hr Hg). unfold FUEL. lia. }
      exists h. split; [done|]. rewrite Hh. tauto.
    + exists false. split; [done|]. split; [done|]. intros [H1 _]. congruence.
Qed.

(** ** Writing a cell *)

Lemma well_shaped_insert {A : Type} (b : list (list A)) i row :
  well_shaped b = true -> length row = 8%nat -> well_shaped (<[i := row]> b) = true.
Proof.
  rewrite !well_shaped_spec. intros [Hl Hf] Hrow. split.
  - by rewrite length_insert.
  - destruct (decide (i < length b)%nat) as [Hi | Hi].
    + by apply Forall_insert.
    + rewrite list_insert_ge by lia. done.
Qed.

Lemma wr2_on_board {A : Type} (b : list (list A)) x y v :
  well_shaped b = true -> on_board x y ->
  exists b', wr2 b x y v = Ret b' /\ well_shaped b' = true /\
    forall x' y', cell_at b' x' y' =
      if decide (x' = x /\ y' = y) then Some v else cell_at b x' y'.
Proof.
  intros Hb Hxy. pose proof Hb as [Hl Hf]%well_shaped_spec.
  pose proof Hxy as [Hx Hy].
  destruct (rd_in_range b x) as (row & Hrd & Hrow); [lia|].
  pose proof (well_shaped_row _ _ _ Hb Hrow) as Hlr.
  exists (<[Z.to_nat x := <[Z.to_nat y := v]> row]> b).
  split; [|split].
  - unfold wr2. rewrite Hrd. simpl. rewrite wr_in_range by lia. simpl.
    rewrite wr_in_range by lia. done.
  - apply well_shaped_insert; [done|]. by rewrite length_insert.
  - intros x' y'. destruct (decide (x' = x /\ y' = y)) as [[-> ->] | Hne].
    + rewrite cell_at_lookup by done.
      rewrite list_lookup_insert_eq by lia.
      rewrite list_lookup_insert_eq by lia. done.
    + unfold cell_at.
      destruct ((0 <=? x') && (x' <? 8) && (0 <=? y') && (y' <? 8)) eqn:Hg; [|done].
      destruct (decide (x' = x)) as [-> | Hx'].
      * rewrite list_lookup_insert_eq by lia. rewrite Hrow.
        rewrite list_lookup_insert_ne by lia. done.
      * rewrite list_lookup_insert_ne by lia. done.
Qed.

Lemma valid_board_pointwise b :
  valid_board b = true <->
  well_shaped b = true /\ forall x y v, cell_at b x y = Some v -> valid_cell v = true.
Proof.
  split.
  - intros Hb. split; [by apply valid_board_shape|]. intros x y v Hc.
    destruct (valid_board_cell _ _ _ _ Hb Hc) as [-> | [-> | ->]]; done.
  - intros [Hs Hc]. unfold valid_board. rewrite Hs. simpl.
    apply forallb_forall. intros row [i Hrow]%list_elem_of_In%list_elem_of_lookup.
    apply forallb_forall. intros v [j Hv]%list_elem_of_In%list_elem_of_lookup.
    pose proof Hs as [Hl _]%well_shaped_spec.
    pose proof (well_shaped_row _ _ _ Hs Hrow) as Hlr.
    pose proof (lookup_lt_Some _ _ _ Hrow). pose proof (lookup_lt_Some _ _ _ Hv).
    apply (Hc (Z.of_nat i) (Z.of_nat j)).
    rewrite cell_at_lookup by (unfold on_board; lia).
    rewrite !Nat2Z.id, Hrow. done.
Qed.

(** ** The flip loop *)

Lemma ray_nonzero r (j : Z) : r ∈ RAYS -> j <> 0 -> j * r.1 <> 0 \/ j * r.2 <> 0.
Proof. intros (Hx & Hy & Hn)%RAYS_spec Hj. nia. Qed.

Lemma on_segment_spec x y r m x' y' :
  on_segment x y r m x' y' = true <->
  exists j : nat, (j < m)%nat /\ x' = x + Z.of_nat j * r.1 /\ y' = y + Z.of_nat j * r.2.
Proof.
  unfold on_segment. rewrite existsb_exists. split.
  - intros (j & Hin%in_seq & Hj). exists j. lia.
  - intros (j & Hj & -> & ->). exists j. split; [apply in_seq; lia | lia].
Qed.

Lemma on_segment_false x y r m x' y' :
  on_segment x y r m x' y' = false <->
  forall j : nat, (j < m)%nat -> ~ (x' = x + Z.of_nat j * r.1 /\ y' = y + Z.of_nat j * r.2).
Proof.
  rewrite <- not_true_iff_false, on_segment_spec. split.
  - intros Hn j Hj Heq. apply Hn. exists j. tauto.
  - intros Hn (j & Hj & Heq). by apply (Hn j Hj).
Qed.

(** [flip_loop] started on a run of [m] opposing tokens that ends before a
    cell holding anything else turns exactly the run, after reading [m + 1]
    cells, all on the board. *)
Lemma flip_loop_spec r player :
  r ∈ RAYS ->
  forall (m : nat) (b : board) (x y : Z) (fuel : nat) (w : Z),
    well_shaped b = true ->
    (forall j : nat, (j < m)%nat ->
       cell_at b (x + Z.of_nat j * r.1) (y + Z.of_nat j * r.2) = Some (3 - player)) ->
    cell_at b (x + Z.of_nat m * r.1) (y + Z.of_nat m * r.2) = Some w ->
    w <> 3 - player ->
    (m < fuel)%nat ->
    exists b', flip_loop fuel b x y r player = Ret b' /\ well_shaped b' = true /\
      forall x' y', cell_at b' x' y' =
        if on_segment x y r m x' y' then Some player else cell_at b x' y'.
Proof.
  intros Hr. induction m as [|m IH]; intros b x y fuel w Hb Hrun Hend Hw Hfuel.
  - destruct fuel as [|fuel]; [lia|]. simpl.
    rewrite Z.mul_0_l, !Z.add_0_r in Hend.
    pose proof (cell_at_on_board _ _ _ _ Hend) as Hxy.
    apply rd2_cell_at in Hend; [|done]. rewrite Hend. simpl.
    destruct (Z.eqb_spec w (3 - player)); [done|].
    exists b. split; [done|]. split; [done|]. done.
  - destruct fuel as [|fuel]; [lia|]. simpl.
    pose proof (Hrun 0%nat ltac:(lia)) as H0.
    rewrite Z.mul_0_l, !Z.add_0_r in H0.
    pose proof (cell_at_on_board _ _ _ _ H0) as Hxy.
    apply rd2_cell_at in H0 as Hrd; [|done]. rewrite Hrd. simpl.
    rewrite Z.eqb_refl.
    destruct (wr2_on_board b x y player Hb Hxy) as (b1 & Hwr & Hb1 & Hc1).
    rewrite Hwr. simpl.
    assert (Hshift : forall j : nat,
      (x + r.1 + Z.of_nat j * r.1 = x + Z.of_nat (S j) * r.1) /\
      (y + r.2 + Z.of_nat j * r.2 = y + Z.of_nat (S j) * r.2)) by (intros; lia).
    assert (Hfar : forall j : nat,
      ~ (x + Z.of_nat (S j) * r.1 = x /\ y + Z.of_nat (S j) * r.2 = y)).
    { intros j [? ?]. destruct (ray_nonzero r (Z.of_nat (S j)) Hr); lia. }
    destruct (IH b1 (x + r.1) (y + r.2) fuel w) as (b' & Hfl & Hb' & Hc'); try done.
    + intros j Hj. destruct (Hshift j) as [-> ->]. rewrite Hc1.
      destruct (decide _) as [Heq | _]; [by apply Hfar in Heq|].
      apply Hrun. lia.
    + destruct (Hshift m) as [-> ->]. rewrite Hc1.
      destruct (decide _) as [Heq | _]; [by apply Hfar in Heq | done].
    + lia.
    + exists b'. split; [done|]. split; [done|]. intros x' y'. rewrite Hc', Hc1.
      destruct (on_segment (x + r.1) (y + r.2) r m x' y') eqn:E1.
      * apply on_segment_spec in E1 as (j & Hj & Hx' & Hy').
        destruct (Hshift j) as [Ex Ey]. rewrite Ex in Hx'. rewrite Ey in Hy'.
        assert (on_segment x y r (S m) x' y' = true) as ->; [|done].
        apply on_segment_spec. exists (S j). split; [lia | done].
      * destruct (decide (x' = x /\ y' = y)) as [[-> ->] | Hne].
        -- assert (on_segment x y r (S m) x y = true) as ->; [|done].
           apply on_segment_spec. exists 0%nat. lia.
        -- assert (on_segment x y r (S m) x' y' = false) as ->; [|done].
           apply on_segment_false. intros [|j] Hj Heq.
           ++ apply Hne. lia.
           ++ rewrite on_segment_false in E1. apply (E1 j ltac:(lia)).
              destruct (Hshift j) as [Ex Ey]. by rewrite Ex, Ey.
Qed.

Lemma capturing_line_captures b x0 y0 r player :
  capturing_line b x0 y0 r player <-> exists n, captures b x0 y0 r player n.
Proof. done. Qed.

Lemma captures_unique b x0 y0 r player n n' :
  captures b x0 y0 r player n -> captures b x0 y0 r player n' -> n = n'.
Proof.
  intros (Hn & Hrun & Hend) (Hn' & Hrun' & Hend').
  destruct (Nat.lt_trichotomy n n') as [Hlt | [-> | Hlt]]; [|done|].
  - specialize (Hrun' (n + 1)%nat ltac:(lia)). rewrite Hend in Hrun'.
    injection Hrun'. lia.
  - specialize (Hrun (n' + 1)%nat ltac:(lia)). rewrite Hend' in Hrun.
    injection Hrun. lia.
Qed.

(** A capture only depends on the cells of its ray. *)
Lemma captures_ext b b' x0 y0 r player n :
  (forall j : nat, (1 <= j)%nat ->
     cell_at b' (x0 + Z.of_nat j * r.1) (y0 + Z.of_nat j * r.2) =
     cell_at b (x0 + Z.of_nat j * r.1) (y0 + Z.of_nat j * r.2)) ->
  captures b x0 y0 r player n -> captures b' x0 y0 r player n.
Proof.
  intros Hext (Hn & Hrun & Hend). split; [done|]. split.
  - intros j Hj. rewrite Hext by lia. by apply Hrun.
  - rewrite Hext by lia. done.
Qed.

Lemma between_spec x0 y0 r n x y :
  between x0 y0 r n x y = true <->
  exists j : nat, (1 <= j <= n)%nat /\ x = x0 + Z.of_nat j * r.1 /\ y = y0 + Z.of_nat j * r.2.
Proof.
  unfold between. rewrite on_segment_spec. destruct r as [dx dy]. simpl. split.
  - intros (j & Hj & -> & ->). exists (S j). lia.
  - intros ([|j] & Hj & -> & ->); [lia|]. exists j. lia.
Qed.

Lemma between_not_origin x0 y0 r n :
  r ∈ RAYS -> between x0 y0 r n x0 y0 = false.
Proof.
  intros Hr. apply not_true_iff_false. intros (j & Hj & Hx & Hy)%between_spec.
  destruct (ray_nonzero r (Z.of_nat j) Hr); lia.
Qed.

(** Two rays of the table leave a cell through different cells. *)
Lemma rays_disjoint r r' (j j' : nat) x0 y0 :
  r ∈ RAYS -> r' ∈ RAYS -> (1 <= j)%nat -> (1 <= j')%nat ->
  x0 + Z.of_nat j * r.1 = x0 + Z.of_nat j' * r'.1 ->
  y0 + Z.of_nat j * r.2 = y0 + Z.of_nat j' * r'.2 ->
  r = r'.
Proof.
  intros (Hx & Hy & Hn)%RAYS_spec (Hx' & Hy' & Hn')%RAYS_spec Hj Hj'.
  destruct r as [dx dy], r' as [dx' dy']. simpl in *. intros E1 E2.
  assert (dx = dx') by nia. assert (dy = dy') by nia. congruence.
Qed.

Lemma RAYS_NoDup : NoDup RAYS.
Proof. by apply (bool_decide_unpack _). Qed.

Lemma RAYS_lookup_inj i j r : RAYS !! i = Some r -> RAYS !! j = Some r -> i = j.
Proof. apply NoDup_lookup, RAYS_NoDup. Qed.

Lemma RAYS_lookup_elem i r : RAYS !! i = Some r -> r ∈ RAYS.
Proof. intros H. apply list_elem_of_lookup. eauto. Qed.

Lemma between_disjoint r r' n n' x0 y0 x y :
  r ∈ RAYS -> r' ∈ RAYS ->
  between x0 y0 r n x y = true -> between x0 y0 r' n' x y = true -> r = r'.
Proof.
  intros Hr Hr' (j & Hj & -> & ->)%between_spec (j' & Hj' & E1 & E2)%between_spec.
  apply (rays_disjoint r r' j j' x0 y0); try done; lia.
Qed.

(** ** Applying the action *)

Lemma capture_short b x0 y0 r player n :
  r ∈ RAYS -> on_board x0 y0 -> captures b x0 y0 r player n -> (n < 7)%nat.
Proof.
  intros (Hx & Hy & Hn)%RAYS_spec [? ?] (_ & _ & [? ?]%cell_at_on_board).
  destruct r as [dx dy]. simpl in *. nia.
Qed.

Lemma valid_cell_player player : is_player player = true -> valid_cell player = true.
Proof. unfold is_player, valid_cell. lia. Qed.

(** What the flips of one thread do to the board. *)
Lemma flips_spec cur ax ay r player :
  valid_board cur = true -> is_player player = true -> r ∈ RAYS -> on_board ax ay ->
  exists hit cur1,
    ray_cast cur ax ay r player = Ret hit /\
    (if hit then flip_loop FUEL cur (ax + r.1) (ay + r.2) r player else Ret cur) = Ret cur1 /\
    valid_board cur1 = true /\
    (forall n, captures cur ax ay r player n ->
       forall x y, cell_at cur1 x y =
         if between ax ay r n x y then Some player else cell_at cur x y) /\
    (~ capturing_line cur ax ay r player -> cur1 = cur).
Proof.
  intros Hv Hp Hr Hxy.
  destruct (ray_cast_spec cur ax ay r player Hv Hp Hr) as (hit & Hrc & Hhit).
  exists hit. destruct hit.
  - destruct (proj1 Hhit eq_refl) as (n & Hcap).
    pose proof (capture_short _ _ _ _ _ _ Hr Hxy Hcap) as Hshort.
    pose proof Hcap as (Hn & Hrun & Hend).
    destruct (flip_loop_spec r player Hr n cur (ax + r.1) (ay + r.2) FUEL player)
      as (cur1 & Hfl & Hs1 & Hc1).
    + by apply valid_board_shape.
    + intros j Hj. specialize (Hrun (S j) ltac:(lia)).
      replace (ax + r.1 + Z.of_nat j * r.1) with (ax + Z.of_nat (S j) * r.1) by lia.
      replace (ay + r.2 + Z.of_nat j * r.2) with (ay + Z.of_nat (S j) * r.2) by lia.
      done.
    + replace (ax + r.1 + Z.of_nat n * r.1) with (ax + Z.of_nat (n + 1) * r.1) by lia.
      replace (ay + r.2 + Z.of_nat n * r.2) with (ay + Z.of_nat (n + 1) * r.2) by lia.
      done.
    + apply is_player_spec in Hp. lia.
    + unfold FUEL. lia.
    + exists cur1. split; [done|]. split; [done|]. split; [|split].
      * apply valid_board_pointwise. split; [done|]. intros x y v. rewrite Hc1.
        destruct (on_segment _ _ _ _ _ _).
        -- intros [= <-]. by apply valid_cell_player.
        -- apply valid_board_pointwise in Hv as [_ Hv]. apply Hv.
      * intros n' Hcap' x y. rewrite (captures_unique _ _ _ _ _ _ _ Hcap' Hcap).
        apply Hc1.
      * intros Hno. exfalso. apply Hno. by exists n.
  - exists cur. split; [done|]. split; [done|]. split; [done|]. split; [|done].
    intros n Hcap. assert (false = true); [|done]. apply Hhit. by exists n.
Qed.

Lemma apply_action_spec cur status sh player tx r ax ay :
  valid_board cur = true -> is_player player = true ->
  actions sh = [ax; ay] -> on_board ax ay ->
  0 <= tx -> RAYS !! Z.to_nat tx = Some r -> length status = 2%nat ->
  exists cur1 cur',
    apply_action RAYS player sh tx (cur, status) =
      Ret (cur', if tx =? 0 then <[Z.to_nat (player - 1) := 0]> status else status) /\
    valid_board cur' = true /\
    (forall n, captures cur ax ay r player n ->
       forall x y, cell_at cur1 x y =
         if between ax ay r n x y then Some player else cell_at cur x y) /\
    (~ capturing_line cur ax ay r player -> cur1 = cur) /\
    (forall x y, cell_at cur' x y =
       if decide (tx = 0 /\ x = ax /\ y = ay) then Some player else cell_at cur1 x y).
Proof.
  intros Hv Hp Hact Hxy Htx Hray Hst.
  pose proof (RAYS_lookup_elem _ _ Hray) as Hr.
  destruct (flips_spec cur ax ay r player Hv Hp Hr Hxy)
    as (hit & cur1 & Hrc & Hfl & Hv1 & Hcap & Hno).
  assert (Hax : rd (actions sh) 0 = Ret ax) by (by rewrite Hact).
  assert (Hay : rd (actions sh) 1 = Ret ay) by (by rewrite Hact).
  assert (Hrd : rd RAYS tx = Ret r) by (apply rd_Ret; done).
  exists cur1. unfold apply_action. rewrite Hax, Hay. cbn [bind].
  destruct (Z.eqb_spec ax (-1)) as [-> | _]; [destruct Hxy; lia|].
  rewrite Hrd. cbn [bind]. rewrite Hrc. cbn [bind]. rewrite Hfl. cbn [bind].
  destruct (Z.eqb_spec tx 0) as [-> | Htx0].
  - destruct (wr2_on_board cur1 ax ay player (valid_board_shape _ Hv1) Hxy)
      as (cur' & Hwr & Hs' & Hc').
    exists cur'. rewrite Hwr. cbn [bind].
    rewrite wr_in_range by (apply is_player_spec in Hp; lia). cbn [bind].
    split; [done|]. split; [|split; [done|split; [done|]]].
    + apply valid_board_pointwise. split; [done|]. intros x y v. rewrite Hc'.
      destruct (decide _).
      * intros [= <-]. by apply valid_cell_player.
      * apply valid_board_pointwise in Hv1 as [_ Hv1]. apply Hv1.
    + intros x y. rewrite Hc'.
      destruct (decide (x = ax /\ y = ay)), (decide (0 = 0 /\ x = ax /\ y = ay)); tauto.
  - exists cur1. split; [done|]. split; [done|]. split; [done|]. split; [done|].
    intros x y. destruct (decide _) as [[? _] | _]; [done | done].
Qed.

Lemma applied_nil b0 ax ay player :
  valid_board b0 = true -> applied b0 ax ay player [] b0.
Proof.
  intros Hv. split; [done|]. split; [|split].
  - destruct (decide (0 ∈ [])) as [Hin | _]; [by apply elem_of_nil in Hin | done].
  - intros x y _ (tx & r & n & Hin & _). by apply elem_of_nil in Hin.
  - done.
Qed.

Lemma applied_step b0 ax ay player sh P cur status tx r :
  is_player player = true -> actions sh = [ax; ay] -> on_board ax ay ->
  0 <= tx -> RAYS !! Z.to_nat tx = Some r -> tx ∉ P -> length status = 2%nat ->
  applied b0 ax ay player P cur ->
  exists cur',
    apply_action RAYS player sh tx (cur, status) =
      Ret (cur', if tx =? 0 then <[Z.to_nat (player - 1) := 0]> status else status) /\
    applied b0 ax ay player (tx :: P) cur'.
Proof.
  intros Hp Hact Hxy Htx Hray HtxP Hst (Hv & Horig & Hturned & Hkept).
  pose proof (RAYS_lookup_elem _ _ Hray) as Hr.
  (* the cells of the ray of [tx] are those of [b0] *)
  assert (Hsame : forall j : nat, (1 <= j)%nat ->
    cell_at cur (ax + Z.of_nat j * r.1) (ay + Z.of_nat j * r.2) =
    cell_at b0 (ax + Z.of_nat j * r.1) (ay + Z.of_nat j * r.2)).
  { intros j Hj. apply Hkept.
    - intros [? ?]. destruct (ray_nonzero r (Z.of_nat j) Hr); lia.
    - intros (tx' & r' & n' & Hin & Htx' & Hray' & _ & Hbt).
      apply between_spec in Hbt as (j' & Hj' & E1 & E2).
      assert (r = r').
      { apply (rays_disjoint r r' j j' ax ay); try done; try lia.
        by apply (RAYS_lookup_elem _ _ Hray'). }
      subst r'. pose proof (RAYS_lookup_inj _ _ _ Hray Hray').
      apply HtxP. replace tx with tx' by lia. done. }
  assert (Hcapeq : forall n, captures cur ax ay r player n <-> captures b0 ax ay r player n).
  { intros n. split; apply captures_ext; intros j Hj; [symmetry|]; by apply Hsame. }
  destruct (apply_action_spec cur status sh player tx r ax ay)
    as (cur1 & cur' & Hrun & Hv' & Hcap & Hno & Hc'); try done.
  exists cur'. split; [done|].
  (* what the flips of [tx] did *)
  assert (Hcur1 : forall x y,
    (forall n, captures b0 ax ay r player n -> between ax ay r n x y = true ->
       cell_at cur1 x y = Some player) /\
    ((forall n, captures b0 ax ay r player n -> between ax ay r n x y = false) ->
       cell_at cur1 x y = cell_at cur x y)).
  { intros x y.
    destruct (ray_cast_spec cur ax ay r player Hv Hp Hr) as ([|] & _ & Hh).
    - destruct (proj1 Hh eq_refl) as (n & Hn). split.
      + intros n' Hn' Hbt. apply Hcapeq in Hn'.
        rewrite (Hcap n' Hn'), Hbt. done.
      + intros Hnb. rewrite (Hcap n Hn), (Hnb n); [done|]. by apply Hcapeq.
    - assert (Hnone : ~ capturing_line cur ax ay r player).
      { intros Hc. apply Hh in Hc. done. }
      rewrite (Hno Hnone). split; [|done].
      intros n Hn _. exfalso. apply Hnone. exists n. by apply Hcapeq. }
  split; [done|]. split; [|split].
  - rewrite Hc'. destruct (decide (tx = 0 /\ ax = ax /\ ay = ay)) as [[-> _] | Hne].
    + destruct (decide (0 ∈ 0 :: P)) as [_ | Hn]; [done|].
      exfalso. apply Hn. rewrite elem_of_cons. by left.
    + assert (Htx0 : tx <> 0) by tauto.
      destruct (Hcur1 ax ay) as [_ ->].
      * rewrite Horig.
        destruct (decide (0 ∈ P)) as [Hin | Hnin], (decide (0 ∈ tx :: P)) as [Hin' | Hnin'];
          try done.
        -- exfalso. apply Hnin'. rewrite elem_of_cons. by right.
        -- exfalso. rewrite elem_of_cons in Hin'. destruct Hin' as [? | ?]; [lia | done].
      * intros n _. by apply between_not_origin.
  - intros x y Hne (tx' & r' & n' & Hin & Htx' & Hray' & Hcap' & Hbt).
    rewrite Hc'. destruct (decide (tx = 0 /\ x = ax /\ y = ay)) as [[_ ?] | _]; [done|].
    rewrite elem_of_cons in Hin. destruct Hin as [-> | Hin].
    + assert (r' = r) by congruence. subst r'.
      destruct (Hcur1 x y) as [Hyes _]. by apply (Hyes n').
    + assert (Hcur : cell_at cur x y = Some player).
      { apply Hturned; [done|]. by exists tx', r', n'. }
      destruct (ray_cast_spec cur ax ay r player Hv Hp Hr) as ([|] & _ & Hh).
      * destruct (proj1 Hh eq_refl) as (n & Hn). rewrite (Hcap n Hn).
        by destruct (between ax ay r n x y).
      * rewrite Hno; [done|]. intros Hc. apply Hh in Hc. done.
  - intros x y Hne Hnt.
    rewrite Hc'. destruct (decide (tx = 0 /\ x = ax /\ y = ay)) as [[_ ?] | _]; [done|].
    destruct (Hcur1 x y) as [_ ->].
    + apply Hkept; [done|]. intros (tx' & r' & n' & Hin & Hrest).
      apply Hnt. exists tx', r', n'. split; [|done]. rewrite elem_of_cons. by right.
    + intros n Hn. apply not_true_iff_false. intros Hbt.
      apply Hnt. exists tx, r, n. split; [|done]. rewrite elem_of_cons. by left.
Qed.

Lemma applied_fold b0 ax ay player sh :
  is_player player = true -> actions sh = [ax; ay] -> on_board ax ay ->
  forall (txs P : list Z) (cur : board) (status : list Z),
    NoDup txs ->
    (forall tx, tx ∈ txs -> (tx ∉ P) /\ 0 <= tx /\ is_Some (RAYS !! Z.to_nat tx)) ->
    length status = 2%nat ->
    applied b0 ax ay player P cur ->
    exists cur',
      foldM (apply_action RAYS player sh) txs (cur, status) =
        Ret (cur', (if decide (0 ∈ txs) then <[Z.to_nat (player - 1) := 0]> status
                    else status)) /\
      applied b0 ax ay player (rev txs ++ P) cur'.
Proof.
  intros Hp Hact Hxy. induction txs as [|tx txs IH]; intros P cur status Hnd Htxs Hst Happ.
  - exists cur. split; [|done]. simpl.
    destruct (decide (0 ∈ [])) as [Hin | _]; [by apply elem_of_nil in Hin | done].
  - apply NoDup_cons in Hnd as [Hnin Hnd].
    destruct (Htxs tx) as (HtxP & Htx & [r Hray]); [rewrite elem_of_cons; by left|].
    destruct (applied_step b0 ax ay player sh P cur status tx r) as (cur1 & Hrun & Happ1);
      try done.
    destruct (IH (tx :: P) cur1
                (if tx =? 0 then <[Z.to_nat (player - 1) := 0]> status else status))
      as (cur' & Hfold & Happ'); try done.
    + intros tx' Hin'. destruct (Htxs tx') as (? & ? & ?); [rewrite elem_of_cons; by right|].
      split; [|done]. rewrite not_elem_of_cons. split; [|done].
      intros ->. done.
    + destruct (tx =? 0); [by rewrite length_insert | done].
    + exists cur'. split.
      * cbn [foldM]. rewrite Hrun. cbn [bind]. rewrite Hfold. f_equal. f_equal.
        destruct (Z.eqb_spec tx 0) as [-> | Htx0].
        -- destruct (decide (0 ∈ txs)) as [? | _]; [done|].
           destruct (decide (0 ∈ 0 :: txs)) as [_ | Hn]; [done|].
           exfalso. apply Hn. rewrite elem_of_cons. by left.
        -- destruct (decide (0 ∈ txs)) as [Hin | Hn], (decide (0 ∈ tx :: txs)) as [Hin' | Hn'];
             try done.
           ++ exfalso. apply Hn'. rewrite elem_of_cons. by right.
           ++ exfalso. rewrite elem_of_cons in Hin'. destruct Hin' as [? | ?]; [lia | done].
      * simpl. by rewrite <- app_assoc.
Qed.

Lemma range8_rays tx : tx ∈ range8 -> 0 <= tx /\ is_Some (RAYS !! Z.to_nat tx).
Proof.
  unfold range8. rewrite !elem_of_cons, elem_of_nil.
  intros H. repeat destruct H as [-> | H]; try done; (split; [lia | by eexists]).
Qed.

Lemma rays_range8 r : r ∈ RAYS -> exists tx, tx ∈ range8 /\ 0 <= tx /\ RAYS !! Z.to_nat tx = Some r.
Proof.
  intros [i Hi]%list_elem_of_lookup. exists (Z.of_nat i).
  pose proof (lookup_lt_Some _ _ _ Hi) as Hlt. simpl in Hlt.
  rewrite Nat2Z.id. split; [|split; [lia | done]].
  do 8 (destruct i as [|i]; [unfold range8; rewrite !elem_of_cons; tauto|]). lia.
Qed.

Lemma range8_NoDup : NoDup range8.
Proof. by apply (bool_decide_unpack _). Qed.

(** The board and the status row that the 8 threads of a block leave, when
    the action of the block is the cell [(ax, ay)] of the board. *)
Lemma apply_actions_spec b status sh player ax ay :
  valid_board b = true -> is_player player = true -> length status = 2%nat ->
  actions sh = [ax; ay] -> on_board ax ay ->
  exists b',
    foldM (apply_action RAYS player sh) range8 (b, status) =
      Ret (b', <[Z.to_nat (player - 1) := 0]> status) /\
    valid_board b' = true /\
    cell_at b' ax ay = Some player /\
    (forall r n x y, r ∈ RAYS -> captures b ax ay r player n ->
       between ax ay r n x y = true -> cell_at b' x y = Some player) /\
    (forall x y, ~ (x = ax /\ y = ay) ->
       (forall r n, r ∈ RAYS -> captures b ax ay r player n ->
          between ax ay r n x y = false) ->
       cell_at b' x y = cell_at b x y).
Proof.
  intros Hv Hp Hst Hact Hxy.
  destruct (applied_fold b ax ay player sh Hp Hact Hxy range8 [] b status)
    as (b' & Hfold & (Hv' & Horig & Hturned & Hkept)).
  - apply range8_NoDup.
  - intros tx Hin. split; [apply not_elem_of_nil | by apply range8_rays].
  - done.
  - by apply applied_nil.
  - rewrite app_nil_r in *.
    assert (Hmem : forall tx, tx ∈ rev range8 <-> tx ∈ range8).
    { intros tx. unfold range8. simpl. rewrite !elem_of_cons, elem_of_nil. tauto. }
    exists b'. split; [|split; [done|split; [|split]]].
    + rewrite Hfold. destruct (decide (0 ∈ range8)) as [_ | Hn]; [done|].
      exfalso. apply Hn. unfold range8. rewrite elem_of_cons. by left.
    + rewrite Horig. destruct (decide (0 ∈ rev range8)) as [_ | Hn]; [done|].
      exfalso. apply Hn. apply Hmem. unfold range8. rewrite elem_of_cons. by left.
    + intros r n x y Hr Hcap Hbt. apply Hturned.
      * intros [-> ->]. rewrite between_not_origin in Hbt; done.
      * destruct (rays_range8 r Hr) as (tx & Hin & Htx & Hray).
        exists tx, r, n. split; [by apply Hmem | done].
    + intros x y Hne Hnone. apply Hkept; [done|].
      intros (tx & r & n & _ & _ & Hray & Hcap & Hbt).
      rewrite (Hnone r n) in Hbt; [done | | done].
      by apply (RAYS_lookup_elem _ _ Hray).
Qed.

(** ** The argmax reductions *)

Lemma Qgtb_spec a b : Qgtb a b = true <-> (b < a)%Q.
Proof.
  unfold Qgtb. rewrite negb_true_iff, <- not_true_iff_false, Qle_bool_iff.
  split; [apply Qnot_le_lt | apply Qlt_not_le].
Qed.

(** The scan returns the running maximum it started from, when no value
    exceeds it, and otherwise the greatest value where the scan met it
    first. *)
Lemma argmax_loop_spec (read : Z -> res Q) (f : Z -> Q) :
  forall (idxs : list Z) (m0 : Q) (i0 : Z),
    StronglySorted Z.lt idxs ->
    (forall j, j ∈ idxs -> read j = Ret (f j)) ->
    exists m i, argmax_loop read idxs m0 i0 = Ret (m, i) /\
      (m0 <= m)%Q /\
      (forall j, j ∈ idxs -> (f j <= m)%Q) /\
      ((m = m0 /\ i = i0) \/
       (i ∈ idxs /\ m = f i /\ (m0 < m)%Q /\
        forall j, j ∈ idxs -> j < i -> (f j < m)%Q)).
Proof.
  induction idxs as [|j idxs IH]; intros m0 i0 Hsort Hread.
  - exists m0, i0. split; [done|]. split; [lra|]. split; [|by left].
    intros j Hj. by apply elem_of_nil in Hj.
  - apply StronglySorted_inv in Hsort as [Hsort Hlt].
    rewrite Forall_forall in Hlt.
    cbn [argmax_loop]. rewrite (Hread j) by (rewrite elem_of_cons; by left). cbn [bind].
    assert (Hread' : forall k, k ∈ idxs -> read k = Ret (f k)).
    { intros k Hk. apply Hread. rewrite elem_of_cons. by right. }
    destruct (Qgtb (f j) m0) eqn:Hgt.
    + apply Qgtb_spec in Hgt.
      destruct (IH (f j) j Hsort Hread') as (m & i & Hrun & Hge & Hall & Hcase).
      exists m, i. split; [done|]. split; [lra|]. split.
      * intros k [-> | Hk]%elem_of_cons; [done | by apply Hall].
      * right. destruct Hcase as [[-> ->] | (Hi & -> & Hlt' & Hfirst)].
        -- split; [rewrite elem_of_cons; by left|]. split; [done|]. split; [done|].
           intros k [-> | Hk]%elem_of_cons Hkj; [lia|]. specialize (Hlt k Hk). lia.
        -- split; [rewrite elem_of_cons; by right|]. split; [done|]. split; [lra|].
           intros k [-> | Hk]%elem_of_cons Hki; [done | by apply Hfirst].
    + assert (Hle : (f j <= m0)%Q).
      { apply Qnot_lt_le. intros Hlt'%Qgtb_spec. congruence. }
      destruct (IH m0 i0 Hsort Hread') as (m & i & Hrun & Hge & Hall & Hcase).
      exists m, i. split; [done|]. split; [done|]. split.
      * intros k [-> | Hk]%elem_of_cons; [lra | by apply Hall].
      * destruct Hcase as [[-> ->] | (Hi & -> & Hlt' & Hfirst)]; [by left|].
        right. split; [rewrite elem_of_cons; by right|]. split; [done|]. split; [done|].
        intros k [-> | Hk]%elem_of_cons Hki; [lra | by apply Hfirst].
Qed.

Lemma range8_sorted : StronglySorted Z.lt range8.
Proof. unfold range8. repeat (constructor; [|repeat constructor; lia]). constructor. Qed.

Lemma range8_spec i : i ∈ range8 <-> 0 <= i < 8.
Proof. unfold range8. rewrite !elem_of_cons, elem_of_nil. lia. Qed.

Lemma nonneg_cell probs x y v :
  nonneg probs = true -> cell_at probs x y = Some v -> (0 <= v)%Q.
Proof.
  unfold nonneg. intros Hn Hc.
  pose proof (cell_at_on_board _ _ _ _ Hc) as Hxy.
  rewrite cell_at_lookup in Hc by done.
  destruct (probs !! Z.to_nat x) as [row|] eqn:Hrow; [|done].
  rewrite forallb_forall in Hn.
  assert (Hrv : forallb (Qle_bool 0) row = true).
  { apply Hn, list_elem_of_In, list_elem_of_lookup. eauto. }
  rewrite forallb_forall in Hrv. apply Qle_bool_iff.
  apply Hrv, list_elem_of_In, list_elem_of_lookup. eauto.
Qed.

Lemma reduce_row_spec probs tx sh :
  well_shaped probs = true -> nonneg probs = true -> 0 <= tx < 8 ->
  length (row_max sh) = 8%nat -> length (row_max_idx sh) = 8%nat ->
  exists m i,
    reduce_row probs tx sh =
      Ret (Shared (<[Z.to_nat tx := m]> (row_max sh))
                  (<[Z.to_nat tx := i]> (row_max_idx sh)) (actions sh)) /\
    row_argmax probs tx m i /\ (0 <= m)%Q.
Proof.
  intros Hs Hn Htx Hl1 Hl2.
  set (f := fun k : Z => default 0%Q (cell_at probs tx k)).
  assert (Hread : forall k, k ∈ range8 -> rd2 probs tx k = Ret (f k)).
  { intros k Hk%range8_spec.
    destruct (rd2_on_board probs tx k Hs) as (v & Hrd & Hc); [done|].
    unfold f. by rewrite Hc. }
  assert (Hf : forall k w, cell_at probs tx k = Some w -> k ∈ range8 /\ f k = w).
  { intros k w Hc. pose proof (cell_at_on_board _ _ _ _ Hc) as [_ ?].
    split; [by apply range8_spec|]. unfold f. by rewrite Hc. }
  destruct (argmax_loop_spec (rd2 probs tx) f range8 0%Q 0 range8_sorted Hread)
    as (m & i & Hrun & Hge & Hall & Hcase).
  exists m, i. unfold reduce_row. rewrite Hrun. cbn [bind].
  rewrite !wr_in_range by lia. cbn [bind]. split; [done|]. split; [|done].
  destruct Hcase as [[-> ->] | (Hi & -> & Hlt & Hfirst)].
  - split; [lia|]. split; [|split].
    + destruct (well_shaped_cell probs tx 0 Hs) as [v Hv]; [unfold on_board; lia|].
      exists v. split; [done|]. destruct (Hf _ _ Hv) as [Hin <-].
      pose proof (Hall 0 Hin). pose proof (nonneg_cell _ _ _ _ Hn Hv).
      unfold f in *. rewrite Hv in *. simpl in *. lra.
    + intros k w Hc. destruct (Hf _ _ Hc) as [Hin <-]. by apply Hall.
    + intros k w Hk Hc. apply cell_at_on_board in Hc as [_ ?]. lia.
  - apply range8_spec in Hi. split; [done|]. split; [|split].
    + destruct (well_shaped_cell probs tx i Hs) as [v Hv]; [done|].
      exists v. split; [done|]. destruct (Hf _ _ Hv) as [_ <-]. lra.
    + intros k w Hc. destruct (Hf _ _ Hc) as [Hin <-]. by apply Hall.
    + intros k w Hk Hc. destruct (Hf _ _ Hc) as [Hin <-]. by apply Hfirst.
Qed.

(** The shared arrays after the threads [txs] have reduced their rows. *)
Lemma reduce_row_fold probs :
  well_shaped probs = true -> nonneg probs = true ->
  forall (txs : list Z) (sh : shared) (P : Z -> Prop),
    (forall tx, tx ∈ txs -> 0 <= tx < 8) ->
    length (row_max sh) = 8%nat -> length (row_max_idx sh) = 8%nat ->
    (forall tx, P tx -> 0 <= tx /\ exists m i,
       row_max sh !! Z.to_nat tx = Some m /\ row_max_idx sh !! Z.to_nat tx = Some i /\
       row_argmax probs tx m i /\ (0 <= m)%Q) ->
    exists sh',
      foldM (reduce_row probs) txs sh = Ret sh' /\
      length (row_max sh') = 8%nat /\ length (row_max_idx sh') = 8%nat /\
      actions sh' = actions sh /\
      (forall tx, P tx \/ tx ∈ txs -> exists m i,
         row_max sh' !! Z.to_nat tx = Some m /\ row_max_idx sh' !! Z.to_nat tx = Some i /\
         row_argmax probs tx m i /\ (0 <= m)%Q).
Proof.
  intros Hs Hn. induction txs as [|tx txs IH]; intros sh P Htxs Hl1 Hl2 HP.
  - exists sh. split; [done|]. split; [done|]. split; [done|]. split; [done|].
    intros tx [Htx | Htx]; [by apply HP | by apply elem_of_nil in Htx].
  - assert (Htx : 0 <= tx < 8) by (apply Htxs; rewrite elem_of_cons; by left).
    destruct (reduce_row_spec probs tx sh Hs Hn Htx Hl1 Hl2) as (m & i & Hrun & Hrow & Hm).
    cbn [foldM]. rewrite Hrun. cbn [bind].
    destruct (IH (Shared (<[Z.to_nat tx := m]> (row_max sh))
                         (<[Z.to_nat tx := i]> (row_max_idx sh)) (actions sh))
                 (fun tx' => P tx' \/ tx' = tx))
      as (sh' & Hfold & Hl1' & Hl2' & Hact & Hdone).
    + intros tx' Hin. apply Htxs. rewrite elem_of_cons. by right.
    + simpl. by rewrite length_insert.
    + simpl. by rewrite length_insert.
    + simpl. intros tx' Hcase.
      destruct (decide (tx' = tx)) as [-> | Hne].
      * split; [lia|]. exists m, i.
        rewrite !list_lookup_insert_eq by lia. done.
      * destruct Hcase as [HP' | ?]; [|done].
        destruct (HP tx' HP') as (Htx' & m' & i' & Hm' & Hi' & Hrest).
        split; [done|]. exists m', i'.
        rewrite !list_lookup_insert_ne by lia. done.
    + exists sh'. split; [done|]. split; [done|]. split; [done|]. split; [done|].
      intros tx' Hcase. apply Hdone.
      rewrite elem_of_cons in Hcase. tauto.
Qed.

Lemma reduce_rows_spec probs sh :
  length (row_max sh) = 8%nat -> length (row_max_idx sh) = 8%nat ->
  length (actions sh) = 2%nat ->
  (forall tx, 0 <= tx < 8 -> exists m i,
     row_max sh !! Z.to_nat tx = Some m /\ row_max_idx sh !! Z.to_nat tx = Some i /\
     row_argmax probs tx m i /\ (0 <= m)%Q) ->
  exists x_idx y_idx,
    reduce_rows sh = Ret (Shared (row_max sh) (row_max_idx sh) [x_idx; y_idx]) /\
    ((x_idx = -1 /\ y_idx = -1 /\
      forall tx m, 0 <= tx < 8 -> row_max sh !! Z.to_nat tx = Some m -> (m == 0)%Q) \/
     (0 <= x_idx < 8 /\ exists M,
        row_max sh !! Z.to_nat x_idx = Some M /\
        row_max_idx sh !! Z.to_nat x_idx = Some y_idx /\ (0 < M)%Q /\
        (forall tx m, 0 <= tx < 8 -> row_max sh !! Z.to_nat tx = Some m -> (m <= M)%Q) /\
        (forall tx m, 0 <= tx < x_idx -> row_max sh !! Z.to_nat tx = Some m -> (m < M)%Q))).
Proof.
  intros Hl1 Hl2 Hl3 Hrows.
  set (g := fun k : Z => default 0%Q (row_max sh !! Z.to_nat k)).
  assert (Hread : forall k, k ∈ range8 -> rd (row_max sh) k = Ret (g k)).
  { intros k Hk%range8_spec. destruct (rd_in_range (row_max sh) k) as (v & Hrd & Hv); [lia|].
    unfold g. by rewrite Hv. }
  destruct (argmax_loop_spec (rd (row_max sh)) g range8 0%Q 0 range8_sorted Hread)
    as (M & X & Hrun & Hge & Hall & Hcase).
  assert (Hwr : forall x y, exists a',
    (let* a := wr (actions sh) 0 x in wr a 1 y) = Ret a' /\ a' = [x; y]).
  { intros x y. destruct (actions sh) as [|a0 [|a1 [|]]]; try done. by eexists. }
  unfold reduce_rows. rewrite Hrun. cbn [bind].
  destruct Hcase as [[-> ->] | (HX & -> & Hpos & Hfirst)].
  - exists (-1), (-1). split.
    + replace (Qgtb 0 0) with false by done. cbn [bind].
      destruct (Hwr (-1) (-1)) as (a' & Hw & ->).
      destruct (wr (actions sh) 0 (-1)) as [a|]; [|done]. cbn [bind] in *.
      by rewrite Hw.
    + left. split; [done|]. split; [done|]. intros tx m Htx Hm.
      destruct (Hrows tx Htx) as (m' & i' & Hm' & _ & _ & Hnn).
      assert (m' = m) by congruence. subst m'.
      pose proof (Hall tx (proj2 (range8_spec tx) Htx)) as Hle.
      unfold g in Hle. rewrite Hm in Hle. simpl in Hle. lra.
  - apply range8_spec in HX.
    destruct (Hrows X HX) as (m & i & Hm & Hi & _).
    assert (HgX : g X = m) by (unfold g; by rewrite Hm).
    exists X, i. split.
    + assert (Qgtb (g X) 0 = true) as -> by (by apply Qgtb_spec).
      assert (rd (row_max_idx sh) X = Ret i) as -> by (apply rd_Ret; split; [lia | done]).
      cbn [bind]. destruct (Hwr X i) as (a' & Hw & ->).
      destruct (wr (actions sh) 0 X) as [a|]; [|done]. cbn [bind] in *.
      by rewrite Hw.
    + right. split; [done|]. exists m. rewrite HgX in *.
      split; [done|]. split; [done|]. split; [done|]. split.
      * intros tx m' Htx Hm'.
        pose proof (Hall tx (proj2 (range8_spec tx) Htx)) as Hle.
        unfold g in Hle. rewrite Hm' in Hle. done.
      * intros tx m' Htx Hm'.
        assert (Hlt : (g tx < m)%Q) by (apply Hfirst; [apply range8_spec|]; lia).
        unfold g in Hlt. rewrite Hm' in Hlt. done.
Qed.

(** The two phases of the reduction. *)
Lemma select_action_spec probs :
  well_shaped probs = true -> nonneg probs = true ->
  exists sh, select_action probs = Ret sh /\
    (* phase 1: per row, the maximum and the first column holding it *)
    (forall tx, 0 <= tx < 8 -> exists m i,
       row_max sh !! Z.to_nat tx = Some m /\ row_max_idx sh !! Z.to_nat tx = Some i /\
       row_argmax probs tx m i) /\
    (* phase 2: over the row maxima *)
    ((actions sh = [-1; -1] /\
      forall x y v, cell_at probs x y = Some v -> (v == 0)%Q) \/
     (exists ax ay M, actions sh = [ax; ay] /\ 0 <= ax < 8 /\
        row_max sh !! Z.to_nat ax = Some M /\ row_max_idx sh !! Z.to_nat ax = Some ay /\
        (0 < M)%Q /\
        (forall tx m, 0 <= tx < 8 -> row_max sh !! Z.to_nat tx = Some m -> (m <= M)%Q) /\
        (forall tx m, 0 <= tx < ax -> row_max sh !! Z.to_nat tx = Some m -> (m < M)%Q) /\
        grid_argmax probs ax ay)).
Proof.
  intros Hs Hn.
  destruct (reduce_row_fold probs Hs Hn range8 shared_init (fun _ => False))
    as (sh1 & Hfold & Hl1 & Hl2 & Hact & Hrows); try done.
  { intros tx. apply range8_spec. }
  assert (Hrows' : forall tx, 0 <= tx < 8 -> exists m i,
     row_max sh1 !! Z.to_nat tx = Some m /\ row_max_idx sh1 !! Z.to_nat tx = Some i /\
     row_argmax probs tx m i /\ (0 <= m)%Q).
  { intros tx Htx. apply Hrows. right. by apply range8_spec. }
  destruct (reduce_rows_spec probs sh1 Hl1 Hl2) as (ax & ay & Hrun & Hcase);
    [by rewrite Hact | done |].
  eexists. unfold select_action. rewrite Hfold. cbn [bind]. split; [exact Hrun|].
  cbn [row_max row_max_idx actions]. split.
  - intros tx Htx. destruct (Hrows' tx Htx) as (m & i & ? & ? & ? & _). by exists m, i.
  - destruct Hcase as [(-> & -> & Hzero) | (Hax & M & HM & Hay & Hpos & Hall & Hfirst)].
    + left. split; [done|]. intros x y v Hc.
      pose proof (cell_at_on_board _ _ _ _ Hc) as [Hx Hy].
      destruct (Hrows' x Hx) as (m & i & Hm & _ & (_ & _ & Hle & _) & _).
      pose proof (Hzero x m Hx Hm). pose proof (Hle y v Hc).
      pose proof (nonneg_cell _ _ _ _ Hn Hc). lra.
    + right. exists ax, ay, M. do 7 (split; [done|]).
      destruct (Hrows' ax Hax) as (m & i & Hm & Hi & (Hir & (v & Hv & Hvm) & Hle & Hlt) & _).
      assert (m = M) by congruence. assert (i = ay) by congruence. subst m i.
      split; [done|]. exists v. split; [done|]. split; [lra|]. split.
      * intros x y w Hc. pose proof (cell_at_on_board _ _ _ _ Hc) as [Hx Hy].
        destruct (Hrows' x Hx) as (m & i & Hm' & _ & (_ & _ & Hle' & _) & _).
        pose proof (Hle' y w Hc). pose proof (Hall x m Hx Hm'). lra.
      * intros x y w Hbefore Hc. pose proof (cell_at_on_board _ _ _ _ Hc) as [Hx Hy].
        destruct Hbefore as [Hxlt | [-> Hylt]].
        -- destruct (Hrows' x Hx) as (m & i & Hm' & _ & (_ & _ & Hle' & _) & _).
           pose proof (Hle' y w Hc). pose proof (Hfirst x m ltac:(lia) Hm'). lra.
        -- pose proof (Hlt y w Hylt Hc). lra.
Qed.

(** ** One block of [select_and_step] *)

(** No move: only thread 0 acts, and it marks the pass. *)
Lemma apply_no_action b status sh player :
  actions sh = [-1; -1] -> is_player player = true -> length status = 2%nat ->
  foldM (apply_action RAYS player sh) range8 (b, status) =
    Ret (b, <[Z.to_nat (player - 1) := 1]> status).
Proof.
  intros Hact Hp Hst.
  assert (Hstep : forall tx g, apply_action RAYS player sh tx g =
    if tx =? 0 then let* status' := wr g.2 (player - 1) 1 in Ret (g.1, status')
    else Ret g).
  { intros tx [b' st']. unfold apply_action. rewrite Hact. cbn.
    destruct (tx =? 0); done. }
  unfold range8. cbn [foldM]. rewrite Hstep. cbn [Z.eqb fst snd].
  rewrite wr_in_range by (apply is_player_spec in Hp; lia). cbn [bind].
  repeat (rewrite Hstep; cbn [bind Z.eqb Pos.eqb]). done.
Qed.

(** What a block does to the board and the status row of its game. *)
Lemma select_and_step_block_spec player probs b status :
  well_shaped probs = true -> nonneg probs = true ->
  valid_board b = true -> is_player player = true -> length status = 2%nat ->
  exists sh b' status',
    select_action probs = Ret sh /\
    select_and_step_block player probs (b, status) = Ret (b', status') /\
    valid_board b' = true /\ length status' = 2%nat /\
    ((* pass *)
     (actions sh = [-1; -1] /\
      (forall x y v, cell_at probs x y = Some v -> (v == 0)%Q) /\
      b' = b /\ status' = <[Z.to_nat (player - 1) := 1]> status) \/
     (* move *)
     (exists ax ay, actions sh = [ax; ay] /\ grid_argmax probs ax ay /\
        status' = <[Z.to_nat (player - 1) := 0]> status /\
        cell_at b' ax ay = Some player /\
        (forall r n x y, r ∈ RAYS -> captures b ax ay r player n ->
           between ax ay r n x y = true -> cell_at b' x y = Some player) /\
        (forall x y, ~ (x = ax /\ y = ay) ->
           (forall r n, r ∈ RAYS -> captures b ax ay r player n ->
              between ax ay r n x y = false) ->
           cell_at b' x y = cell_at b x y))).
Proof.
  intros Hs Hn Hv Hp Hst.
  destruct (select_action_spec probs Hs Hn) as (sh & Hsel & _ & Hcase).
  exists sh. unfold select_and_step_block. rewrite Hsel. cbn [bind].
  destruct Hcase as [[Hact Hzero] | (ax & ay & M & Hact & _ & _ & _ & _ & _ & _ & Harg)].
  - exists b, (<[Z.to_nat (player - 1) := 1]> status).
    split; [done|]. split; [by apply apply_no_action|]. split; [done|].
    split; [by rewrite length_insert|]. left. done.
  - destruct (apply_actions_spec b status sh player ax ay Hv Hp Hst Hact (proj1 Harg))
      as (b' & Hrun & Hv' & Horig & Hturned & Hkept).
    exists b', (<[Z.to_nat (player - 1) := 0]> status).
    split; [done|]. split; [done|]. split; [done|].
    split; [by rewrite length_insert|]. right. exists ax, ay. done.
Qed.

Lemma select_and_step_at_spec `{RandomSource} player (bx : nat) (d : device) probs b status :
  is_player player = true ->
  action_probs d !! bx = Some probs -> boards d !! bx = Some b ->
  player_status d !! bx = Some status ->
  well_shaped probs = true -> nonneg probs = true ->
  valid_board b = true -> length status = 2%nat ->
  exists b' status',
    select_and_step_block player probs (b, status) = Ret (b', status') /\
    valid_board b' = true /\ length status' = 2%nat /\
    select_and_step_at player (Z.of_nat bx) d =
      Ret (Device _ (<[bx := b']> (boards d)) (<[bx := status']> (player_status d))
                  (rng_states d) (action_probs d)).
Proof.
  intros Hp Hap Hb Hst Hs Hn Hv Hl.
  destruct (select_and_step_block_spec player probs b status Hs Hn Hv Hp Hl)
    as (sh & b' & status' & _ & Hrun & Hv' & Hl' & _).
  exists b', status'. split; [done|]. split; [done|]. split; [done|].
  unfold select_and_step_at.
  assert (rd (action_probs d) (Z.of_nat bx) = Ret probs) as ->
    by (apply rd_Ret; rewrite Nat2Z.id; split; [lia | done]).
  assert (rd (boards d) (Z.of_nat bx) = Ret b) as ->
    by (apply rd_Ret; rewrite Nat2Z.id; split; [lia | done]).
  assert (rd (player_status d) (Z.of_nat bx) = Ret status) as ->
    by (apply rd_Ret; rewrite Nat2Z.id; split; [lia | done]).
  cbn [bind]. rewrite Hrun. cbn [bind].
  pose proof (lookup_lt_Some _ _ _ Hb). pose proof (lookup_lt_Some _ _ _ Hst).
  rewrite !wr_in_range by lia. cbn [bind]. by rewrite Nat2Z.id.
Qed.

Lemma select_and_step_fold `{RandomSource} player :
  is_player player = true ->
  forall (n k : nat) (d : device),
    (forall bx, (k <= bx < k + n)%nat -> game_ready d bx) ->
    exists d',
      foldM (select_and_step_at player) (Z.of_nat <$> seq k n) d = Ret d' /\
      rng_states d' = rng_states d /\ action_probs d' = action_probs d /\
      length (boards d') = length (boards d) /\
      length (player_status d') = length (player_status d) /\
      (forall bx, ~ (k <= bx < k + n)%nat ->
         boards d' !! bx = boards d !! bx /\
         player_status d' !! bx = player_status d !! bx) /\
      (forall bx probs b status, (k <= bx < k + n)%nat ->
         action_probs d !! bx = Some probs -> boards d !! bx = Some b ->
         player_status d !! bx = Some status ->
         exists b' status',
           select_and_step_block player probs (b, status) = Ret (b', status') /\
           boards d' !! bx = Some b' /\ player_status d' !! bx = Some status').
Proof.
  intros Hp. induction n as [|n IH]; intros k d Hready.
  - exists d. split; [done|]. do 4 (split; [done|]). split; [done|]. intros; lia.
  - destruct (Hready k ltac:(lia)) as (probs & b & status & Hap & Hb & Hst & Hs & Hn & Hv & Hl).
    destruct (select_and_step_at_spec player k d probs b status)
      as (b' & status' & Hblock & Hv' & Hl' & Hrun); try done.
    set (d1 := Device _ (<[k := b']> (boards d)) (<[k := status']> (player_status d))
                      (rng_states d) (action_probs d)) in *.
    destruct (IH (S k) d1) as (d' & Hfold & Hrng & Hap' & Hlb & Hls & Hout & Hin).
    { intros bx Hbx.
      destruct (Hready bx ltac:(lia)) as (probs1 & b1 & status1 & ? & ? & ? & ?).
      exists probs1, b1, status1. unfold d1. cbn.
      rewrite !list_lookup_insert_ne by lia. done. }
    exists d'. split.
    { cbn [seq fmap list_fmap foldM]. rewrite Hrun. cbn [bind]. exact Hfold. }
    split; [by rewrite Hrng|]. split; [by rewrite Hap'|].
    split; [rewrite Hlb; unfold d1; cbn; by rewrite length_insert|].
    split; [rewrite Hls; unfold d1; cbn; by rewrite length_insert|].
    split.
    + intros bx Hbx. destruct (Hout bx ltac:(lia)) as [-> ->]. unfold d1. cbn.
      rewrite !list_lookup_insert_ne by lia. done.
    + intros bx probs2 b2 status2 Hbx Hap2 Hb2 Hst2.
      destruct (decide (bx = k)) as [-> | Hne].
      * assert (probs2 = probs) by congruence. assert (b2 = b) by congruence.
        assert (status2 = status) by congruence. subst.
        exists b', status'. split; [done|].
        destruct (Hout k ltac:(lia)) as [-> ->]. unfold d1. cbn.
        pose proof (lookup_lt_Some _ _ _ Hb). pose proof (lookup_lt_Some _ _ _ Hst).
        rewrite !list_lookup_insert_eq by lia. done.
      * apply Hin; [lia | | |]; unfold d1; cbn;
          rewrite ?list_lookup_insert_ne by lia; done.
Qed.

Lemma ray_hit_Ret b x y r player :
  valid_board b = true -> is_player player = true -> r ∈ RAYS ->
  ray_cast b x y r player = Ret (ray_hit b x y player r).
Proof.
  intros Hv Hp Hr. unfold ray_hit.
  destruct (ray_cast_spec b x y r player Hv Hp Hr) as (h & -> & _). done.
Qed.

Lemma has_capture_spec b x y player :
  valid_board b = true -> is_player player = true ->
  has_capture b x y player = true <->
  exists r, r ∈ RAYS /\ ray_cast b x y r player = Ret true.
Proof.
  intros Hv Hp. unfold has_capture. rewrite existsb_exists. split.
  - intros (r & Hr%list_elem_of_In & Hh). exists r. split; [done|].
    rewrite (ray_hit_Ret b x y r player) by done. by rewrite Hh.
  - intros (r & Hr & Hrc). exists r. split; [by apply list_elem_of_In|].
    unfold ray_hit. by rewrite Hrc.
Qed.

Lemma find_hit_scan b tx ty player idxs :
  valid_board b = true -> is_player player = true ->
  (forall i, i ∈ idxs -> 0 <= i < 8) ->
  find_hit b tx ty RAYS player idxs =
    Ret (existsb (fun i => ray_hit b tx ty player (default (0, 0) (RAYS !! Z.to_nat i))) idxs).
Proof.
  intros Hv Hp. induction idxs as [|i idxs IH]; intros Hidx; [done|].
  assert (Hi : 0 <= i < 8) by (apply Hidx; rewrite elem_of_cons; by left).
  destruct (rd_in_range RAYS i) as (r & Hrd & Hr); [simpl; lia|].
  cbn [find_hit existsb]. rewrite Hrd, Hr. cbn [bind default].
  rewrite (ray_hit_Ret b tx ty r player Hv Hp) by (by apply (RAYS_lookup_elem _ _ Hr)).
  cbn [bind]. unfold id. destruct (ray_hit b tx ty player r); [done|].
  apply IH. intros k Hk. apply Hidx. rewrite elem_of_cons. by right.
Qed.

Lemma find_hit_spec b tx ty player :
  valid_board b = true -> is_player player = true ->
  find_hit b tx ty RAYS player range8 = Ret (has_capture b tx ty player).
Proof.
  intros Hv Hp. rewrite find_hit_scan; [done | done | done |].
  intros i. apply range8_spec.
Qed.

Lemma find_ready_spec `{RandomSource} (d : device) :
  find_ready d = true <->
  length (boards d) = N_GAMES /\ Forall (fun b => valid_board b = true) (boards d) /\
  length (action_probs d) = N_GAMES /\
  Forall (fun g => well_shaped g = true) (action_probs d) /\
  length (rng_states d) = (8 * 8 * N_GAMES)%nat.
Proof.
  unfold find_ready. rewrite !andb_true_iff, !Nat.eqb_eq, !forallb_forall, !Forall_forall.
  setoid_rewrite list_elem_of_In. tauto.
Qed.

Lemma wr3_spec {A : Type} (ap : list (list (list A))) bx tx ty v g :
  0 <= bx -> ap !! Z.to_nat bx = Some g -> well_shaped g = true -> on_board tx ty ->
  exists g', wr3 ap bx tx ty v = Ret (<[Z.to_nat bx := g']> ap) /\
    well_shaped g' = true /\
    forall x y, cell_at g' x y = if decide (x = tx /\ y = ty) then Some v else cell_at g x y.
Proof.
  intros Hbx Hg Hs Hxy.
  destruct (wr2_on_board g tx ty v Hs Hxy) as (g' & Hwr & Hs' & Hc).
  exists g'. split; [|done]. unfold wr3.
  assert (rd ap bx = Ret g) as -> by (apply rd_Ret; done). cbn [bind].
  rewrite Hwr. cbn [bind]. pose proof (lookup_lt_Some _ _ _ Hg).
  rewrite wr_in_range by lia. done.
Qed.

Lemma find_actions_thread_spec `{RandomSource} player (d : device) (t : thread) :
  is_player player = true -> in_grid N_GAMES t -> find_ready d = true ->
  exists d',
    find_actions_thread RAYS player t d = Ret d' /\
    boards d' = boards d /\ player_status d' = player_status d /\
    find_ready d' = true /\
    (forall t', t' <> t -> score_of (action_probs d') t' = score_of (action_probs d) t') /\
    (if draws (boards d) player t then
       exists s, rng_states d !! Z.to_nat (slot t) = Some s /\
         score_of (action_probs d') t = Some (next_uniform s).1 /\
         rng_states d' = <[Z.to_nat (slot t) := advance s]> (rng_states d)
     else score_of (action_probs d') t = Some 0%Q /\ rng_states d' = rng_states d).
Proof.
  intros Hp Hgrid Hready. destruct t as [[bx tx] ty]. destruct Hgrid as [Hbx Hxy].
  pose proof Hready as (Hlb & Hvb & Hla & Hsa & Hlr)%find_ready_spec.
  destruct (lookup_lt_is_Some_2 (boards d) (Z.to_nat bx)) as [b Hb]; [lia|].
  destruct (lookup_lt_is_Some_2 (action_probs d) (Z.to_nat bx)) as [g Hg]; [lia|].
  pose proof (Forall_lookup_1 _ _ _ _ Hvb Hb) as Hv. cbn beta in Hv.
  pose proof (Forall_lookup_1 _ _ _ _ Hsa Hg) as Hs. cbn beta in Hs.
  destruct (rd2_on_board b tx ty (valid_board_shape _ Hv) Hxy) as (v & Hrd & Hc).
  assert (Hrdb : rd (boards d) bx = Ret b) by (apply rd_Ret; split; [lia | done]).
  (* what writing the score [q] gives *)
  assert (Hwrite : forall q rng, length rng = length (rng_states d) ->
    exists ap', wr3 (action_probs d) bx tx ty q = Ret ap' /\
      find_ready (Device _ (boards d) (player_status d) rng ap') = true /\
      (forall t', t' <> (bx, tx, ty) -> score_of ap' t' = score_of (action_probs d) t') /\
      score_of ap' (bx, tx, ty) = Some q).
  { intros q rng Hrng.
    destruct (wr3_spec (action_probs d) bx tx ty q g) as (g' & Hwr & Hs' & Hc');
      [lia | done | done | done |].
    eexists. split; [exact Hwr|]. split; [|split].
    - apply find_ready_spec. cbn [boards action_probs rng_states player_status].
      rewrite length_insert.
      split; [done|]. split; [done|]. split; [done|]. split; [|congruence].
      by apply Forall_insert.
    - intros [[bx' tx'] ty'] Hne. unfold score_of.
      destruct (Z.ltb_spec bx' 0); [done|].
      destruct (decide (bx' = bx)) as [-> | Hbx'].
      + rewrite list_lookup_insert_eq by lia. rewrite Hg, Hc'.
        destruct (decide (tx' = tx /\ ty' = ty)) as [[-> ->] | _]; [done | done].
      + rewrite list_lookup_insert_ne by lia. done.
    - unfold score_of. destruct (Z.ltb_spec bx 0); [lia|].
      rewrite list_lookup_insert_eq by lia. rewrite Hc'.
      destruct (decide (tx = tx /\ ty = ty)) as [_ | Hn]; [done | tauto]. }
  unfold find_actions_thread, rd3. rewrite Hrdb. cbn [bind]. rewrite Hrd. cbn [bind].
  unfold draws, legal. rewrite Hb, Hc.
  destruct (Z.eqb_spec v 0) as [-> | Hv0]; cbn [negb andb].
  - rewrite find_hit_spec by done. cbn [bind].
    destruct (has_capture b tx ty player).
    + unfold slot. destruct (rd_in_range (rng_states d) (tx + bx * 8)) as (s & Hrds & Hs0).
      { destruct Hxy. unfold N_GAMES in *. lia. }
      unfold xoroshiro128p_uniform_float32. rewrite Hrds. cbn [bind].
      rewrite wr_in_range by (destruct Hxy; unfold N_GAMES in *; lia). cbn [bind].
      destruct (Hwrite (next_uniform s).1
                  (<[Z.to_nat (tx + bx * 8) := (next_uniform s).2]> (rng_states d)))
        as (ap' & Hwr & Hready' & Hother & Hown); [by rewrite length_insert|].
      rewrite Hwr. cbn [bind]. eexists. split; [done|]. cbn.
      split; [done|]. split; [done|]. split; [done|]. split; [done|].
      exists s. done.
    + destruct (Hwrite 0%Q (rng_states d)) as (ap' & Hwr & Hready' & Hother & Hown); [done|].
      rewrite Hwr. cbn [bind]. eexists. split; [done|]. cbn. done.
  - destruct (Hwrite 0%Q (rng_states d)) as (ap' & Hwr & Hready' & Hother & Hown); [done|].
    rewrite Hwr. cbn [bind]. eexists. split; [done|]. cbn. done.
Qed.

Lemma slot_in_grid n t : in_grid n t -> 0 <= slot t < 8 * Z.of_nat n.
Proof. destruct t as [[bx tx] ty]. unfold in_grid, slot, on_board. lia. Qed.

Lemma find_actions_fold `{RandomSource} player :
  is_player player = true ->
  forall (l : list thread) (d : device),
    NoDup l -> (forall t, t ∈ l -> in_grid N_GAMES t) -> find_ready d = true ->
    exists d',
      foldM (find_actions_thread RAYS player) l d = Ret d' /\
      boards d' = boards d /\ player_status d' = player_status d /\
      find_ready d' = true /\
      (forall i s, rng_states d !! i = Some s ->
         rng_states d' !! i = Some (Nat.iter (draws_of (boards d) player l i) advance s)) /\
      (forall t, t ∉ l -> score_of (action_probs d') t = score_of (action_probs d) t) /\
      (forall t, t ∈ l ->
         score_of (action_probs d') t =
         expected_score (boards d) (rng_states d) player l t).
Proof.
  intros Hp. induction l as [|t0 l IH]; intros d Hnd Hgrid Hready.
  - exists d. split; [done|]. do 3 (split; [done|]). split; [done|]. split; [done|].
    intros t Ht. by apply elem_of_nil in Ht.
  - apply NoDup_cons in Hnd as [Ht0 Hnd].
    assert (Hg0 : in_grid N_GAMES t0) by (apply Hgrid; rewrite elem_of_cons; by left).
    destruct (find_actions_thread_spec player d t0 Hp Hg0 Hready)
      as (d1 & Hrun & Hb1 & Hs1 & Hready1 & Hother1 & Hown1).
    destruct (IH d1 Hnd) as (d' & Hfold & Hb' & Hs' & Hready' & Hrng' & Hout' & Hin');
      [intros t Ht; apply Hgrid; rewrite elem_of_cons; by right | done |].
    rewrite Hb1 in *.
    pose proof (slot_in_grid _ _ Hg0) as Hslot0.
    (* the streams after the thread [t0] *)
    assert (Hrng1 : forall i s, rng_states d !! i = Some s ->
      rng_states d1 !! i =
        Some (Nat.iter (if bool_decide (Z.to_nat (slot t0) = i) && draws (boards d) player t0
                        then 1 else 0) advance s)).
    { intros i s Hs. destruct (draws (boards d) player t0).
      - destruct Hown1 as (s0 & Hs0 & _ & ->).
        destruct (bool_decide_reflect (Z.to_nat (slot t0) = i)) as [<- | Hne]; cbn.
        + rewrite list_lookup_insert_eq by (by apply lookup_lt_Some in Hs).
          congruence.
        + by rewrite list_lookup_insert_ne.
      - destruct Hown1 as [_ ->]. rewrite andb_false_r. done. }
    exists d'. split; [cbn [foldM]; rewrite Hrun; cbn [bind]; done|].
    split; [congruence|]. split; [congruence|]. split; [done|]. split; [|split].
    + intros i s Hs. rewrite (Hrng' i _ (Hrng1 i s Hs)). f_equal.
      cbn [draws_of]. rewrite Nat.add_comm. by rewrite Nat.iter_add.
    + intros t [Hne Hnin]%not_elem_of_cons. rewrite Hout' by done. by apply Hother1.
    + intros t [-> | Hin]%elem_of_cons.
      * rewrite Hout' by done. unfold expected_score. cbn [draws_before].
        destruct (decide (t0 = t0)); [|done].
        destruct (draws (boards d) player t0).
        -- destruct Hown1 as (s0 & Hs0 & -> & _). by rewrite Hs0.
        -- by destruct Hown1 as [-> _].
      * assert (Hne : t0 <> t) by (intros ->; done).
        rewrite (Hin' t Hin). unfold expected_score. cbn [draws_before].
        destruct (decide (t0 = t)); [done|].
        destruct (draws (boards d) player t); [|done].
        assert (Hgt : in_grid N_GAMES t) by (apply Hgrid; rewrite elem_of_cons; by right).
        pose proof (slot_in_grid _ _ Hgt) as Hslot.
        pose proof Hready as (_ & _ & _ & _ & Hlr)%find_ready_spec.
        destruct (lookup_lt_is_Some_2 (rng_states d) (Z.to_nat (slot t))) as [s Hs];
          [unfold N_GAMES in *; lia|].
        rewrite (Hrng1 _ s Hs), Hs. f_equal. f_equal. f_equal.
        rewrite Nat.add_comm, Nat.iter_add. f_equal. f_equal.
        destruct (bool_decide_reflect (Z.to_nat (slot t0) = Z.to_nat (slot t))),
                 (bool_decide_reflect (slot t0 = slot t)); try done; lia.
Qed.

Lemma cells_spec x y : (x, y) ∈ cells <-> on_board x y.
Proof.
  unfold cells, on_board. rewrite list_elem_of_bind. split.
  - intros (x' & (y' & Hxy%list_elem_of_ret & Hy%range8_spec)%list_elem_of_bind
              & Hx%range8_spec).
    simplify_eq. done.
  - intros [Hx Hy]. exists x. split; [|by apply range8_spec].
    apply list_elem_of_bind. exists y. split; [by apply list_elem_of_ret | by apply range8_spec].
Qed.

Lemma cells_NoDup : NoDup cells.
Proof. by apply (bool_decide_unpack _). Qed.

Lemma has_move_spec b player :
  has_move b player = true <-> exists x y, legal b player x y = true.
Proof.
  unfold has_move. rewrite existsb_exists. split.
  - intros ([x y] & _ & Hl). by exists x, y.
  - intros (x & y & Hl). exists (x, y). split; [|done].
    apply list_elem_of_In, cells_spec. unfold legal in Hl.
    destruct (cell_at b x y) eqn:Hc; [|done]. by apply cell_at_on_board in Hc.
Qed.

Lemma has_move_false b player x y :
  has_move b player = false -> legal b player x y = false.
Proof.
  intros Hno. apply not_true_iff_false. intros Hl.
  apply not_true_iff_false in Hno. apply Hno, has_move_spec. by exists x, y.
Qed.

(** Two predicates that differ at one element of a duplicate-free list. *)
Lemma filter_length_one {A : Type} (f g : A -> bool) (l : list A) (a : A) :
  NoDup l -> a ∈ l -> f a = true -> g a = false ->
  (forall c, c ∈ l -> c <> a -> g c = f c) ->
  length (List.filter f l) = S (length (List.filter g l)).
Proof.
  induction l as [|c l IH]; intros Hnd Hin Hf Hg Hsame.
  - by apply elem_of_nil in Hin.
  - apply NoDup_cons in Hnd as [Hc Hnd]. cbn [List.filter].
    apply elem_of_cons in Hin as [<- | Hin].
    + rewrite Hf, Hg. cbn [length]. f_equal. f_equal.
      apply List.filter_ext_in. intros c Hc'%list_elem_of_In. symmetry. apply Hsame.
      * rewrite elem_of_cons. by right.
      * intros ->. done.
    + assert (Hne : c <> a) by (intros ->; done).
      rewrite (Hsame c) by (rewrite ?elem_of_cons; auto).
      assert (IH' : length (List.filter f l) = S (length (List.filter g l))).
      { apply IH; try done. intros c' Hc' Hne'.
        apply Hsame; [rewrite elem_of_cons; by right | done]. }
      destruct (f c); cbn [length]; lia.
Qed.

(** A move fills one empty cell. *)
Lemma count_empty_move b b' ax ay player :
  is_player player = true ->
  cell_at b ax ay = Some 0 -> cell_at b' ax ay = Some player ->
  (forall x y, ~ (x = ax /\ y = ay) ->
     cell_at b' x y = cell_at b x y \/
     (cell_at b' x y = Some player /\ cell_at b x y = Some (3 - player))) ->
  count_empty b = S (count_empty b').
Proof.
  intros Hp%is_player_spec Hb Hb' Hrest. unfold count_empty.
  apply (filter_length_one _ _ _ (ax, ay)).
  - apply cells_NoDup.
  - apply cells_spec. by apply cell_at_on_board in Hb.
  - unfold is_empty. cbn. by rewrite Hb.
  - unfold is_empty. cbn. rewrite Hb'. lia.
  - intros [x y] _ Hne. unfold is_empty. cbn.
    destruct (Hrest x y) as [-> | [-> ->]]; [intros [? ?]; congruence | done | lia].
Qed.

(** ** The threads of a launch *)

Lemma block_ids_spec n bx : bx ∈ block_ids n <-> 0 <= bx < Z.of_nat n.
Proof.
  unfold block_ids. rewrite list_elem_of_fmap. setoid_rewrite elem_of_seq. split.
  - intros (k & -> & Hk). lia.
  - intros Hbx. exists (Z.to_nat bx). lia.
Qed.

Lemma grid_threads_spec n t : t ∈ grid_threads n <-> in_grid n t.
Proof.
  destruct t as [[bx tx] ty]. unfold grid_threads, in_grid, on_board.
  rewrite list_elem_of_bind. split.
  - intros (bx' & (tx' & (ty' & Ht%list_elem_of_ret & Hty%range8_spec)%list_elem_of_bind
                      & Htx%range8_spec)%list_elem_of_bind & Hbx%block_ids_spec).
    simplify_eq. done.
  - intros (Hbx & Htx & Hty). exists bx. split; [|by apply block_ids_spec].
    apply list_elem_of_bind. exists tx. split; [|by apply range8_spec].
    apply list_elem_of_bind. exists ty. split; [by apply list_elem_of_ret | by apply range8_spec].
Qed.

Lemma grid_threads_NoDup n : NoDup (grid_threads n).
Proof.
  unfold grid_threads. apply NoDup_bind.
  - intros bx1 bx2 t _ _
      (tx1 & (ty1 & Ht1%list_elem_of_ret & _)%list_elem_of_bind & _)%list_elem_of_bind
      (tx2 & (ty2 & Ht2%list_elem_of_ret & _)%list_elem_of_bind & _)%list_elem_of_bind.
    congruence.
  - intros bx _. apply NoDup_bind.
    + intros tx1 tx2 t _ _ (ty1 & Ht1%list_elem_of_ret & _)%list_elem_of_bind
        (ty2 & Ht2%list_elem_of_ret & _)%list_elem_of_bind.
      congruence.
    + intros tx _. apply NoDup_bind.
      * intros ty1 ty2 t _ _ Ht1%list_elem_of_ret Ht2%list_elem_of_ret. congruence.
      * intros ty _. apply NoDup_singleton.
      * apply range8_NoDup.
    + apply range8_NoDup.
  - unfold block_ids. apply NoDup_fmap_2; [apply _ | apply NoDup_seq].
Qed.

Lemma schedule_NoDup l : schedule l -> NoDup l.
Proof. unfold schedule. intros ->. apply grid_threads_NoDup. Qed.

Lemma schedule_spec l t : schedule l -> t ∈ l <-> in_grid N_GAMES t.
Proof. unfold schedule. intros ->. apply grid_threads_spec. Qed.

(** ** The scores that [find_actions] leaves *)

Lemma nonneg_pointwise probs :
  well_shaped probs = true ->
  (forall x y v, cell_at probs x y = Some v -> (0 <= v)%Q) ->
  nonneg probs = true.
Proof.
  intros Hs Hc. unfold nonneg.
  apply forallb_forall. intros row [i Hrow]%list_elem_of_In%list_elem_of_lookup.
  apply forallb_forall. intros v [j Hv]%list_elem_of_In%list_elem_of_lookup.
  pose proof Hs as [Hl _]%well_shaped_spec.
  pose proof (well_shaped_row _ _ _ Hs Hrow) as Hlr.
  pose proof (lookup_lt_Some _ _ _ Hrow). pose proof (lookup_lt_Some _ _ _ Hv).
  apply Qle_bool_iff. apply (Hc (Z.of_nat i) (Z.of_nat j)).
  rewrite cell_at_lookup by (unfold on_board; lia).
  rewrite !Nat2Z.id, Hrow. done.
Qed.

Lemma find_actions_spec `{R : RandomSource} {U : UniformOpen R} player sched (d : device) :
  is_player player = true -> schedule sched -> find_ready d = true ->
  exists d',
    find_actions sched player d = Ret d' /\
    boards d' = boards d /\ player_status d' = player_status d /\
    find_ready d' = true /\
    (forall i s, rng_states d !! i = Some s ->
       rng_states d' !! i = Some (Nat.iter (draws_of (boards d) player sched i) advance s)) /\
    (forall t, in_grid N_GAMES t ->
       score_of (action_probs d') t = expected_score (boards d) (rng_states d) player sched t /\
       exists v, score_of (action_probs d') t = Some v /\
         (draws (boards d) player t = true -> (0 < v /\ v < 1)%Q) /\
         (draws (boards d) player t = false -> v = 0%Q)).
Proof.
  intros Hp Hsched Hready.
  destruct (find_actions_fold player Hp sched d) as (d' & Hrun & Hb & Hs & Hr' & Hrng & _ & Hin);
    [by apply schedule_NoDup | by intros t Ht%(schedule_spec _ _ Hsched) | done |].
  exists d'. do 5 (split; [done|]). intros t Ht.
  rewrite (Hin t) by (by apply (schedule_spec _ _ Hsched)).
  split; [done|]. unfold expected_score.
  destruct (draws (boards d) player t).
  - pose proof (slot_in_grid _ _ Ht) as Hslot.
    pose proof Hready as (_ & _ & _ & _ & Hlr)%find_ready_spec.
    destruct (lookup_lt_is_Some_2 (rng_states d) (Z.to_nat (slot t))) as [s ->];
      [unfold N_GAMES in *; lia|].
    eexists. split; [done|]. split; [|done]. intros _. apply draw_range.
  - exists 0%Q. done.
Qed.

Lemma status_ready_spec `{RandomSource} (d : device) :
  status_ready d = true <->
  length (player_status d) = N_GAMES /\
  Forall (fun s => length s = 2%nat) (player_status d).
Proof.
  unfold status_ready. rewrite andb_true_iff, Nat.eqb_eq, forallb_forall, Forall_forall.
  setoid_rewrite list_elem_of_In. setoid_rewrite Nat.eqb_eq. tauto.
Qed.

(** A cell is turned by a move, or by none of its captures. *)
Lemma turned_or_not b ax ay player x y :
  valid_board b = true -> is_player player = true ->
  (exists r n, r ∈ RAYS /\ captures b ax ay r player n /\ between ax ay r n x y = true) \/
  (forall r n, r ∈ RAYS -> captures b ax ay r player n -> between ax ay r n x y = false).
Proof.
  intros Hv Hp.
  assert (Hl : forall l : list ray, (forall r, r ∈ l -> r ∈ RAYS) ->
    (exists r n, r ∈ l /\ captures b ax ay r player n /\ between ax ay r n x y = true) \/
    (forall r n, r ∈ l -> captures b ax ay r player n -> between ax ay r n x y = false)).
  { induction l as [|r l IH]; intros Hsub.
    - right. intros r n Hr. by apply elem_of_nil in Hr.
    - destruct IH as [(r' & n & Hr' & Hrest) | Hnone].
      { intros r' Hr'. apply Hsub. rewrite elem_of_cons. by right. }
      { left. exists r', n. split; [rewrite elem_of_cons; by right | done]. }
      assert (Hr : r ∈ RAYS) by (apply Hsub; rewrite elem_of_cons; by left).
      destruct (ray_cast_spec b ax ay r player Hv Hp Hr) as ([|] & _ & Hh).
      + destruct (proj1 Hh eq_refl) as (n & Hn).
        destruct (between ax ay r n x y) eqn:Hbt.
        * left. exists r, n. split; [rewrite elem_of_cons; by left | done].
        * right. intros r' n' [-> | Hr']%elem_of_cons Hn'; [|by apply Hnone].
          by rewrite (captures_unique _ _ _ _ _ _ _ Hn' Hn).
      + right. intros r' n' [-> | Hr']%elem_of_cons Hn'; [|by apply Hnone].
        assert (false = true); [|done]. apply Hh. by exists n'. }
  destruct (Hl RAYS) as [(r & n & Hr & Hrest) | Hnone]; [done | left; eauto | right; done].
Qed.

(** What a turn does to every game. *)
Lemma turn_spec `{R : RandomSource} {U : UniformOpen R} player sched (d : device) :
  is_player player = true -> schedule sched ->
  find_ready d = true -> status_ready d = true ->
  exists d',
    turn sched player d = Ret d' /\
    find_ready d' = true /\ status_ready d' = true /\
    forall (g : nat) b st,
      boards d !! g = Some b -> player_status d !! g = Some st ->
      exists b',
        boards d' !! g = Some b' /\
        ((has_move b player = false /\ b' = b /\
          player_status d' !! g = Some (<[Z.to_nat (player - 1) := 1]> st)) \/
         (has_move b player = true /\ count_empty b = S (count_empty b') /\
          player_status d' !! g = Some (<[Z.to_nat (player - 1) := 0]> st))).
Proof.
  intros Hp Hsched Hready Hstatus.
  destruct (find_actions_spec player sched d Hp Hsched Hready)
    as (d1 & Hfind & Hb1 & Hs1 & Hready1 & _ & Hscores).
  pose proof Hready as (Hlb & Hvb & _)%find_ready_spec.
  pose proof Hready1 as (_ & _ & Hla1 & Hsa1 & Hlr1)%find_ready_spec.
  pose proof Hstatus as (Hls & Hrows)%status_ready_spec.
  (* the score grid of every game *)
  assert (Hgrid : forall (g : nat) probs b, action_probs d1 !! g = Some probs ->
    boards d !! g = Some b ->
    well_shaped probs = true /\ nonneg probs = true /\
    forall x y v, cell_at probs x y = Some v ->
      (legal b player x y = true -> (0 < v)%Q) /\ (legal b player x y = false -> v = 0%Q)).
  { intros g probs b Hprobs Hb.
    pose proof (Forall_lookup_1 _ _ _ _ Hsa1 Hprobs) as Hs. cbn beta in Hs.
    pose proof (lookup_lt_Some _ _ _ Hb) as Hg.
    assert (Hcell : forall x y v, cell_at probs x y = Some v ->
      (legal b player x y = true -> (0 < v)%Q) /\ (legal b player x y = false -> v = 0%Q)).
    { intros x y v Hc. pose proof (cell_at_on_board _ _ _ _ Hc) as Hxy.
      destruct (Hscores (Z.of_nat g, x, y)) as (_ & v' & Hv' & Hyes & Hno).
      { unfold in_grid. split; [lia | done]. }
      unfold score_of in Hv'. destruct (Z.ltb_spec (Z.of_nat g) 0); [lia|].
      rewrite Nat2Z.id, Hprobs, Hc in Hv'. injection Hv' as <-.
      unfold draws in Hyes, Hno. rewrite Nat2Z.id, Hb in Hyes, Hno.
      split; [intros Hl; by apply Hyes | done]. }
    split; [done|]. split; [|done].
    apply nonneg_pointwise; [done|]. intros x y v Hc.
    destruct (Hcell x y v Hc) as [Hyes Hno].
    destruct (legal b player x y); [apply Qlt_le_weak; by apply Hyes | by rewrite Hno]. }
  destruct (select_and_step_fold player Hp N_GAMES 0 d1)
    as (d' & Hsel & Hrng' & Hap' & Hlb' & Hls' & _ & Hgames).
  { intros bx [_ Hbx].
    destruct (lookup_lt_is_Some_2 (action_probs d1) bx) as [probs Hprobs]; [lia|].
    destruct (lookup_lt_is_Some_2 (boards d) bx) as [b Hb]; [lia|].
    destruct (lookup_lt_is_Some_2 (player_status d) bx) as [st Hst]; [lia|].
    destruct (Hgrid bx probs b Hprobs Hb) as (Hs & Hn & _).
    exists probs, b, st. rewrite Hb1, Hs1. do 5 (split; [done|]). split.
    - apply (Forall_lookup_1 _ _ _ _ Hvb Hb).
    - apply (Forall_lookup_1 _ _ _ _ Hrows Hst). }
  rewrite Hb1 in Hlb'. rewrite Hs1 in Hls'.
  (* every game *)
  assert (Hgame : forall (g : nat) b st,
    boards d !! g = Some b -> player_status d !! g = Some st ->
    exists b' st',
      boards d' !! g = Some b' /\ player_status d' !! g = Some st' /\
      valid_board b' = true /\ length st' = 2%nat /\
      ((has_move b player = false /\ b' = b /\ st' = <[Z.to_nat (player - 1) := 1]> st) \/
       (has_move b player = true /\ count_empty b = S (count_empty b') /\
        st' = <[Z.to_nat (player - 1) := 0]> st))).
  { intros g b st Hb Hst. pose proof (lookup_lt_Some _ _ _ Hb) as Hg.
    destruct (lookup_lt_is_Some_2 (action_probs d1) g) as [probs Hprobs]; [lia|].
    destruct (Hgrid g probs b Hprobs Hb) as (Hs & Hn & Hcell).
    pose proof (Forall_lookup_1 _ _ _ _ Hvb Hb) as Hv. cbn beta in Hv.
    pose proof (Forall_lookup_1 _ _ _ _ Hrows Hst) as Hl. cbn beta in Hl.
    destruct (Hgames g probs b st) as (b' & st' & Hblock & Hb' & Hst');
      [lia | done | by rewrite Hb1 | by rewrite Hs1 |].
    destruct (select_and_step_block_spec player probs b st Hs Hn Hv Hp Hl)
      as (sh & b2 & st2 & _ & Hblock2 & Hv2 & Hl2 & Hcase).
    rewrite Hblock in Hblock2. injection Hblock2 as <- <-.
    exists b', st'. do 4 (split; [done|]).
    destruct Hcase as [(_ & Hzero & -> & ->) | (ax & ay & _ & Harg & -> & Horig & Hturned & Hkept)].
    - left. split; [|done]. apply not_true_iff_false.
      intros (x & y & Hlegal)%has_move_spec.
      assert (Hxy : on_board x y).
      { unfold legal in Hlegal. destruct (cell_at b x y) eqn:Hc; [|done].
        by apply cell_at_on_board in Hc. }
      destruct (well_shaped_cell probs x y Hs Hxy) as [v Hc].
      destruct (Hcell x y v Hc) as [Hyes _]. specialize (Hyes Hlegal).
      pose proof (Hzero x y v Hc). lra.
    - right. destruct Harg as (Hxy & M & HM & Hpos & _).
      destruct (Hcell ax ay M HM) as [_ Hno].
      assert (Hlegal : legal b player ax ay = true).
      { destruct (legal b player ax ay); [done|]. rewrite Hno in Hpos by done. lra. }
      split; [apply has_move_spec; by exists ax, ay|]. split; [|done].
      apply (count_empty_move b b' ax ay player Hp).
      + unfold legal in Hlegal. destruct (cell_at b ax ay) as [v|]; [|done].
        apply andb_true_iff in Hlegal as [->%Z.eqb_eq _]. done.
      + done.
      + intros x y Hne.
        destruct (turned_or_not b ax ay player x y Hv Hp) as [(r & n & Hr & Hcap & Hbt) | Hnone].
        * right. split; [by apply (Hturned r n)|].
          apply between_spec in Hbt as (j & Hj & -> & ->).
          destruct Hcap as (_ & Hrun & _). by apply Hrun.
        * left. by apply Hkept. }
  exists d'. split; [unfold turn; rewrite Hfind; cbn [bind]; exact Hsel|].
  split; [|split].
  - apply find_ready_spec. rewrite Hrng', Hap'. split; [lia|]. split; [|done].
    apply Forall_lookup_2. intros g b' Hb'.
    pose proof (lookup_lt_Some _ _ _ Hb') as Hg.
    destruct (lookup_lt_is_Some_2 (boards d) g) as [b Hb]; [lia|].
    destruct (lookup_lt_is_Some_2 (player_status d) g) as [st Hst]; [lia|].
    destruct (Hgame g b st Hb Hst) as (b2 & st2 & Hb2 & _ & Hv2 & _). congruence.
  - apply status_ready_spec. split; [lia|].
    apply Forall_lookup_2. intros g st' Hst'.
    pose proof (lookup_lt_Some _ _ _ Hst') as Hg.
    destruct (lookup_lt_is_Some_2 (boards d) g) as [b Hb]; [lia|].
    destruct (lookup_lt_is_Some_2 (player_status d) g) as [st Hst]; [lia|].
    destruct (Hgame g b st Hb Hst) as (b2 & st2 & _ & Hst2 & _ & Hl2 & _). congruence.
  - intros g b st Hb Hst.
    destruct (Hgame g b st Hb Hst) as (b' & st' & Hb' & Hst' & _ & _ & Hcase).
    exists b'. split; [done|].
    destruct Hcase as [(? & ? & ->) | (? & ? & ->)]; [left | right]; done.
Qed.

Lemma flag_1 s1 s2 : flag [s1; s2] 1 = s1.
Proof. done. Qed.

Lemma flag_2 s1 s2 : flag [s1; s2] 2 = s2.
Proof. done. Qed.

Lemma game_inv_row b st player :
  game_inv b st player -> exists s1 s2, st = [s1; s2] /\ (s1 = 0 \/ s1 = 1) /\ (s2 = 0 \/ s2 = 1).
Proof.
  intros (Hl & H1 & H2 & _). destruct st as [|s1 [|s2 [|]]]; try done.
  exists s1, s2. rewrite flag_1 in H1. rewrite flag_2 in H2. done.
Qed.

Lemma game_pass b st player :
  is_player player = true -> game_inv b st player -> has_move b player = false ->
  game_inv b (<[Z.to_nat (player - 1) := 1]> st) (3 - player) /\
  (potential b (<[Z.to_nat (player - 1)%Z := 1%Z]> st) (3 - player)%Z
   <= potential b st player - 1)%nat.
Proof.
  intros Hp%is_player_spec Hinv Hno.
  destruct (game_inv_row _ _ _ Hinv) as (s1 & s2 & -> & Hs1 & Hs2).
  destruct Hinv as (_ & _ & _ & Hq & Hboth).
  unfold game_inv, potential, passed_both in *.
  destruct Hp as [-> | ->].
  - change (Z.to_nat (1 - 1)) with 0%nat. change (3 - 1) with 2 in *.
    change (3 - 2) with 1. change (<[0%nat := 1]> [s1; s2]) with [1; s2].
    rewrite !flag_1, !flag_2 in *. split.
    + split; [done|]. split; [by right|]. split; [done|]. split; [done|].
      intros Hb. apply Hq. lia.
    + destruct (Z.eqb_spec s1 1), (Z.eqb_spec s2 1); cbn [andb Z.eqb Pos.eqb]; lia.
  - change (Z.to_nat (2 - 1)) with 1%nat. change (3 - 2) with 1 in *.
    change (3 - 1) with 2. change (<[1%nat := 1]> [s1; s2]) with [s1; 1].
    rewrite !flag_1, !flag_2 in *. split.
    + split; [done|]. split; [done|]. split; [by right|]. split; [done|].
      intros Hb. apply Hq. lia.
    + destruct (Z.eqb_spec s1 1), (Z.eqb_spec s2 1); cbn [andb Z.eqb Pos.eqb]; lia.
Qed.

Lemma game_move b b' st player :
  is_player player = true -> game_inv b st player -> has_move b player = true ->
  count_empty b = S (count_empty b') ->
  game_inv b' (<[Z.to_nat (player - 1) := 0]> st) (3 - player) /\
  (potential b' (<[Z.to_nat (player - 1)%Z := 0%Z]> st) (3 - player)%Z + 1
   <= potential b st player)%nat.
Proof.
  intros Hp%is_player_spec Hinv Hyes Hcount.
  destruct (game_inv_row _ _ _ Hinv) as (s1 & s2 & -> & Hs1 & Hs2).
  destruct Hinv as (_ & _ & _ & Hq & Hboth).
  assert (Hnb : passed_both [s1; s2] = false).
  { destruct (passed_both [s1; s2]); [|done]. rewrite Hboth in Hyes; done. }
  unfold game_inv, potential. rewrite Hnb, Hcount. clear Hboth.
  unfold passed_both in *.
  destruct Hp as [-> | ->].
  - change (Z.to_nat (1 - 1)) with 0%nat. change (3 - 1) with 2 in *.
    change (3 - 2) with 1. change (<[0%nat := 0]> [s1; s2]) with [0; s2].
    rewrite !flag_1, !flag_2 in *. cbn [andb Z.eqb].
    split; [|lia]. split; [done|]. split; [by left|]. split; [done|]. done.
  - change (Z.to_nat (2 - 1)) with 1%nat. change (3 - 2) with 1 in *.
    change (3 - 1) with 2. change (<[1%nat := 0]> [s1; s2]) with [s1; 0].
    rewrite !flag_1, !flag_2 in *. split.
    + split; [done|]. split; [done|]. split; [by left|]. split; [done|].
      intros Hb. apply andb_true_iff in Hb as [_ Hb]. done.
    + destruct (Z.eqb_spec s1 1); cbn [andb Z.eqb]; lia.
Qed.

Lemma potential_zero b st player :
  is_player player = true -> game_inv b st player -> potential b st player = 0%nat ->
  st = [1; 1].
Proof.
  intros Hp%is_player_spec Hinv Hpot.
  destruct (game_inv_row _ _ _ Hinv) as (s1 & s2 & -> & Hs1 & Hs2).
  unfold potential, passed_both in Hpot.
  destruct Hp as [-> | ->].
  - change (3 - 1) with 2 in Hpot. rewrite !flag_1, !flag_2 in Hpot.
    destruct (Z.eqb_spec s1 1), (Z.eqb_spec s2 1); cbn [andb] in Hpot; try lia.
    by subst.
  - change (3 - 2) with 1 in Hpot. rewrite !flag_1, !flag_2 in Hpot.
    destruct (Z.eqb_spec s1 1), (Z.eqb_spec s2 1); cbn [andb] in Hpot; try lia.
    by subst.
Qed.

Lemma sum_status_passed (ps : list (list Z)) :
  Forall (fun st => st = [1; 1]) ps -> sum_status ps = 2 * Z.of_nat (length ps).
Proof.
  unfold sum_status. induction 1 as [|st ps -> _ IH]; [done|].
  cbn [concat app foldr length]. rewrite IH. lia.
Qed.

Lemma is_player_other player : is_player player = true -> is_player (3 - player) = true.
Proof. unfold is_player. lia. Qed.

Lemma batch_inv_turn `{R : RandomSource} {U : UniformOpen R} player sched (d : device) K :
  is_player player = true -> schedule sched -> batch_inv d player (S K) ->
  exists d',
    turn sched player d = Ret d' /\ batch_inv d' (3 - player) K /\
    forall (g : nat) b b', boards d !! g = Some b -> boards d' !! g = Some b' ->
      (count_empty b' <= count_empty b)%nat.
Proof.
  intros Hp Hsched (Hready & Hstatus & Hgames).
  destruct (turn_spec player sched d Hp Hsched Hready Hstatus)
    as (d' & Hturn & Hready' & Hstatus' & Hstep).
  pose proof Hready as (Hlb & _)%find_ready_spec.
  pose proof Hready' as (Hlb' & _)%find_ready_spec.
  pose proof Hstatus as (Hls & _)%status_ready_spec.
  pose proof Hstatus' as (Hls' & _)%status_ready_spec.
  exists d'. split; [done|]. split.
  - split; [done|]. split; [done|]. intros g b' st' Hb' Hst'.
    pose proof (lookup_lt_Some _ _ _ Hb') as Hg.
    destruct (lookup_lt_is_Some_2 (boards d) g) as [b Hb]; [lia|].
    destruct (lookup_lt_is_Some_2 (player_status d) g) as [st Hst]; [lia|].
    destruct (Hgames g b st Hb Hst) as [Hinv Hpot].
    destruct (Hstep g b st Hb Hst) as (b2 & Hb2 & Hcase).
    assert (b2 = b') by congruence. subst b2.
    destruct Hcase as [(Hno & -> & Hst2) | (Hyes & Hcount & Hst2)].
    + assert (st' = <[Z.to_nat (player - 1) := 1]> st) by congruence. subst st'.
      destruct (game_pass b st player Hp Hinv Hno) as [Hinv' Hpot']. split; [done | lia].
    + assert (st' = <[Z.to_nat (player - 1) := 0]> st) by congruence. subst st'.
      destruct (game_move b b' st player Hp Hinv Hyes Hcount) as [Hinv' Hpot'].
      split; [done | lia].
  - intros g b b' Hb Hb'. pose proof (lookup_lt_Some _ _ _ Hb) as Hg.
    destruct (lookup_lt_is_Some_2 (player_status d) g) as [st Hst]; [lia|].
    destruct (Hstep g b st Hb Hst) as (b2 & Hb2 & Hcase).
    assert (b2 = b') by congruence. subst b2.
    destruct Hcase as [(_ & -> & _) | (_ & Hcount & _)]; lia.
Qed.

(** The loop ends within the bound of the invariant. *)
Lemma rollout_loop_terminates `{R : RandomSource} {U : UniformOpen R} sched :
  (forall k, schedule (sched k)) ->
  forall (K fuel k : nat) (player : Z) (d : device),
    is_player player = true -> batch_inv d player K -> (K < fuel)%nat ->
    exists d' k',
      rollout_loop fuel sched k player d = Ret (d', k') /\
      (k <= k' <= k + K)%nat /\
      find_ready d' = true /\ status_ready d' = true /\
      (sum_status (player_status d') <? 2 * Z.of_nat N_GAMES) = false /\
      forall (g : nat) b b', boards d !! g = Some b -> boards d' !! g = Some b' ->
        (count_empty b' <= count_empty b)%nat.
Proof.
  intros Hsched. induction K as [|K IH]; intros fuel k player d Hp Hinv Hfuel.
  - destruct fuel as [|fuel]; [lia|]. cbn [rollout_loop].
    destruct Hinv as (Hready & Hstatus & Hgames).
    pose proof Hready as (Hlb & _)%find_ready_spec.
    pose proof Hstatus as (Hls & _)%status_ready_spec.
    assert (Hsum : sum_status (player_status d) = 2 * Z.of_nat N_GAMES).
    { rewrite <- Hls. apply sum_status_passed. apply Forall_lookup_2. intros g st Hst.
      pose proof (lookup_lt_Some _ _ _ Hst) as Hg.
      destruct (lookup_lt_is_Some_2 (boards d) g) as [b Hb]; [lia|].
      destruct (Hgames g b st Hb Hst) as [Hgi Hpot].
      apply (potential_zero b st player Hp Hgi). lia. }
    rewrite Hsum, Z.ltb_irrefl. exists d, k. split; [done|]. split; [lia|].
    split; [done|]. split; [done|]. split; [rewrite Hsum; apply Z.ltb_irrefl|].
    intros g b b' Hb Hb'. assert (b = b') by congruence. subst. lia.
  - destruct fuel as [|fuel]; [lia|]. cbn [rollout_loop].
    destruct (sum_status (player_status d) <? 2 * Z.of_nat N_GAMES) eqn:Hsum.
    + destruct (batch_inv_turn player (sched k) d K Hp (Hsched k) Hinv)
        as (d1 & Hturn & Hinv1 & Hmono1).
      rewrite Hturn. cbn [bind].
      destruct (IH fuel (S k) (3 - player) d1 (is_player_other _ Hp) Hinv1)
        as (d' & k' & Hloop & Hk & Hready' & Hstatus' & Hexit & Hmono); [lia|].
      exists d', k'. split; [done|]. split; [lia|]. do 3 (split; [done|]).
      intros g b b' Hb Hb'.
      destruct Hinv as (Hready & _). destruct Hinv1 as (Hready1 & _).
      pose proof Hready as (Hlb & _)%find_ready_spec.
      pose proof Hready1 as (Hlb1 & _)%find_ready_spec.
      pose proof (lookup_lt_Some _ _ _ Hb) as Hg.
      destruct (lookup_lt_is_Some_2 (boards d1) g) as [b1 Hb1]; [lia|].
      pose proof (Hmono1 g b b1 Hb Hb1). pose proof (Hmono g b1 b' Hb1 Hb'). lia.
    + destruct Hinv as (Hready & Hstatus & _).
      exists d, k. split; [done|]. split; [lia|]. do 3 (split; [done|]).
      intros g b b' Hb Hb'. assert (b = b') by congruence. subst. lia.
Qed.

Lemma init_ready `{RandomSource} (d : device) board0 :
  valid_board board0 = true -> globals_ready d = true ->
  find_ready (init d board0) = true /\ status_ready (init d board0) = true.
Proof.
  unfold globals_ready, find_ready, status_ready, init. cbn [boards player_status
    rng_states action_probs]. intros Hv Hg. rewrite !length_replicate, Nat.eqb_refl.
  rewrite !andb_true_iff in *. destruct Hg as [[-> ->] ->].
  split; [|split; [done|]].
  - split; [|done]. split; [|done]. split; [|done]. split; [done|].
    apply forallb_forall. intros b Hb%list_elem_of_In%elem_of_replicate. by destruct Hb as [-> _].
  - apply forallb_forall. intros st Hst%list_elem_of_In%elem_of_replicate.
    by destruct Hst as [-> _].
Qed.

Lemma init_inv `{RandomSource} (d : device) board0 planner :
  valid_board board0 = true -> globals_ready d = true -> is_player planner = true ->
  batch_inv (init d board0) planner (2 * count_empty board0 + 2).
Proof.
  intros Hv Hg Hp. destruct (init_ready d board0 Hv Hg) as [Hready Hstatus].
  split; [done|]. split; [done|]. unfold init. cbn [boards player_status].
  intros g b st [-> _]%lookup_replicate [-> _]%lookup_replicate.
  apply is_player_spec in Hp. unfold game_inv, potential, passed_both.
  destruct Hp as [-> | ->].
  - change (3 - 1) with 2. rewrite !flag_1, !flag_2. cbn [andb Z.eqb Z.to_nat].
    split; [|lia]. split; [done|]. split; [by left|]. split; [by left|]. done.
  - change (3 - 2) with 1. rewrite !flag_1, !flag_2. cbn [andb Z.eqb Z.to_nat].
    split; [|lia]. split; [done|]. split; [by left|]. split; [by left|]. done.
Qed.

Lemma mapM_fmap {A B : Type} (f : A -> res B) (g : A -> B) (l : list A) :
  (forall a, a ∈ l -> f a = Ret (g a)) -> mapM f l = Ret (g <$> l).
Proof.
  induction l as [|a l IH]; intros Hf; [done|].
  cbn [mapM]. rewrite Hf by (rewrite elem_of_cons; by left). cbn [bind].
  rewrite IH; [done|]. intros a' Ha'. apply Hf. rewrite elem_of_cons. by right.
Qed.

Lemma valid_board_concat b :
  valid_board b = true -> Forall (fun v => 0 <= v <= 2) (concat b).
Proof.
  unfold valid_board. intros [_ Hv]%andb_true_iff.
  apply Forall_concat. apply Forall_forall. intros row Hrow%list_elem_of_In.
  rewrite forallb_forall in Hv. specialize (Hv row Hrow).
  apply Forall_forall. intros v Hin%list_elem_of_In.
  rewrite forallb_forall in Hv. specialize (Hv v Hin). unfold valid_cell in Hv. lia.
Qed.

Lemma bincount_cells (x : list Z) :
  Forall (fun v => 0 <= v <= 2) x ->
  existsb (fun v => v <? 0) x = false /\ -1 <= foldr Z.max (-1) x <= 2.
Proof.
  induction 1 as [|v x Hv _ [IH1 IH2]]; [done|].
  cbn [existsb foldr]. rewrite IH1. split; [|lia].
  destruct (Z.ltb_spec v 0); [lia | done].
Qed.

Lemma scores_of_valid b :
  valid_board b = true -> scores_of b = Ret [tokens b 1; tokens b 2].
Proof.
  intros Hv. unfold scores_of, bincount.
  destruct (bincount_cells _ (valid_board_concat b Hv)) as [-> Hmax]. cbn [bind].
  assert (Nat.max (Z.to_nat (foldr Z.max (-1) (concat b) + 1)) 3 = 3%nat) as -> by lia.
  done.
Qed.

Lemma winner_of_scores c1 c2 :
  winner_of [c1; c2] = Ret (if c1 =? c2 then 0 else if c1 <? c2 then 2 else 1).
Proof.
  unfold winner_of.
  change (rd [c1; c2] 0) with (Ret c1). change (rd [c1; c2] 1) with (Ret c2).
  cbn [bind]. unfold argmax. cbn [argmax_from].
  destruct (c1 =? c2); [done|]. by destruct (c1 <? c2).
Qed.

Lemma finalize_valid (bs : list board) :
  Forall (fun b => valid_board b = true) bs -> finalize bs = Ret (outcome <$> bs).
Proof.
  intros Hv. unfold finalize.
  rewrite (mapM_fmap scores_of (fun b => [tokens b 1; tokens b 2])).
  - cbn [bind]. rewrite (mapM_fmap winner_of
      (fun s => match s with
                | [c1; c2] => if c1 =? c2 then 0 else if c1 <? c2 then 2 else 1
                | _ => 0
                end)).
    + by rewrite <- list_fmap_compose.
    + intros s (b & -> & _)%list_elem_of_fmap. apply winner_of_scores.
  - intros b Hb. apply scores_of_valid. rewrite Forall_forall in Hv. by apply Hv.
Qed.

(** ** Memory safety of [ray_cast] on any 8x8 array *)

Lemma ray_cast_loop_in_bounds b r player :
  well_shaped b = true ->
  forall (fuel : nat) (x y : Z), ray_cast_loop fuel b x y r player <> Err OutOfBounds.
Proof.
  intros Hs. induction fuel as [|fuel IH]; intros x y; [done|].
  cbn [ray_cast_loop].
  destruct ((x >=? 0) && (y >=? 0) && (x <? 8) && (y <? 8)) eqn:Hg; [|done].
  apply loop_guard in Hg. destruct (rd2_on_board b x y Hs Hg) as (v & -> & _).
  cbn [bind]. destruct (v =? 0); [done|]. destruct (v =? player); [done|]. apply IH.
Qed.

Lemma ray_cast_loop_returns b r player :
  well_shaped b = true -> r ∈ RAYS ->
  forall (fuel : nat) (x y : Z),
    (1 <= fuel)%nat -> (on_board x y -> room x y r < Z.of_nat fuel) ->
    exists h, ray_cast_loop fuel b x y r player = Ret h.
Proof.
  intros Hs Hr. induction fuel as [|fuel IH]; intros x y Hf Hroom; [lia|].
  cbn [ray_cast_loop].
  destruct ((x >=? 0) && (y >=? 0) && (x <? 8) && (y <? 8)) eqn:Hg; [|by eexists].
  apply loop_guard in Hg. destruct (rd2_on_board b x y Hs Hg) as (v & -> & _).
  cbn [bind]. destruct (v =? 0); [by eexists|]. destruct (v =? player); [by eexists|].
  pose proof (room_on_board x y r Hr Hg). specialize (Hroom Hg). apply IH; [lia|].
  intros _. rewrite room_step by done. lia.
Qed.

Lemma ray_cast_in_bounds b x0 y0 r player :
  well_shaped b = true -> ray_cast b x0 y0 r player <> Err OutOfBounds.
Proof.
  intros Hs. unfold ray_cast.
  destruct ((x0 + r.1 <? 0) || (y0 + r.2 <? 0) || (x0 + r.1 >=? 8) || (y0 + r.2 >=? 8))
    eqn:Hg; [done|].
  apply first_guard in Hg. destruct (rd2_on_board b _ _ Hs Hg) as (v & -> & _).
  cbn [bind]. destruct (negb (v =? 3 - player)); [done|].
  by apply ray_cast_loop_in_bounds.
Qed.

Lemma ray_cast_returns b x0 y0 r player :
  well_shaped b = true -> r ∈ RAYS -> exists h, ray_cast b x0 y0 r player = Ret h.
Proof.
  intros Hs Hr. unfold ray_cast.
  destruct ((x0 + r.1 <? 0) || (y0 + r.2 <? 0) || (x0 + r.1 >=? 8) || (y0 + r.2 >=? 8))
    eqn:Hg; [by eexists|].
  apply first_guard in Hg. destruct (rd2_on_board b _ _ Hs Hg) as (v & -> & _).
  cbn [bind]. destruct (negb (v =? 3 - player)); [by eexists|].
  apply ray_cast_loop_returns; [done | done | unfold FUEL; lia |].
  intros _. rewrite room_step by done. pose proof (room_on_board _ _ r Hr Hg).
  unfold FUEL. lia.
Qed.

(** A capture ends on the board: it is at most 7 tokens long. *)
Lemma capture_length b x0 y0 r player n :
  r ∈ RAYS -> captures b x0 y0 r player n -> (n <= 7)%nat.
Proof.
  intros (Hx & Hy & Hn)%RAYS_spec (Hn1 & Hrun & [? ?]%cell_at_on_board).
  specialize (Hrun 1%nat ltac:(lia)). apply cell_at_on_board in Hrun as [? ?].
  destruct r as [dx dy]. simpl in *. nia.
Qed.

Lemma select_ready_game `{RandomSource} (d : device) (bx : nat) :
  select_ready d = true -> (bx < N_GAMES)%nat -> game_ready d bx.
Proof.
  unfold select_ready. rewrite !andb_true_iff, !Nat.eqb_eq, !forallb_forall.
  intros (((((Hlb & Hvb) & Hla) & Hsa) & Hls) & Hrows) Hbx.
  destruct (lookup_lt_is_Some_2 (action_probs d) bx) as [probs Hprobs]; [lia|].
  destruct (lookup_lt_is_Some_2 (boards d) bx) as [b Hb]; [lia|].
  destruct (lookup_lt_is_Some_2 (player_status d) bx) as [st Hst]; [lia|].
  exists probs, b, st. do 3 (split; [done|]).
  assert (Hin : forall {A} (l : list A) i x, l !! i = Some x -> In x l).
  { intros A l i x Hx. apply list_elem_of_In, list_elem_of_lookup. eauto. }
  specialize (Hsa probs (Hin _ _ _ _ Hprobs)). apply andb_true_iff in Hsa as [? ?].
  specialize (Hvb b (Hin _ _ _ _ Hb)). specialize (Hrows st (Hin _ _ _ _ Hst)).
  apply Nat.eqb_eq in Hrows. done.
Qed.

(** The launch, game by game. *)
Lemma select_and_step_games `{RandomSource} player (d : device) :
  is_player player = true -> select_ready d = true ->
  exists d',
    select_and_step player d = Ret d' /\
    rng_states d' = rng_states d /\ action_probs d' = action_probs d /\
    forall (g : nat) probs b st,
      action_probs d !! g = Some probs -> boards d !! g = Some b ->
      player_status d !! g = Some st ->
      exists b' st',
        select_and_step_block player probs (b, st) = Ret (b', st') /\
        boards d' !! g = Some b' /\ player_status d' !! g = Some st'.
Proof.
  intros Hp Hready.
  destruct (select_and_step_fold player Hp N_GAMES 0 d)
    as (d' & Hsel & Hrng & Hap & _ & _ & _ & Hgames).
  { intros bx [_ Hbx]. by apply select_ready_game. }
  exists d'. do 3 (split; [done|]). intros g probs b st Hprobs Hb Hst.
  apply Hgames; try done. split; [lia|].
  apply lookup_lt_Some in Hb. unfold select_ready in Hready.
  rewrite !andb_true_iff, !Nat.eqb_eq in Hready. lia.
Qed.

(** Block [g] alone: the arrays of the other games stay as they are. *)
Lemma select_and_step_at_frame `{RandomSource} player (g : nat) (d d1 : device) :
  select_and_step_at player (Z.of_nat g) d = Ret d1 ->
  forall g', g' <> g ->
    boards d1 !! g' = boards d !! g' /\ player_status d1 !! g' = player_status d !! g'.
Proof.
  unfold select_and_step_at. intros Hrun g' Hne.
  apply bind_Ret in Hrun as (probs & _ & Hrun).
  apply bind_Ret in Hrun as (b & _ & Hrun).
  apply bind_Ret in Hrun as (st & _ & Hrun).
  apply bind_Ret in Hrun as ([b' st'] & _ & Hrun).
  apply bind_Ret in Hrun as (bs & [_ ->]%wr_Ret & Hrun).
  apply bind_Ret in Hrun as (ps & [_ ->]%wr_Ret & [= <-]).
  cbn [boards player_status]. rewrite Nat2Z.id.
  rewrite !list_lookup_insert_ne by done. done.
Qed.

Lemma lcg_open : UniformOpen lcg_source.
Proof.
  intros s. cbn.
  pose proof (Z.mod_pos_bound (s * 1103515245 + 12345) 2147483648 ltac:(lia)).
  unfold Qlt. cbn. lia.
Qed.

Lemma row_major_schedule k : schedule (row_major k).
Proof. unfold schedule, row_major. reflexivity. Qed.

Lemma reversed_schedule k : schedule (reversed k).
Proof. unfold schedule, reversed. symmetry. apply Permutation_rev. Qed.

Lemma RAYS_elem (i : nat) r : RAYS !! i = Some r -> r ∈ RAYS.
Proof. apply RAYS_lookup_elem. Qed.

(** * The properties of the design document *)

(** C1. On every board, from every origin (in particular every empty one),
    along each of the 8 rays and for each mover, [ray_cast] returns, and it
    returns true exactly when a line of at least one opposing token starts
    one step from the origin and ends in a token of the mover; it returns
    false when the first step is not an opposing token on the board, when an
    empty cell comes before any token of the mover, and when the ray leaves
    the board without meeting one. *)
Theorem ray_cast_capturing_line (b : board) (x0 y0 : Z) (r : ray) (player : Z) :
  valid_board b = true -> is_player player = true -> r ∈ RAYS ->
  (ray_cast b x0 y0 r player = Ret true <-> capturing_line b x0 y0 r player) /\
  (ray_cast b x0 y0 r player = Ret false <-> ~ capturing_line b x0 y0 r player) /\
  (cell_at b (x0 + r.1) (y0 + r.2) <> Some (3 - player) ->
     ray_cast b x0 y0 r player = Ret false) /\
  (forall m : nat, (1 <= m)%nat ->
     cell_at b (x0 + Z.of_nat m * r.1) (y0 + Z.of_nat m * r.2) = Some 0 ->
     (forall j : nat, (1 <= j < m)%nat ->
        cell_at b (x0 + Z.of_nat j * r.1) (y0 + Z.of_nat j * r.2) <> Some player) ->
     ray_cast b x0 y0 r player = Ret false) /\
  ((forall j : nat, (1 <= j)%nat ->
      cell_at b (x0 + Z.of_nat j * r.1) (y0 + Z.of_nat j * r.2) <> Some player) ->
     ray_cast b x0 y0 r player = Ret false).
Proof.
  intros Hv Hp Hr.
  destruct (ray_cast_spec b x0 y0 r player Hv Hp Hr) as (h & Hrc & Hh).
  assert (Hfalse : ~ capturing_line b x0 y0 r player -> ray_cast b x0 y0 r player = Ret false).
  { intros Hno. rewrite Hrc. destruct h; [|done]. exfalso. by apply Hno, Hh. }
  pose proof Hp as Hp'%is_player_spec.
  split; [|split; [|split; [|split]]].
  - rewrite Hrc. split; [intros [= ->]; by apply Hh | intros ->%Hh; done].
  - split; [|done]. rewrite Hrc. intros [= ->] Hc%Hh. done.
  - intros Hfirst. apply Hfalse. intros (n & Hn & Hrun & _).
    apply Hfirst. specialize (Hrun 1%nat ltac:(lia)). by rewrite !Z.mul_1_l in Hrun.
  - intros m Hm Hempty Hbefore. apply Hfalse. intros (n & Hn & Hrun & Hend).
    destruct (Nat.lt_trichotomy m (n + 1)) as [Hlt | [-> | Hgt]].
    + specialize (Hrun m ltac:(lia)). rewrite Hempty in Hrun. injection Hrun. lia.
    + rewrite Hempty in Hend. injection Hend. lia.
    + by apply (Hbefore (n + 1)%nat ltac:(lia)).
  - intros Hnone. apply Hfalse. intros (n & Hn & _ & Hend).
    by apply (Hnone (n + 1)%nat ltac:(lia)).
Qed.

Lemma ray_cast_capturing_line_witness :
  valid_board initial_board = true /\
  (ray_cast initial_board 2 3 (1, 0) 1 = Ret true <->
   capturing_line initial_board 2 3 (1, 0) 1).
Proof.
  split; [reflexivity|].
  apply (ray_cast_capturing_line initial_board 2 3 (1, 0) 1);
    [reflexivity | reflexivity | apply (RAYS_elem 2); reflexivity].
Defined.

(** C10. Every board access is in bounds.  On an 8x8 array [ray_cast] never
    indexes outside it, whatever the ray, and returns for each ray of the
    table; and when [ray_cast] has returned true from an origin along a ray
    for a mover, the flip loop of [select_and_step] from that origin reads
    exactly the [n] opposing tokens of the capture and the token of the
    mover that ends it, all on the board, turns exactly those [n] tokens and
    stops there. *)
Theorem board_accesses_in_bounds :
  (forall (b : board) (x0 y0 : Z) (r : ray) (player : Z),
     well_shaped b = true ->
     ray_cast b x0 y0 r player <> Err OutOfBounds /\
     (r ∈ RAYS -> exists h, ray_cast b x0 y0 r player = Ret h)) /\
  (forall (b : board) (ax ay : Z) (r : ray) (player : Z),
     valid_board b = true -> is_player player = true -> r ∈ RAYS ->
     ray_cast b ax ay r player = Ret true ->
     exists (n : nat) (b' : board),
       captures b ax ay r player n /\ (S n <= FUEL)%nat /\
       flip_loop (S n) b (ax + r.1) (ay + r.2) r player = Ret b' /\
       flip_loop FUEL b (ax + r.1) (ay + r.2) r player = Ret b' /\
       (forall j : nat, (1 <= j <= n + 1)%nat ->
          on_board (ax + Z.of_nat j * r.1) (ay + Z.of_nat j * r.2)) /\
       (forall x y, cell_at b' x y =
          if between ax ay r n x y then Some player else cell_at b x y)).
Proof.
  split.
  - intros b x0 y0 r player Hs. split; [by apply ray_cast_in_bounds|].
    intros Hr. by apply ray_cast_returns.
  - intros b ax ay r player Hv Hp Hr Hhit.
    destruct (ray_cast_spec b ax ay r player Hv Hp Hr) as (h & Hrc & Hh).
    rewrite Hrc in Hhit. injection Hhit as ->.
    destruct (proj1 Hh eq_refl) as (n & Hcap).
    pose proof (capture_length _ _ _ _ _ _ Hr Hcap) as Hlen.
    pose proof Hcap as (Hn & Hrun & Hend).
    assert (Hrun' : forall j : nat, (j < n)%nat ->
      cell_at b (ax + r.1 + Z.of_nat j * r.1) (ay + r.2 + Z.of_nat j * r.2) = Some (3 - player)).
    { intros j Hj. specialize (Hrun (S j) ltac:(lia)).
      replace (ax + r.1 + Z.of_nat j * r.1) with (ax + Z.of_nat (S j) * r.1) by lia.
      replace (ay + r.2 + Z.of_nat j * r.2) with (ay + Z.of_nat (S j) * r.2) by lia.
      done. }
    assert (Hend' :
      cell_at b (ax + r.1 + Z.of_nat n * r.1) (ay + r.2 + Z.of_nat n * r.2) = Some player).
    { replace (ax + r.1 + Z.of_nat n * r.1) with (ax + Z.of_nat (n + 1) * r.1) by lia.
      replace (ay + r.2 + Z.of_nat n * r.2) with (ay + Z.of_nat (n + 1) * r.2) by lia.
      done. }
    assert (Hne : player <> 3 - player) by lia.
    destruct (flip_loop_spec r player Hr n b (ax + r.1) (ay + r.2) (S n) player
                (valid_board_shape _ Hv) Hrun' Hend' Hne ltac:(lia))
      as (b' & Hfl & _ & Hc).
    destruct (flip_loop_spec r player Hr n b (ax + r.1) (ay + r.2) FUEL player
                (valid_board_shape _ Hv) Hrun' Hend' Hne ltac:(unfold FUEL; lia))
      as (b2 & Hfl2 & _ & Hc2).
    assert (b2 = b').
    { clear Hc2. revert Hfl2. generalize FUEL. intros fuel Hfl2.
      assert (Hmono : forall f1 f2 bb x y c1,
        flip_loop f1 bb x y r player = Ret c1 -> (f1 <= f2)%nat ->
        flip_loop f2 bb x y r player = Ret c1).
      { induction f1 as [|f1 IHf]; intros f2 bb x y c1 H1 Hle; [done|].
        destruct f2 as [|f2]; [lia|]. cbn [flip_loop] in *.
        destruct (rd2 bb x y) as [v|]; [|done]. cbn [bind] in *.
        destruct (v =? 3 - player); [|done].
        destruct (wr2 bb x y player) as [bb'|]; [|done]. cbn [bind] in *.
        apply IHf; [done | lia]. }
      destruct (Nat.le_ge_cases (S n) fuel) as [Hle | Hge].
      - pose proof (Hmono (S n) fuel _ _ _ _ Hfl Hle). congruence.
      - pose proof (Hmono fuel (S n) _ _ _ _ Hfl2 Hge). congruence. }
    subst b2. exists n, b'. split; [done|]. split; [unfold FUEL; lia|].
    split; [done|]. split; [done|]. split; [|done].
    intros j Hj. destruct (decide (j = n + 1)%nat) as [-> | Hjn].
    + by apply cell_at_on_board in Hend.
    + specialize (Hrun j ltac:(lia)). by apply cell_at_on_board in Hrun.
Qed.

Lemma board_accesses_in_bounds_witness :
  well_shaped initial_board = true /\
  ray_cast initial_board 2 3 (1, 0) 1 <> Err OutOfBounds /\
  ray_cast initial_board 2 3 (1, 0) 1 = Ret true /\
  exists (n : nat) (b' : board),
    captures initial_board 2 3 (1, 0) 1 n /\
    flip_loop FUEL initial_board (2 + 1) (3 + 0) (1, 0) 1 = Ret b'.
Proof.
  split; [reflexivity|]. split; [|split; [reflexivity|]].
  - apply (proj1 board_accesses_in_bounds initial_board 2 3 (1, 0) 1). reflexivity.
  - destruct (proj2 board_accesses_in_bounds initial_board 2 3 (1, 0) 1)
      as (n & b' & Hcap & _ & _ & Hfl & _);
      [reflexivity | reflexivity | apply (RAYS_elem 2); reflexivity | reflexivity |].
    exists n, b'. split; [exact Hcap | exact Hfl].
Defined.

(** C4. On every 8x8 grid of non-negative scores the two reductions of
    [select_and_step] return.  Phase 1 leaves, per row, the greatest score of
    the row and the first column that holds it; phase 2 leaves the sentinel
    (-1, -1) when no score is positive, and otherwise the row whose maximum
    is the grid-wide maximum, first among the rows that hold it, with the
    column phase 1 found for that row: the first cell in row-major order that
    holds the grid-wide maximum.  Equal scores are settled for the cell met
    first, in both phases. *)
Theorem two_phase_argmax (probs : list (list Q)) :
  well_shaped probs = true -> nonneg probs = true ->
  exists sh, select_action probs = Ret sh /\
    (forall tx, 0 <= tx < 8 -> exists m i,
       row_max sh !! Z.to_nat tx = Some m /\ row_max_idx sh !! Z.to_nat tx = Some i /\
       row_argmax probs tx m i /\
       (* ties within a row *)
       (forall k w, cell_at probs tx k = Some w -> (w == m)%Q -> i <= k)) /\
    ((actions sh = [-1; -1] /\
      forall x y v, cell_at probs x y = Some v -> ~ (0 < v)%Q) \/
     (exists ax ay M, actions sh = [ax; ay] /\ 0 <= ax < 8 /\
        row_max sh !! Z.to_nat ax = Some M /\ row_max_idx sh !! Z.to_nat ax = Some ay /\
        (0 < M)%Q /\
        (forall tx m, 0 <= tx < 8 -> row_max sh !! Z.to_nat tx = Some m -> (m <= M)%Q) /\
        (* ties between row maxima *)
        (forall tx m, 0 <= tx < 8 -> row_max sh !! Z.to_nat tx = Some m ->
           (m == M)%Q -> ax <= tx) /\
        grid_argmax probs ax ay /\
        (* ties in the grid *)
        (forall x y v, cell_at probs x y = Some v -> (v == M)%Q ->
           ax < x \/ (ax = x /\ ay <= y)))).
Proof.
  intros Hs Hn. destruct (select_action_spec probs Hs Hn) as (sh & Hrun & Hrows & Hcase).
  exists sh. split; [done|]. split.
  - intros tx Htx. destruct (Hrows tx Htx) as (m & i & Hm & Hi & Hrow).
    exists m, i. do 3 (split; [done|]). intros k w Hc Heq.
    destruct Hrow as (_ & _ & _ & Hfirst).
    destruct (Z.le_gt_cases i k) as [? | Hlt]; [done|].
    pose proof (Hfirst k w Hlt Hc). lra.
  - destruct Hcase as [[Hact Hzero] | (ax & ay & M & Hact & Hax & HM & Hay & Hpos & Hall & Hfirst & Harg)].
    + left. split; [done|]. intros x y v Hc Hv. pose proof (Hzero x y v Hc). lra.
    + right. exists ax, ay, M. do 6 (split; [done|]). split; [|split; [done|]].
      * intros tx m Htx Hm Heq. destruct (Z.le_gt_cases ax tx) as [? | Hlt]; [done|].
        pose proof (Hfirst tx m ltac:(lia) Hm). lra.
      * intros x y v Hc Heq.
        destruct Harg as (_ & M' & HM' & _ & _ & Hbefore).
        destruct (Hrows ax Hax) as (m & i & Hm & Hi & (_ & (w & Hw & Hwm) & _)).
        assert (m = M) by congruence. assert (i = ay) by congruence. subst m i.
        assert (w = M') by congruence. subst w.
        destruct (Z.lt_trichotomy ax x) as [? | [<- | Hgt]]; [by left | |].
        -- destruct (Z.le_gt_cases ay y) as [? | Hlt]; [by right|].
           pose proof (Hbefore ax y v (or_intror (conj eq_refl Hlt)) Hc). lra.
        -- pose proof (Hbefore x y v (or_introl Hgt) Hc). lra.
Qed.

Lemma two_phase_argmax_witness :
  exists sh,
    select_action [ [0; 0; 0; 0; 0; 0; 0; 0]; [0; 0; 1#2; 0; 1#2; 0; 0; 0];
                    [0; 0; 0; 0; 0; 0; 0; 0]; [0; 1#2; 0; 0; 0; 0; 0; 0];
                    [0; 0; 0; 0; 0; 0; 0; 0]; [0; 0; 0; 0; 0; 0; 0; 0];
                    [0; 0; 0; 0; 0; 0; 0; 0]; [0; 0; 0; 0; 0; 0; 0; 0] ]%Q = Ret sh /\
    actions sh = [1; 2].
Proof.
  destruct (two_phase_argmax
              [ [0; 0; 0; 0; 0; 0; 0; 0]; [0; 0; 1#2; 0; 1#2; 0; 0; 0];
                [0; 0; 0; 0; 0; 0; 0; 0]; [0; 1#2; 0; 0; 0; 0; 0; 0];
                [0; 0; 0; 0; 0; 0; 0; 0]; [0; 0; 0; 0; 0; 0; 0; 0];
                [0; 0; 0; 0; 0; 0; 0; 0]; [0; 0; 0; 0; 0; 0; 0; 0] ]%Q)
    as (sh & Hrun & _); [reflexivity | reflexivity |].
  exists sh. split; [exact Hrun|].
  vm_compute in Hrun. injection Hrun as <-. reflexivity.
Defined.

(** C5. For every game whose score grid is all zeros, the launch of
    [select_and_step] leaves the board of the game as it was and sets the
    flag of the mover in the status row of the game to 1 (passed); the block
    of the game does nothing else. *)
Theorem no_move_passes `{RandomSource} (player : Z) (d : device) (g : nat)
    (probs : list (list Q)) (b : board) (st : list Z) :
  is_player player = true -> select_ready d = true ->
  action_probs d !! g = Some probs -> boards d !! g = Some b ->
  player_status d !! g = Some st ->
  (forall x y v, cell_at probs x y = Some v -> (v == 0)%Q) ->
  select_and_step_block player probs (b, st) =
    Ret (b, <[Z.to_nat (player - 1) := 1]> st) /\
  exists d',
    select_and_step player d = Ret d' /\
    boards d' !! g = Some b /\
    player_status d' !! g = Some (<[Z.to_nat (player - 1) := 1]> st).
Proof.
  intros Hp Hready Hprobs Hb Hst Hzero.
  pose proof (lookup_lt_Some _ _ _ Hb) as Hg.
  assert (Hlt : (g < N_GAMES)%nat).
  { unfold select_ready in Hready. rewrite !andb_true_iff, !Nat.eqb_eq in Hready. lia. }
  destruct (select_ready_game d g Hready Hlt)
    as (probs' & b' & st' & Hprobs' & Hb' & Hst' & Hs & Hn & Hv & Hl).
  assert (probs' = probs) by congruence. assert (b' = b) by congruence.
  assert (st' = st) by congruence. subst.
  destruct (select_and_step_block_spec player probs b st Hs Hn Hv Hp Hl)
    as (sh & b2 & st2 & _ & Hblock & _ & _ & Hcase).
  assert (Hres : select_and_step_block player probs (b, st) =
                 Ret (b, <[Z.to_nat (player - 1) := 1]> st)).
  { destruct Hcase as [(_ & _ & -> & ->) | (ax & ay & _ & Harg & _)]; [done|].
    destruct Harg as (_ & M & HM & Hpos & _). pose proof (Hzero ax ay M HM). lra. }
  split; [done|].
  destruct (select_and_step_games player d Hp Hready) as (d' & Hrun & _ & _ & Hgames).
  destruct (Hgames g probs b st Hprobs Hb Hst) as (b3 & st3 & Hblock3 & Hb3 & Hst3).
  rewrite Hres in Hblock3. injection Hblock3 as <- <-.
  exists d'. done.
Qed.

Lemma no_move_passes_witness :
  select_ready zero_scores_device = true /\
  exists d',
    select_and_step 1 zero_scores_device = Ret d' /\
    boards d' !! 0%nat = Some initial_board /\
    player_status d' !! 0%nat = Some [1; 0].
Proof.
  split; [reflexivity|].
  destruct (no_move_passes 1 zero_scores_device 0 (replicate 8 (replicate 8 0%Q))
              initial_board [0; 0])
    as (_ & d' & Hrun & Hb & Hst);
    [reflexivity | reflexivity | reflexivity | reflexivity | reflexivity | |].
  - intros x y v Hc. unfold cell_at in Hc.
    destruct ((0 <=? x) && (x <? 8) && (0 <=? y) && (y <? 8)); [|discriminate].
    destruct (Z.to_nat x) as [|[|[|[|[|[|[|[|]]]]]]]]; try discriminate;
      destruct (Z.to_nat y) as [|[|[|[|[|[|[|[|]]]]]]]]; try discriminate;
      injection Hc as <-; reflexivity.
  - exists d'. split; [exact Hrun|]. split; [exact Hb | exact Hst].
Defined.

(** C3. For every game in which [select_and_step] selects a cell, after the
    launch the selected cell holds the token of the mover; along every ray
    of the table on which [ray_cast] holds from the selected cell, the
    opposing tokens strictly between the selected cell and the token of the
    mover that ends the line are turned into tokens of the mover; every
    other cell of the board is as before; the flag of the mover is 0
    (played); and the block of the game changes the board and the status row
    of no other game. *)
Theorem select_and_step_applies_move `{RandomSource} (player : Z) (d : device)
    (g : nat) (probs : list (list Q)) (b : board) (st : list Z) (sh : shared)
    (ax ay : Z) :
  is_player player = true -> select_ready d = true ->
  action_probs d !! g = Some probs -> boards d !! g = Some b ->
  player_status d !! g = Some st ->
  select_action probs = Ret sh -> actions sh = [ax; ay] -> ax <> -1 ->
  exists (d' : device) (b' : board),
    select_and_step player d = Ret d' /\
    boards d' !! g = Some b' /\
    player_status d' !! g = Some (<[Z.to_nat (player - 1) := 0]> st) /\
    cell_at b' ax ay = Some player /\
    (forall r, r ∈ RAYS -> ray_cast b ax ay r player = Ret true ->
       exists n : nat, captures b ax ay r player n /\
         forall j : nat, (1 <= j <= n)%nat ->
           cell_at b (ax + Z.of_nat j * r.1) (ay + Z.of_nat j * r.2) = Some (3 - player) /\
           cell_at b' (ax + Z.of_nat j * r.1) (ay + Z.of_nat j * r.2) = Some player) /\
    (forall x y, ~ (x = ax /\ y = ay) ->
       (forall r n, r ∈ RAYS -> captures b ax ay r player n ->
          between ax ay r n x y = false) ->
       cell_at b' x y = cell_at b x y) /\
    (exists d1 : device,
       select_and_step_at player (Z.of_nat g) d = Ret d1 /\
       boards d1 !! g = Some b' /\
       forall g', g' <> g ->
         boards d1 !! g' = boards d !! g' /\
         player_status d1 !! g' = player_status d !! g').
Proof.
  intros Hp Hready Hprobs Hb Hst Hsel Hact Hax.
  pose proof (lookup_lt_Some _ _ _ Hb) as Hg.
  assert (Hlt : (g < N_GAMES)%nat).
  { unfold select_ready in Hready. rewrite !andb_true_iff, !Nat.eqb_eq in Hready. lia. }
  destruct (select_ready_game d g Hready Hlt)
    as (probs' & b0 & st0 & Hprobs' & Hb0 & Hst0 & Hs & Hn & Hv & Hl).
  assert (probs' = probs) by congruence. assert (b0 = b) by congruence.
  assert (st0 = st) by congruence. subst.
  destruct (select_and_step_block_spec player probs b st Hs Hn Hv Hp Hl)
    as (sh' & b' & st' & Hsel' & Hblock & Hv' & Hl' & Hcase).
  assert (sh' = sh) by congruence. subst sh'.
  destruct Hcase as [(Hnone & _) | (ax' & ay' & Hact' & Harg & -> & Horig & Hturned & Hkept)];
    [congruence|].
  assert (ax' = ax) by congruence. assert (ay' = ay) by congruence. subst ax' ay'.
  destruct (select_and_step_games player d Hp Hready) as (d' & Hrun & _ & _ & Hgames).
  destruct (Hgames g probs b st Hprobs Hb Hst) as (b2 & st2 & Hblock2 & Hb2 & Hst2).
  rewrite Hblock in Hblock2. injection Hblock2 as <- <-.
  exists d', b'. do 4 (split; [done|]). split; [|split; [done|]].
  - intros r Hr Hhit.
    destruct (ray_cast_spec b ax ay r player Hv Hp Hr) as (h & Hrc & Hh).
    rewrite Hrc in Hhit. injection Hhit as ->.
    destruct (proj1 Hh eq_refl) as (n & Hcap). exists n. split; [done|].
    intros j Hj. split; [destruct Hcap as (_ & Hrun' & _); by apply Hrun'|].
    apply (Hturned r n); [done | done |]. apply between_spec. by exists j.
  - destruct (select_and_step_at_spec player g d probs b st)
      as (b3 & st3 & Hblock3 & _ & _ & Hat); try done.
    rewrite Hblock in Hblock3. injection Hblock3 as <- <-.
    eexists. split; [exact Hat|]. split.
    + cbn [boards]. by rewrite list_lookup_insert_eq.
    + by apply (select_and_step_at_frame player g d).
Qed.

Lemma select_and_step_applies_move_witness :
  select_ready move_device = true /\
  exists (d' : @device lcg_source) (b' : board),
    select_and_step 1 move_device = Ret d' /\
    boards d' !! 0%nat = Some b' /\
    cell_at b' 2 3 = Some 1 /\
    cell_at b' (2 + Z.of_nat 1 * 1) (3 + Z.of_nat 1 * 0) = Some 1.
Proof.
  split; [reflexivity|].
  destruct (select_and_step_applies_move 1 move_device 0 move_grid initial_board [0; 0]
              move_shared 2 3)
    as (d' & b' & Hrun & Hb & _ & Horig & Hflip & _);
    [reflexivity | reflexivity | reflexivity | reflexivity | reflexivity
    | reflexivity | reflexivity | discriminate |].
  exists d', b'. split; [exact Hrun|]. split; [exact Hb|]. split; [exact Horig|].
  destruct (Hflip (1, 0)) as (n & Hcap & Hturn);
    [apply (RAYS_elem 2); reflexivity | reflexivity |].
  destruct Hcap as (Hn & _). exact (proj2 (Hturn 1%nat (conj (le_n 1) Hn))).
Defined.

(** ** Draws are not handed out twice *)

Lemma draws_before_distinct bs player (l : list thread) (t t' : thread) :
  t ∈ l -> t' ∈ l -> t <> t' -> slot t = slot t' ->
  draws bs player t = true -> draws bs player t' = true ->
  draws_before bs player l t <> draws_before bs player l t'.
Proof.
  intros Ht Ht' Hne Hslot Hd Hd'. induction l as [|a l IH]; [by apply elem_of_nil in Ht|].
  cbn [draws_before].
  destruct (decide (a = t)) as [Hat | Hat], (decide (a = t')) as [Hat' | Hat'];
    [congruence | subst a | subst a |].
  - destruct (bool_decide_reflect (slot t = slot t')); [|done]. rewrite Hd. cbn. lia.
  - destruct (bool_decide_reflect (slot t' = slot t)); [|congruence]. rewrite Hd'. cbn. lia.
  - apply elem_of_cons in Ht as [? | Ht]; [congruence|].
    apply elem_of_cons in Ht' as [? | Ht']; [congruence|].
    specialize (IH Ht Ht'). rewrite <- Hslot. lia.
Qed.

Lemma legal_spec b player x y :
  valid_board b = true -> is_player player = true ->
  legal b player x y = true <->
  cell_at b x y = Some 0 /\ exists r, r ∈ RAYS /\ ray_cast b x y r player = Ret true.
Proof.
  intros Hv Hp. unfold legal. rewrite <- (has_capture_spec b x y player Hv Hp).
  destruct (cell_at b x y) as [v|]; [|split; [done | intros [? _]; done]].
  rewrite andb_true_iff, Z.eqb_eq. split; [intros [-> ?]; done | intros [[= ->] ?]; done].
Qed.

(** X1. Whatever the order of the threads, [find_actions] returns and
    leaves the boards and the flags as they were.  It writes the score 0 at
    an occupied cell and at an empty cell from which no ray hits, and a
    score strictly between 0 and 1 at an empty cell from which some ray
    hits: a score is positive exactly at the legal moves of the mover.  A
    thread at an occupied cell writes its 0 whatever the ray table holds: no
    ray is cast there. *)
Theorem find_actions_zero_or_positive `{R : RandomSource} {U : UniformOpen R}
    (player : Z) (sched : list thread) (d : device) :
  is_player player = true -> schedule sched -> find_ready d = true ->
  exists d',
    find_actions sched player d = Ret d' /\
    boards d' = boards d /\ player_status d' = player_status d /\
    (forall (g : nat) (tx ty : Z) (b : board),
       boards d !! g = Some b -> on_board tx ty ->
       exists v, score_of (action_probs d') (Z.of_nat g, tx, ty) = Some v /\
         (cell_at b tx ty <> Some 0 -> v = 0%Q) /\
         (cell_at b tx ty = Some 0 ->
          (forall r, r ∈ RAYS -> ray_cast b tx ty r player <> Ret true) -> v = 0%Q) /\
         (cell_at b tx ty = Some 0 ->
          (exists r, r ∈ RAYS /\ ray_cast b tx ty r player = Ret true) ->
          (0 < v /\ v < 1)%Q) /\
         ((0 < v)%Q <->
          cell_at b tx ty = Some 0 /\
          exists r, r ∈ RAYS /\ ray_cast b tx ty r player = Ret true)) /\
    (forall (rays : list ray) (g : nat) (tx ty : Z) (b : board) (w : Z),
       boards d !! g = Some b -> cell_at b tx ty = Some w -> w <> 0 ->
       find_actions_thread rays player (Z.of_nat g, tx, ty) d =
         let* ap := wr3 (action_probs d) (Z.of_nat g) tx ty 0%Q in
         Ret (Device _ (boards d) (player_status d) (rng_states d) ap)).
Proof.
  intros Hp Hsched Hready.
  destruct (find_actions_spec player sched d Hp Hsched Hready)
    as (d' & Hrun & Hb' & Hs' & _ & _ & Hscores).
  pose proof Hready as (Hlb & Hvb & _ & _ & Hlr)%find_ready_spec.
  exists d'. do 3 (split; [done|]). split.
  - intros g tx ty b Hb Hxy. pose proof (lookup_lt_Some _ _ _ Hb) as Hg.
    pose proof (Forall_lookup_1 _ _ _ _ Hvb Hb) as Hv. cbn beta in Hv.
    destruct (Hscores (Z.of_nat g, tx, ty)) as (Hexp & v & Hv' & Hyes & Hno).
    { split; [lia | done]. }
    assert (Hdraws : draws (boards d) player (Z.of_nat g, tx, ty) = legal b player tx ty).
    { unfold draws. by rewrite Nat2Z.id, Hb. }
    rewrite Hdraws in Hyes, Hno.
    pose proof (legal_spec b player tx ty Hv Hp) as Hlegal.
    exists v. split; [done|]. split; [|split; [|split]].
    + intros Hocc. apply Hno. apply not_true_iff_false. intros [? _]%Hlegal. done.
    + intros _ Hnone. apply Hno. apply not_true_iff_false.
      intros [_ (r & Hr & Hrc)]%Hlegal. by apply (Hnone r).
    + intros Hempty Hsome. apply Hyes. by apply Hlegal.
    + split.
      * intros Hpos. apply Hlegal. destruct (legal b player tx ty); [done|].
        rewrite Hno in Hpos by done. lra.
      * intros Hl%Hlegal. by apply Hyes.
  - intros rays g tx ty b w Hb Hc Hw.
    pose proof (cell_at_on_board _ _ _ _ Hc) as Hxy.
    unfold find_actions_thread, rd3.
    assert (rd (boards d) (Z.of_nat g) = Ret b) as ->
      by (apply rd_Ret; rewrite Nat2Z.id; split; [lia | done]).
    cbn [bind]. apply rd2_cell_at in Hc; [|done]. rewrite Hc. cbn [bind].
    destruct (Z.eqb_spec w 0); [done|]. done.
Qed.

Lemma find_actions_zero_or_positive_witness :
  find_ready (init device0 initial_board) = true /\
  exists d' : @device lcg_source,
    find_actions (row_major 0) 1 (init device0 initial_board) = Ret d' /\
    boards d' = boards (init device0 initial_board).
Proof.
  split; [reflexivity|].
  destruct (@find_actions_zero_or_positive lcg_source lcg_open 1 (row_major 0)
              (init device0 initial_board))
    as (d' & Hrun & Hb & _); [reflexivity | apply row_major_schedule | reflexivity |].
  exists d'. split; [exact Hrun | exact Hb].
Defined.

(** ** Two threads of a row and their stream *)

(** The generator is the load followed by the store. *)
Lemma draw_split `{RandomSource} (states : list rng_state) (index : Z) :
  xoroshiro128p_uniform_float32 states index =
    let* s := load_stream states index in store_stream states index s.
Proof. reflexivity. Qed.

(** A thread that runs alone is its two halves, one after the other. *)
Lemma find_actions_thread_split `{RandomSource} (rays : list ray) (player : Z)
    (t : thread) (d : device) :
  find_actions_thread rays player t d =
    let* l := find_actions_load rays player t d in find_actions_store t l d.
Proof.
  destruct t as [[bx tx] ty].
  unfold find_actions_thread, find_actions_load, find_actions_store.
  destruct (rd3 (boards d) bx tx ty) as [v|e]; [|done]. cbn [bind].
  destruct (negb (v =? 0)); [done|].
  destruct (rd (boards d) bx) as [b|e]; [|done]. cbn [bind].
  destruct (find_hit b tx ty rays player range8) as [[|]|e]; [| done | done]. cbn [bind].
  rewrite draw_split. by destruct (load_stream (rng_states d) (tx + bx * 8)).
Qed.

Lemma legal_cell b player x y :
  legal b player x y = true ->
  on_board x y /\ cell_at b x y = Some 0 /\ has_capture b x y player = true.
Proof.
  unfold legal. destruct (cell_at b x y) as [v|] eqn:Hc; [|done].
  intros [->%Z.eqb_eq Hcap]%andb_true_iff. split; [|done].
  by apply cell_at_on_board in Hc.
Qed.

(** At a legal move the first half of the thread loads the state of the
    stream of its row. *)
Lemma find_actions_load_legal `{RandomSource} (player : Z) (d : device) (g : nat)
    (b : board) (tx ty : Z) (s : rng_state) :
  is_player player = true -> valid_board b = true -> boards d !! g = Some b ->
  legal b player tx ty = true ->
  rng_states d !! Z.to_nat (tx + Z.of_nat g * 8) = Some s ->
  find_actions_load RAYS player (Z.of_nat g, tx, ty) d = Ret (Some s).
Proof.
  intros Hp Hv Hb (Hxy & Hc & Hcap)%legal_cell Hs.
  unfold find_actions_load, rd3, load_stream.
  assert (rd (boards d) (Z.of_nat g) = Ret b) as ->
    by (apply rd_Ret; rewrite Nat2Z.id; split; [lia | done]).
  cbn [bind]. apply rd2_cell_at in Hc; [|done]. rewrite Hc. cbn [bind Z.eqb negb].
  rewrite (find_hit_spec b tx ty player Hv Hp), Hcap. cbn [bind].
  assert (rd (rng_states d) (tx + Z.of_nat g * 8) = Ret s) as ->
    by (apply rd_Ret; split; [unfold on_board in Hxy; lia | done]).
  done.
Qed.

(** The second half of the thread stores the next state and the draw. *)
Lemma find_actions_store_loaded `{RandomSource} (d : device) (g : nat)
    (probs : list (list Q)) (tx ty : Z) (s : rng_state) :
  action_probs d !! g = Some probs -> well_shaped probs = true -> on_board tx ty ->
  (Z.to_nat (tx + Z.of_nat g * 8) < length (rng_states d))%nat ->
  exists probs',
    find_actions_store (Z.of_nat g, tx, ty) (Some s) d =
      Ret (Device _ (boards d) (player_status d)
                  (<[Z.to_nat (tx + Z.of_nat g * 8) := advance s]> (rng_states d))
                  (<[g := probs']> (action_probs d))) /\
    well_shaped probs' = true /\
    forall x y, cell_at probs' x y =
      if decide (x = tx /\ y = ty) then Some (next_uniform s).1 else cell_at probs x y.
Proof.
  intros Hap Hs Hxy Hlt. unfold find_actions_store, store_stream.
  rewrite wr_in_range by (unfold on_board in Hxy; lia). cbn [bind].
  destruct (wr3_spec (action_probs d) (Z.of_nat g) tx ty (next_uniform s).1 probs)
    as (probs' & Hwr & Hs' & Hcells); [lia | by rewrite Nat2Z.id | done | done |].
  rewrite Hwr. cbn [bind]. rewrite Nat2Z.id. by exists probs'.
Qed.

(** C2 fails on the code.  The scores 0 are as the claim says, but the
    draws are not fresh.  Two threads of a row draw from the same stream,
    [cuda.grid(1)] being the same for them, with a plain load and a plain
    store of its state.  When both have loaded the state before either
    stores the next one, as two threads of a warp do, both cells of the row
    receive the same draw, and the stream advances by one step only. *)
Theorem find_actions_same_draw `{RandomSource} (player : Z) (d : device) (g : nat)
    (b : board) (tx ty ty' : Z) :
  is_player player = true -> find_ready d = true -> boards d !! g = Some b ->
  legal b player tx ty = true -> legal b player tx ty' = true -> ty <> ty' ->
  exists (s : rng_state) (d' : device),
    rng_states d !! Z.to_nat (tx + Z.of_nat g * 8) = Some s /\
    (let* l := find_actions_load RAYS player (Z.of_nat g, tx, ty) d in
     let* l' := find_actions_load RAYS player (Z.of_nat g, tx, ty') d in
     let* d1 := find_actions_store (Z.of_nat g, tx, ty) l d in
     find_actions_store (Z.of_nat g, tx, ty') l' d1) = Ret d' /\
    score_of (action_probs d') (Z.of_nat g, tx, ty) = Some (next_uniform s).1 /\
    score_of (action_probs d') (Z.of_nat g, tx, ty') = Some (next_uniform s).1 /\
    rng_states d' = <[Z.to_nat (tx + Z.of_nat g * 8) := advance s]> (rng_states d) /\
    boards d' = boards d.
Proof.
  intros Hp Hready Hb Hl Hl' Hne.
  pose proof Hready as (Hlb & Hvb & Hla & Hsa & Hlr)%find_ready_spec.
  pose proof (Forall_lookup_1 _ _ _ _ Hvb Hb) as Hv. cbn beta in Hv.
  pose proof (lookup_lt_Some _ _ _ Hb) as Hg.
  pose proof Hl as (Hxy & _)%legal_cell. pose proof Hl' as (Hxy' & _)%legal_cell.
  assert (Hidx : (Z.to_nat (tx + Z.of_nat g * 8) < length (rng_states d))%nat)
    by (unfold on_board, N_GAMES in *; lia).
  destruct (lookup_lt_is_Some_2 (rng_states d) _ Hidx) as [s Hs].
  destruct (lookup_lt_is_Some_2 (action_probs d) g) as [probs Hprobs]; [lia|].
  pose proof (Forall_lookup_1 _ _ _ _ Hsa Hprobs) as Hshape. cbn beta in Hshape.
  rewrite (find_actions_load_legal player d g b tx ty s Hp Hv Hb Hl Hs).
  rewrite (find_actions_load_legal player d g b tx ty' s Hp Hv Hb Hl' Hs). cbn [bind].
  destruct (find_actions_store_loaded d g probs tx ty s Hprobs Hshape Hxy Hidx)
    as (probs1 & -> & Hshape1 & Hcells1). cbn [bind].
  set (d1 := Device _ (boards d) (player_status d)
               (<[Z.to_nat (tx + Z.of_nat g * 8) := advance s]> (rng_states d))
               (<[g := probs1]> (action_probs d))).
  destruct (find_actions_store_loaded d1 g probs1 tx ty' s)
    as (probs2 & -> & Hshape2 & Hcells2); [| done | done | |].
  { unfold d1. cbn [action_probs]. apply list_lookup_insert_eq. lia. }
  { unfold d1. cbn [rng_states]. by rewrite length_insert. }
  exists s. eexists. split; [done|]. split; [done|].
  unfold d1. cbn [action_probs rng_states boards player_status].
  rewrite !list_insert_insert_eq.
  assert (Hscore : forall y, score_of (<[g := probs2]> (action_probs d)) (Z.of_nat g, tx, y)
                             = cell_at probs2 tx y).
  { intros y. unfold score_of. destruct (Z.ltb_spec (Z.of_nat g) 0); [lia|].
    rewrite Nat2Z.id, list_lookup_insert_eq by lia. done. }
  split; [|split; [|done]].
  - rewrite Hscore, Hcells2, Hcells1.
    destruct (decide (tx = tx /\ ty = ty')) as [[_ ?] | _]; [done|].
    destruct (decide (tx = tx /\ ty = ty)) as [_ | Hn]; [done | by destruct Hn].
  - rewrite Hscore, Hcells2.
    destruct (decide (tx = tx /\ ty' = ty')) as [_ | Hn]; [done | by destruct Hn].
Qed.

Lemma find_actions_same_draw_witness :
  legal race_board 1 0 0 = true /\ legal race_board 1 0 3 = true /\
  exists d' : @device lcg_source,
    (let* l := find_actions_load RAYS 1 (Z.of_nat 0, 0, 0) (init device0 race_board) in
     let* l' := find_actions_load RAYS 1 (Z.of_nat 0, 0, 3) (init device0 race_board) in
     let* d1 := find_actions_store (Z.of_nat 0, 0, 0) l (init device0 race_board) in
     find_actions_store (Z.of_nat 0, 0, 3) l' d1) = Ret d' /\
    score_of (action_probs d') (Z.of_nat 0, 0, 0) =
      score_of (action_probs d') (Z.of_nat 0, 0, 3).
Proof.
  split; [reflexivity|]. split; [reflexivity|].
  destruct (@find_actions_same_draw lcg_source 1 (init device0 race_board) 0 race_board
              0 0 3)
    as (s & d' & _ & Hrun & H0 & H3 & _);
    [reflexivity | reflexivity | reflexivity | reflexivity | reflexivity | discriminate |].
  exists d'. split; [exact Hrun|]. exact (eq_trans H0 (eq_sym H3)).
Defined.

(** ** The driver *)

(** On an 8x8 board the copies of Init are accepted. *)
Lemma rollout_run_shaped `{RandomSource} (fuel : nat) (sched : nat -> list thread)
    (d : device) (board0 : board) (planner : Z) :
  well_shaped board0 = true ->
  rollout_run fuel sched d board0 planner =
    rollout_loop fuel sched 0 planner (init d board0).
Proof. intros Hs. unfold rollout_run, to_device_check. by rewrite Hs. Qed.

Lemma rollout_run_terminates `{R : RandomSource} {U : UniformOpen R}
    (fuel : nat) (sched : nat -> list thread) (d : device) (board0 : board) (planner : Z) :
  (forall k, schedule (sched k)) -> valid_board board0 = true ->
  globals_ready d = true -> is_player planner = true ->
  (2 * count_empty board0 + 2 < fuel)%nat ->
  exists d' k,
    rollout_run fuel sched d board0 planner = Ret (d', k) /\
    (k <= 2 * count_empty board0 + 2)%nat /\
    find_ready d' = true /\
    (sum_status (player_status d') <? 2 * Z.of_nat N_GAMES) = false /\
    forall (g : nat) b', boards d' !! g = Some b' ->
      (count_empty b' <= count_empty board0)%nat.
Proof.
  intros Hsched Hv Hg Hp Hfuel.
  destruct (rollout_loop_terminates sched Hsched (2 * count_empty board0 + 2) fuel 0
              planner (init d board0) Hp (init_inv d board0 planner Hv Hg Hp) Hfuel)
    as (d' & k & Hloop & Hk & Hready & _ & Hexit & Hmono).
  exists d', k. split; [by rewrite rollout_run_shaped by (by apply valid_board_shape)|]. split; [lia|]. do 2 (split; [done|]).
  intros g b' Hb'. apply (Hmono g board0 b'); [|done].
  unfold init. cbn [boards]. apply lookup_replicate. split; [done|].
  apply lookup_lt_Some in Hb'. apply find_ready_spec in Hready as (Hlb & _). lia.
Qed.

(** C8. At finalization the driver counts the tokens of each player on the
    final board of every game: the player with strictly more tokens wins the
    game, equal counts are a draw (0).  [rollout] returns one outcome per
    game, each 0, 1 or 2. *)
Theorem rollout_outcomes `{R : RandomSource} {U : UniformOpen R}
    (fuel : nat) (sched : nat -> list thread) (d : device) (board0 : board) (planner : Z) :
  (forall k, schedule (sched k)) -> valid_board board0 = true ->
  globals_ready d = true -> is_player planner = true ->
  (2 * count_empty board0 + 2 < fuel)%nat ->
  exists (w : list Z) (d' : device),
    rollout fuel sched d board0 planner = Ret (w, d') /\
    finalize (boards d') = Ret w /\
    length w = N_GAMES /\
    forall g : nat, (g < N_GAMES)%nat ->
      exists (b : board) (o : Z),
        boards d' !! g = Some b /\ w !! g = Some o /\
        (tokens b 2 < tokens b 1 -> o = 1) /\
        (tokens b 1 < tokens b 2 -> o = 2) /\
        (tokens b 1 = tokens b 2 -> o = 0) /\
        (o = 0 \/ o = 1 \/ o = 2).
Proof.
  intros Hsched Hv Hg Hp Hfuel.
  destruct (rollout_run_terminates fuel sched d board0 planner Hsched Hv Hg Hp Hfuel)
    as (d' & k & Hrun & _ & Hready & _).
  pose proof Hready as (Hlb & Hvb & _)%find_ready_spec.
  pose proof (finalize_valid (boards d') Hvb) as Hfin.
  exists (outcome <$> boards d'), d'. split; [|split; [done|split]].
  - unfold rollout. rewrite Hrun. cbn [bind]. rewrite Hfin. done.
  - by rewrite length_fmap.
  - intros g Hlt. destruct (lookup_lt_is_Some_2 (boards d') g) as [b Hb]; [lia|].
    exists b, (outcome b). split; [done|]. split; [by rewrite list_lookup_fmap, Hb|].
    unfold outcome.
    destruct (Z.eqb_spec (tokens b 1) (tokens b 2)), (Z.ltb_spec (tokens b 1) (tokens b 2));
      repeat split; intros; try lia; auto.
Qed.

Lemma rollout_outcomes_witness :
  valid_board initial_board = true /\
  exists (w : list Z) (d' : @device lcg_source),
    rollout 200 row_major device0 initial_board 1 = Ret (w, d') /\ length w = N_GAMES.
Proof.
  split; [reflexivity|].
  destruct (@rollout_outcomes lcg_source lcg_open 200 row_major device0 initial_board 1)
    as (w & d' & Hrun & _ & Hlen & _);
    [apply row_major_schedule | reflexivity | reflexivity | reflexivity
    | apply Nat.ltb_lt; reflexivity |].
  exists w, d'. split; [exact Hrun | exact Hlen].
Defined.

Lemma pass_turn_checked : pass_turn_check = true.
Proof. vm_compute. reflexivity. Qed.

(** C6, as stated, fails.  On [pass_board] player 1 has no move and player
    2 has one: the turn of player 1 leaves the total count of empty cells as
    it was, although no game has both flags set.  And from the initial
    layout, with [lcg_source] and the row-major schedule, the loop of
    [rollout] takes more than 60 turns: the moves that fill the boards, the
    passes on the way, and two turns of passes that set both flags. *)
Lemma rollout_turns_counterexample :
  (exists d' : @device lcg_source,
     turn (row_major 0) 1 (init device0 pass_board) = Ret d' /\
     total_empty (boards d') = total_empty (boards (init device0 pass_board)) /\
     has_move pass_board 2 = true /\
     sum_status (player_status d') < 2 * Z.of_nat N_GAMES) /\
  match rollout_run 200 row_major device0 initial_board 1 with
  | Ret (_, k) => (60 <? k)%nat
  | Err _ => false
  end = true.
Proof.
  split.
  - pose proof pass_turn_checked as Hc. unfold pass_turn_check in Hc.
    destruct (turn (row_major 0) 1 (init device0 pass_board)) as [d'|e]; [|discriminate].
    apply andb_true_iff in Hc as [[He%Nat.eqb_eq Hm]%andb_true_iff Hs%Z.ltb_lt].
    exists d'. split; [reflexivity|]. split; [exact He|]. split; [exact Hm | exact Hs].
  - vm_compute. reflexivity.
Qed.

(** C6, amended.  In every turn each game either moves, and its count of
    empty cells drops by exactly one and the flag of the mover is set to 0,
    or, when the mover has no legal move, passes, and its board is unchanged
    and the flag of the mover is set to 1; so no count of empty cells ever
    grows.  From a valid starting board with [E] empty cells the loop of
    [rollout] ends after at most [2 * E + 2] turns, with both flags of every
    game set. *)
Theorem rollout_turns_bound `{R : RandomSource} {U : UniformOpen R} :
  (forall (player : Z) (sched : list thread) (d : device),
     is_player player = true -> schedule sched ->
     find_ready d = true -> status_ready d = true ->
     exists d',
       turn sched player d = Ret d' /\
       forall (g : nat) (b : board) (st : list Z),
         boards d !! g = Some b -> player_status d !! g = Some st ->
         exists b',
           boards d' !! g = Some b' /\
           ((has_move b player = false /\ b' = b /\
             player_status d' !! g = Some (<[Z.to_nat (player - 1) := 1]> st)) \/
            (has_move b player = true /\ count_empty b = S (count_empty b') /\
             player_status d' !! g = Some (<[Z.to_nat (player - 1) := 0]> st)))) /\
  (forall (fuel : nat) (sched : nat -> list thread) (d : device) (board0 : board)
          (planner : Z),
     (forall k, schedule (sched k)) -> valid_board board0 = true ->
     globals_ready d = true -> is_player planner = true ->
     (2 * count_empty board0 + 2 < fuel)%nat ->
     exists (d' : device) (k : nat),
       rollout_run fuel sched d board0 planner = Ret (d', k) /\
       (k <= 2 * count_empty board0 + 2)%nat /\
       (sum_status (player_status d') <? 2 * Z.of_nat N_GAMES) = false /\
       forall (g : nat) (b' : board), boards d' !! g = Some b' ->
         (count_empty b' <= count_empty board0)%nat).
Proof.
  split.
  - intros player sched d Hp Hsched Hready Hstatus.
    destruct (turn_spec player sched d Hp Hsched Hready Hstatus) as (d' & Hturn & _ & _ & Hg).
    by exists d'.
  - intros fuel sched d board0 planner Hsched Hv Hg Hp Hfuel.
    destruct (rollout_run_terminates fuel sched d board0 planner Hsched Hv Hg Hp Hfuel)
      as (d' & k & Hrun & Hk & _ & Hexit & Hmono).
    by exists d', k.
Qed.

Lemma rollout_turns_bound_witness :
  valid_board initial_board = true /\
  exists (d' : @device lcg_source) (k : nat),
    rollout_run 200 row_major device0 initial_board 1 = Ret (d', k) /\
    (k <= 2 * count_empty initial_board + 2)%nat.
Proof.
  split; [reflexivity|].
  destruct (proj2 (@rollout_turns_bound lcg_source lcg_open) 200%nat row_major device0
              initial_board 1)
    as (d' & k & Hrun & Hk & _);
    [apply row_major_schedule | reflexivity | reflexivity | reflexivity
    | apply Nat.ltb_lt; reflexivity |].
  exists d', k. split; [exact Hrun | exact Hk].
Defined.

(** ** A board on which nobody can move *)

Lemma sum_status_replicate (n : nat) (a b : Z) :
  sum_status (replicate n [a; b]) = Z.of_nat n * (a + b).
Proof.
  unfold sum_status. induction n as [|n IH]; [done|].
  cbn [replicate concat app foldr]. rewrite IH. lia.
Qed.






(** C7 fails on the code.  The threads of the cells (0, 2) and (0, 7) of a
    game draw from the same stream, [cuda.grid(1)] being the same for the 8
    threads of a row, so the scores of the two cells depend on which thread
    runs first: with the streams in the same state, the row-major order and
    its reverse hand the first two draws of the stream to the two cells in
    opposite orders.  From [endgame_board], with the same streams, the two
    orders make [rollout] return opposite winners in every game. *)
Theorem rollout_depends_on_schedule :
  (forall (R : RandomSource) (d : @device R) (s : @rng_state R),
     find_ready d = true -> boards d = replicate N_GAMES endgame_board ->
     rng_states d !! 0%nat = Some s ->
     exists dA dB : @device R,
       find_actions (row_major 0) 1 d = Ret dA /\
       find_actions (reversed 0) 1 d = Ret dB /\
       score_of (action_probs dA) (0, 0, 2) = Some (next_uniform s).1 /\
       score_of (action_probs dA) (0, 0, 7) = Some (next_uniform (advance s)).1 /\
       score_of (action_probs dB) (0, 0, 2) = Some (next_uniform (advance s)).1 /\
       score_of (action_probs dB) (0, 0, 7) = Some (next_uniform s).1) /\
  all_differ (rollout 20 row_major device0 endgame_board 1)
             (rollout 20 reversed device0 endgame_board 1) = true.
Proof.
  split; [|vm_compute; reflexivity].
  intros R d s Hready Hb Hs.
  assert (Hg2 : in_grid N_GAMES (0, 0, 2)) by (unfold in_grid, on_board, N_GAMES; lia).
  assert (Hg7 : in_grid N_GAMES (0, 0, 7)) by (unfold in_grid, on_board, N_GAMES; lia).
  assert (Hd2 : draws (replicate N_GAMES endgame_board) 1 (0, 0, 2) = true)
    by (vm_compute; reflexivity).
  assert (Hd7 : draws (replicate N_GAMES endgame_board) 1 (0, 0, 7) = true)
    by (vm_compute; reflexivity).
  assert (HA2 : draws_before (replicate N_GAMES endgame_board) 1 (row_major 0) (0, 0, 2)
                = 0%nat) by (vm_compute; reflexivity).
  assert (HA7 : draws_before (replicate N_GAMES endgame_board) 1 (row_major 0) (0, 0, 7)
                = 1%nat) by (vm_compute; reflexivity).
  assert (HB2 : draws_before (replicate N_GAMES endgame_board) 1 (reversed 0) (0, 0, 2)
                = 1%nat) by (vm_compute; reflexivity).
  assert (HB7 : draws_before (replicate N_GAMES endgame_board) 1 (reversed 0) (0, 0, 7)
                = 0%nat) by (vm_compute; reflexivity).
  destruct (find_actions_fold 1 eq_refl (row_major 0) d
              (schedule_NoDup _ (row_major_schedule 0))
              (fun t Ht => proj1 (schedule_spec _ t (row_major_schedule 0)) Ht) Hready)
    as (dA & HrunA & _ & _ & _ & _ & _ & HinA).
  destruct (find_actions_fold 1 eq_refl (reversed 0) d
              (schedule_NoDup _ (reversed_schedule 0))
              (fun t Ht => proj1 (schedule_spec _ t (reversed_schedule 0)) Ht) Hready)
    as (dB & HrunB & _ & _ & _ & _ & _ & HinB).
  exists dA, dB. split; [exact HrunA|]. split; [exact HrunB|].
  rewrite (HinA _ (proj2 (schedule_spec _ _ (row_major_schedule 0)) Hg2)).
  rewrite (HinA _ (proj2 (schedule_spec _ _ (row_major_schedule 0)) Hg7)).
  rewrite (HinB _ (proj2 (schedule_spec _ _ (reversed_schedule 0)) Hg2)).
  rewrite (HinB _ (proj2 (schedule_spec _ _ (reversed_schedule 0)) Hg7)).
  unfold expected_score. rewrite Hb, Hd2, Hd7, HA2, HA7, HB2, HB7.
  change (Z.to_nat (slot (0, 0, 2))) with 0%nat.
  change (Z.to_nat (slot (0, 0, 7))) with 0%nat.
  rewrite Hs. cbn [Nat.iter nat_rect].
  split; [reflexivity | split; [reflexivity | split; reflexivity]].
Qed.

Lemma rollout_depends_on_schedule_witness :
  find_ready (init device0 endgame_board) = true /\
  exists dA dB : @device lcg_source,
    find_actions (row_major 0) 1 (init device0 endgame_board) = Ret dA /\
    find_actions (reversed 0) 1 (init device0 endgame_board) = Ret dB /\
    score_of (action_probs dA) (0, 0, 2) = score_of (action_probs dB) (0, 0, 7).
Proof.
  split; [reflexivity|].
  destruct (proj1 rollout_depends_on_schedule lcg_source (init device0 endgame_board) 1)
    as (dA & dB & HA & HB & HA2 & _ & _ & HB7); [reflexivity | reflexivity | reflexivity |].
  exists dA, dB. split; [exact HA|]. split; [exact HB|].
  exact (eq_trans HA2 (eq_sym HB7)).
Defined.

(** * Further properties of the kernels and the driver *)

(** ** Folds over the threads of a launch *)

Lemma bind_assoc {A B C : Type} (m : res A) (f : A -> res B) (g : B -> res C) :
  bind (bind m f) g = bind m (fun a => bind (f a) g).
Proof. by destruct m. Qed.

(** Steps that keep an invariant and commute under it can be run in any
    order. *)
Lemma foldM_perm {A S : Type} (f : A -> S -> res S) (I : S -> Prop) (P : A -> Prop) :
  (forall a s s', P a -> I s -> f a s = Ret s' -> I s') ->
  (forall a b s, P a -> P b -> a <> b -> I s ->
     bind (f a s) (f b) = bind (f b s) (f a)) ->
  forall l l' : list A, l ≡ₚ l' -> NoDup l -> Forall P l ->
  forall s, I s -> foldM f l s = foldM f l' s.
Proof.
  intros Hpres Hcomm l l' Hperm.
  induction Hperm as [|x l l' Hperm IH|x y l|l l' l'' H1 IH1 H2 IH2]; intros Hnd HP s Hs.
  - done.
  - apply NoDup_cons in Hnd as [_ Hnd]. apply Forall_cons in HP as [Hx HP].
    cbn [foldM]. destruct (f x s) as [s'|e] eqn:Hf; [|done]. cbn [bind].
    apply IH; [done | done | by apply (Hpres x s)].
  - apply NoDup_cons in Hnd as [Hy Hnd]. apply not_elem_of_cons in Hy as [Hne _].
    apply Forall_cons in HP as [Hy HP]. apply Forall_cons in HP as [Hx HP].
    cbn [foldM].
    pose proof (Hcomm y x s Hy Hx Hne Hs) as Hc.
    destruct (f y s) as [sy|ey], (f x s) as [sx|ex]; cbn [bind] in *.
    + by rewrite Hc.
    + by rewrite Hc.
    + by rewrite <- Hc.
    + done.
  - rewrite IH1 by done. apply IH2; [by rewrite <- H1 | by rewrite <- H1 | done].
Qed.

Lemma foldM_total {A S : Type} (f : A -> S -> res S) (I : S -> Prop) (P : A -> Prop) :
  (forall a s, P a -> I s -> exists s', f a s = Ret s' /\ I s') ->
  forall (l : list A) (s : S), Forall P l -> I s ->
  exists s', foldM f l s = Ret s' /\ I s'.
Proof.
  intros Hstep. induction l as [|a l IH]; intros s HP Hs; [by exists s|].
  apply Forall_cons in HP as [Ha HP].
  destruct (Hstep a s Ha Hs) as (s1 & Hf & Hs1).
  destruct (IH s1 HP Hs1) as (s' & Hfold & Hs').
  exists s'. cbn [foldM]. rewrite Hf. done.
Qed.

(** Two 8x8 arrays with the same cells are the same array. *)
Lemma grid_ext {A : Type} (b1 b2 : list (list A)) :
  well_shaped b1 = true -> well_shaped b2 = true ->
  (forall x y, on_board x y -> cell_at b1 x y = cell_at b2 x y) -> b1 = b2.
Proof.
  intros [Hl1 Hr1]%well_shaped_spec [Hl2 Hr2]%well_shaped_spec Hc.
  apply list_eq. intros i. destruct (decide (i < 8)%nat) as [Hi | Hi].
  - destruct (lookup_lt_is_Some_2 b1 i) as [r1 H1]; [lia|].
    destruct (lookup_lt_is_Some_2 b2 i) as [r2 H2]; [lia|].
    rewrite H1, H2. f_equal.
    pose proof (Forall_lookup_1 _ _ _ _ Hr1 H1) as Hlr1.
    pose proof (Forall_lookup_1 _ _ _ _ Hr2 H2) as Hlr2. cbn beta in Hlr1, Hlr2.
    apply list_eq. intros j. destruct (decide (j < 8)%nat) as [Hj | Hj].
    + assert (Hij : on_board (Z.of_nat i) (Z.of_nat j)) by (unfold on_board; lia).
      specialize (Hc _ _ Hij). rewrite !cell_at_lookup in Hc by done.
      by rewrite !Nat2Z.id, H1, H2 in Hc.
    + rewrite !lookup_ge_None_2 by lia. done.
  - rewrite !lookup_ge_None_2 by lia. done.
Qed.

(** ** The threads of a block may run in any order *)

Lemma argmax_row_returns (probs : list (list Q)) (tx : Z) :
  well_shaped probs = true -> 0 <= tx < 8 ->
  exists m i, argmax_loop (rd2 probs tx) range8 0%Q 0 = Ret (m, i).
Proof.
  intros Hs Htx.
  destruct (argmax_loop_spec (rd2 probs tx)
              (fun j => default 0%Q (cell_at probs tx j)) range8 0%Q 0)
    as (m & i & Hrun & _).
  - apply range8_sorted.
  - intros j Hj%range8_spec.
    destruct (rd2_on_board probs tx j Hs) as (v & -> & ->); [by split | done].
  - by exists m, i.
Qed.

Lemma reduce_row_step probs tx sh :
  well_shaped probs = true -> 0 <= tx < 8 ->
  length (row_max sh) = 8%nat -> length (row_max_idx sh) = 8%nat ->
  exists m i,
    argmax_loop (rd2 probs tx) range8 0%Q 0 = Ret (m, i) /\
    reduce_row probs tx sh =
      Ret (Shared (<[Z.to_nat tx := m]> (row_max sh))
                  (<[Z.to_nat tx := i]> (row_max_idx sh)) (actions sh)).
Proof.
  intros Hs Htx Hl1 Hl2. destruct (argmax_row_returns probs tx Hs Htx) as (m & i & Hrun).
  exists m, i. split; [done|]. unfold reduce_row. rewrite Hrun. cbn [bind].
  rewrite !wr_in_range by lia. done.
Qed.

(** X4. The threads of argmax reduction part 1 write to different slots of
    the shared arrays: run in any order, they leave the same row maxima. *)
Theorem reduce_row_any_order (probs : list (list Q)) (txs : list Z) :
  well_shaped probs = true -> txs ≡ₚ range8 ->
  exists sh : shared,
    foldM (reduce_row probs) range8 shared_init = Ret sh /\
    foldM (reduce_row probs) txs shared_init = Ret sh.
Proof.
  intros Hs Hperm.
  set (I := fun sh : shared =>
              length (row_max sh) = 8%nat /\ length (row_max_idx sh) = 8%nat).
  set (P := fun tx : Z => 0 <= tx < 8).
  assert (HP : Forall P range8) by (apply Forall_forall; intros tx Htx; by apply range8_spec).
  assert (HI : I shared_init) by done.
  destruct (foldM_total (reduce_row probs) I P) with (l := range8) (s := shared_init)
    as (sh & Hrun & _); [|done|done|].
  { intros tx sh0 Htx [Hl1 Hl2].
    destruct (reduce_row_step probs tx sh0 Hs Htx Hl1 Hl2) as (m & i & _ & ->).
    eexists. split; [done|]. split; cbn; by rewrite length_insert. }
  exists sh. split; [done|]. rewrite <- Hrun. symmetry.
  apply (foldM_perm (reduce_row probs) I P); try done.
  - intros tx sh0 sh1 Htx [Hl1 Hl2] Hstep.
    destruct (reduce_row_step probs tx sh0 Hs Htx Hl1 Hl2) as (m & i & _ & Heq).
    rewrite Heq in Hstep. injection Hstep as <-. split; cbn; by rewrite length_insert.
  - intros a b sh0 Ha Hb Hne [Hl1 Hl2].
    destruct (reduce_row_step probs a sh0 Hs Ha Hl1 Hl2) as (ma & ia & Hra & Hsa).
    destruct (reduce_row_step probs b sh0 Hs Hb Hl1 Hl2) as (mb & ib & Hrb & Hsb).
    rewrite Hsa, Hsb. cbn [bind].
    destruct (reduce_row_step probs b
                (Shared (<[Z.to_nat a := ma]> (row_max sh0))
                        (<[Z.to_nat a := ia]> (row_max_idx sh0)) (actions sh0)) Hs Hb)
      as (mb' & ib' & Hrb' & ->); [cbn; by rewrite length_insert ..|].
    destruct (reduce_row_step probs a
                (Shared (<[Z.to_nat b := mb]> (row_max sh0))
                        (<[Z.to_nat b := ib]> (row_max_idx sh0)) (actions sh0)) Hs Ha)
      as (ma' & ia' & Hra' & ->); [cbn; by rewrite length_insert ..|].
    assert (mb' = mb /\ ib' = ib) as [-> ->] by (split; congruence).
    assert (ma' = ma /\ ia' = ia) as [-> ->] by (split; congruence).
    cbn [row_max row_max_idx actions]. unfold P in Ha, Hb.
    f_equal. f_equal; apply list_insert_insert_ne; lia.
  - apply range8_NoDup.
Qed.

Lemma reduce_row_any_order_witness :
  exists sh : shared,
    foldM (reduce_row move_grid) range8 shared_init = Ret sh /\
    foldM (reduce_row move_grid) (rev range8) shared_init = Ret sh.
Proof.
  apply (reduce_row_any_order move_grid (rev range8));
    [reflexivity | symmetry; apply Permutation_rev].
Defined.

(** When all 8 threads have applied the action, the board is determined. *)
Lemma applied_all b0 ax ay player (P P' : list Z) (c c' : board) :
  valid_board b0 = true -> is_player player = true ->
  (forall tx, tx ∈ P <-> tx ∈ range8) -> (forall tx, tx ∈ P' <-> tx ∈ range8) ->
  applied b0 ax ay player P c -> applied b0 ax ay player P' c' -> c = c'.
Proof.
  intros Hv Hp HP HP' (Hvc & Ho & Ht & Hk) (Hvc' & Ho' & Ht' & Hk').
  assert (H0 : 0 ∈ range8) by (unfold range8; rewrite elem_of_cons; by left).
  apply grid_ext; [by apply valid_board_shape | by apply valid_board_shape |].
  intros x y _. destruct (decide (x = ax /\ y = ay)) as [[-> ->] | Hne].
  - rewrite Ho, Ho'.
    destruct (decide (0 ∈ P)) as [_ | Hn]; [|exfalso; by apply Hn, HP].
    destruct (decide (0 ∈ P')) as [_ | Hn]; [done | exfalso; by apply Hn, HP'].
  - destruct (turned_or_not b0 ax ay player x y Hv Hp) as [(r & n & Hr & Hcap & Hbt) | Hnone].
    + destruct (rays_range8 r Hr) as (tx & Hin & Htx & Hray).
      rewrite Ht, Ht'; [done | done | | done |].
      * exists tx, r, n. split; [by apply HP' | done].
      * exists tx, r, n. split; [by apply HP | done].
    + rewrite Hk, Hk'; [done | done | | done |].
      * intros (tx & r & n & _ & _ & Hray & Hcap & Hbt).
        rewrite (Hnone r n) in Hbt; [done | by apply (RAYS_lookup_elem _ _ Hray) | done].
      * intros (tx & r & n & _ & _ & Hray & Hcap & Hbt).
        rewrite (Hnone r n) in Hbt; [done | by apply (RAYS_lookup_elem _ _ Hray) | done].
Qed.

(** No move: whatever the order, only thread 0 acts. *)
Lemma apply_no_action_fold b sh player ay :
  actions sh = [-1; ay] -> is_player player = true ->
  forall (txs : list Z) (status : list Z), length status = 2%nat ->
  foldM (apply_action RAYS player sh) txs (b, status) =
    Ret (b, if decide (0 ∈ txs) then <[Z.to_nat (player - 1) := 1]> status else status).
Proof.
  intros Hact Hp.
  assert (Hstep : forall tx g, apply_action RAYS player sh tx g =
    if tx =? 0 then let* status' := wr g.2 (player - 1) 1 in Ret (g.1, status')
    else Ret g).
  { intros tx [b' st']. unfold apply_action. rewrite Hact. cbn.
    destruct (tx =? 0); done. }
  induction txs as [|tx txs IH]; intros status Hl.
  - cbn [foldM]. destruct (decide (0 ∈ [])) as [Hin | _]; [by apply elem_of_nil in Hin | done].
  - cbn [foldM]. rewrite Hstep. cbn [fst snd]. destruct (Z.eqb_spec tx 0) as [-> | Hne].
    + rewrite wr_in_range by (apply is_player_spec in Hp; lia). cbn [bind].
      rewrite IH by (by rewrite length_insert). f_equal. f_equal.
      rewrite list_insert_insert_eq.
      destruct (decide (0 ∈ 0 :: txs)) as [_ | Hn];
        [by destruct (decide (0 ∈ txs)) | exfalso; apply Hn; rewrite elem_of_cons; by left].
    + cbn [bind]. rewrite IH by done. f_equal. f_equal.
      destruct (decide (0 ∈ txs)) as [Hin | Hn], (decide (0 ∈ tx :: txs)) as [Hin' | Hn'];
        try done.
      * exfalso. apply Hn'. rewrite elem_of_cons. by right.
      * exfalso. rewrite elem_of_cons in Hin'. destruct Hin' as [? | ?]; [lia | done].
Qed.

(** X5. The third phase of [select_and_step] can run its 8 threads in any
    order: on a valid board, for the sentinel and for every action on the
    board, every order of the threads returns, and leaves the board and the
    status row that the order 0..7 leaves. *)
Theorem apply_action_any_order (player : Z) (sh : shared) (b : board) (st : list Z)
    (ax ay : Z) (txs : list Z) :
  valid_board b = true -> is_player player = true -> length st = 2%nat ->
  actions sh = [ax; ay] -> ax = -1 \/ on_board ax ay -> txs ≡ₚ range8 ->
  exists g' : board * list Z,
    foldM (apply_action RAYS player sh) range8 (b, st) = Ret g' /\
    foldM (apply_action RAYS player sh) txs (b, st) = Ret g'.
Proof.
  intros Hv Hp Hl Hact Hcase Hperm.
  assert (H0 : 0 ∈ range8) by (unfold range8; rewrite elem_of_cons; by left).
  assert (Hmem : forall tx, tx ∈ txs <-> tx ∈ range8) by (intros tx; by rewrite Hperm).
  destruct Hcase as [-> | Hxy].
  - eexists. rewrite !(apply_no_action_fold b sh player ay Hact Hp) by done.
    destruct (decide (0 ∈ range8)) as [_ | Hn]; [|done].
    destruct (decide (0 ∈ txs)) as [_ | Hn]; [done | exfalso; by apply Hn, Hmem].
  - destruct (applied_fold b ax ay player sh Hp Hact Hxy range8 [] b st)
      as (c & Hfold & Happ); [apply range8_NoDup | | done | by apply applied_nil |].
    { intros tx Hin. split; [apply not_elem_of_nil | by apply range8_rays]. }
    destruct (applied_fold b ax ay player sh Hp Hact Hxy txs [] b st)
      as (c' & Hfold' & Happ'); [by rewrite Hperm; apply range8_NoDup | | done
                                 | by apply applied_nil |].
    { intros tx Hin. split; [apply not_elem_of_nil | by apply range8_rays, Hmem]. }
    rewrite app_nil_r in Happ, Happ'.
    assert (c' = c) as ->.
    { apply (applied_all b ax ay player (rev txs) (rev range8)); try done.
      - intros tx. by rewrite <- Permutation_rev.
      - intros tx. by rewrite <- Permutation_rev. }
    exists (c, <[Z.to_nat (player - 1) := 0]> st). rewrite Hfold, Hfold'.
    destruct (decide (0 ∈ range8)) as [_ | Hn]; [|done].
    destruct (decide (0 ∈ txs)) as [_ | Hn]; [done | exfalso; by apply Hn, Hmem].
Qed.

Lemma apply_action_any_order_witness :
  exists g' : board * list Z,
    foldM (apply_action RAYS 1 move_shared) range8 (initial_board, [0; 0]) = Ret g' /\
    foldM (apply_action RAYS 1 move_shared) (rev range8) (initial_board, [0; 0]) = Ret g'.
Proof.
  apply (apply_action_any_order 1 move_shared initial_board [0; 0] 2 3 (rev range8));
    [reflexivity | reflexivity | reflexivity | reflexivity
    | right; unfold on_board; lia | symmetry; apply Permutation_rev].
Defined.

(** ** The blocks of [select_and_step] may run in any order *)

Lemma game_ready_step `{RandomSource} player (bx : nat) (d : device) :
  is_player player = true -> (bx < N_GAMES)%nat ->
  (forall g, (g < N_GAMES)%nat -> game_ready d g) ->
  exists b' status',
    valid_board b' = true /\ length status' = 2%nat /\
    select_and_step_at player (Z.of_nat bx) d =
      Ret (Device _ (<[bx := b']> (boards d)) (<[bx := status']> (player_status d))
                  (rng_states d) (action_probs d)) /\
    (forall d0 : device,
       action_probs d0 !! bx = action_probs d !! bx -> boards d0 !! bx = boards d !! bx ->
       player_status d0 !! bx = player_status d !! bx ->
       select_and_step_at player (Z.of_nat bx) d0 =
         Ret (Device _ (<[bx := b']> (boards d0)) (<[bx := status']> (player_status d0))
                     (rng_states d0) (action_probs d0))) /\
    forall g, (g < N_GAMES)%nat ->
      game_ready (Device _ (<[bx := b']> (boards d)) (<[bx := status']> (player_status d))
                           (rng_states d) (action_probs d)) g.
Proof.
  intros Hp Hbx Hready.
  destruct (Hready bx Hbx) as (probs & b & st & Hap & Hb & Hst & Hs & Hn & Hv & Hl).
  destruct (select_and_step_at_spec player bx d probs b st)
    as (b' & st' & Hblock & Hv' & Hl' & Hrun); try done.
  exists b', st'. split; [done|]. split; [done|]. split; [done|]. split.
  - intros d0 Hap0 Hb0 Hst0.
    destruct (select_and_step_at_spec player bx d0 probs b st)
      as (b2 & st2 & Hblock2 & _ & _ & Hrun2); congruence.
  - intros g Hg. destruct (Hready g Hg) as (probs1 & b1 & st1 & ? & Hb1 & Hst1 & ? & ? & ? & ?).
    pose proof (lookup_lt_Some _ _ _ Hb). pose proof (lookup_lt_Some _ _ _ Hst).
    destruct (decide (g = bx)) as [-> | Hne].
    + exists probs, b', st'. cbn. rewrite !list_lookup_insert_eq by lia. done.
    + exists probs1, b1, st1. cbn. rewrite !list_lookup_insert_ne by lia. done.
Qed.

(** X6. The blocks of [select_and_step] work on different games: run in any
    order, they leave the same device memory. *)
Theorem select_and_step_any_block_order `{RandomSource} (player : Z) (d : device)
    (bxs : list Z) :
  is_player player = true -> select_ready d = true -> bxs ≡ₚ block_ids N_GAMES ->
  exists d' : device,
    select_and_step player d = Ret d' /\
    foldM (select_and_step_at player) bxs d = Ret d'.
Proof.
  intros Hp Hready Hperm.
  destruct (select_and_step_games player d Hp Hready) as (d' & Hrun & _).
  exists d'. split; [done|]. rewrite <- Hrun. unfold select_and_step. symmetry.
  set (I := fun d0 : device => forall g, (g < N_GAMES)%nat -> game_ready d0 g).
  set (P := fun bx : Z => 0 <= bx < Z.of_nat N_GAMES).
  apply (foldM_perm (select_and_step_at player) I P).
  - intros a s s' Ha Hs Hstep.
    destruct (game_ready_step player (Z.to_nat a) s Hp ltac:(unfold P in Ha; lia) Hs)
      as (b' & st' & _ & _ & Heq & _ & Hnext).
    rewrite Z2Nat.id in Heq by (unfold P in Ha; lia).
    rewrite Heq in Hstep. injection Hstep as <-. exact Hnext.
  - intros a b s Ha Hb Hne Hs. unfold P in Ha, Hb.
    destruct (game_ready_step player (Z.to_nat a) s Hp ltac:(lia) Hs)
      as (ba & sa & _ & _ & Hra & Hra' & _).
    destruct (game_ready_step player (Z.to_nat b) s Hp ltac:(lia) Hs)
      as (bb & sb & _ & _ & Hrb & Hrb' & _).
    rewrite Z2Nat.id in Hra, Hra', Hrb, Hrb' by lia.
    rewrite Hra, Hrb. cbn [bind].
    rewrite Hrb', Hra' by (cbn; rewrite ?list_lookup_insert_ne by lia; done).
    cbn [boards player_status rng_states action_probs]. f_equal. f_equal.
    + apply list_insert_insert_ne. lia.
    + apply list_insert_insert_ne. lia.
  - by symmetry.
  - apply NoDup_fmap_2; [apply Nat2Z.inj' | apply NoDup_seq].
  - apply Forall_forall. intros bx Hbx%block_ids_spec. done.
  - intros g Hg. by apply select_ready_game.
Qed.

Lemma select_and_step_any_block_order_witness :
  exists d' : @device lcg_source,
    select_and_step 1 move_device = Ret d' /\
    foldM (select_and_step_at 1) (rev (block_ids N_GAMES)) move_device = Ret d'.
Proof.
  apply (select_and_step_any_block_order 1 move_device (rev (block_ids N_GAMES)));
    [reflexivity | reflexivity | symmetry; apply Permutation_rev].
Defined.

(** ** The two launches of a turn, game by game *)

Lemma turn_games `{R : RandomSource} {U : UniformOpen R} player sched (d : device) :
  is_player player = true -> schedule sched ->
  find_ready d = true -> status_ready d = true ->
  exists d1 d',
    find_actions sched player d = Ret d1 /\ select_and_step player d1 = Ret d' /\
    turn sched player d = Ret d' /\
    boards d1 = boards d /\ player_status d1 = player_status d /\
    rng_states d' = rng_states d1 /\ action_probs d' = action_probs d1 /\
    find_ready d1 = true /\
    (forall i s, rng_states d !! i = Some s ->
       rng_states d1 !! i = Some (Nat.iter (draws_of (boards d) player sched i) advance s)) /\
    forall (g : nat) b st,
      boards d !! g = Some b -> player_status d !! g = Some st ->
      exists probs b' st',
        action_probs d1 !! g = Some probs /\
        well_shaped probs = true /\ nonneg probs = true /\
        (forall x y v, cell_at probs x y = Some v ->
           (legal b player x y = true -> (0 < v)%Q) /\
           (legal b player x y = false -> v = 0%Q)) /\
        select_and_step_block player probs (b, st) = Ret (b', st') /\
        boards d' !! g = Some b' /\ player_status d' !! g = Some st'.
Proof.
  intros Hp Hsched Hready Hstatus.
  destruct (find_actions_spec player sched d Hp Hsched Hready)
    as (d1 & Hfind & Hb1 & Hs1 & Hready1 & Hrng1 & Hscores).
  pose proof Hready as (Hlb & Hvb & _)%find_ready_spec.
  pose proof Hready1 as (_ & _ & Hla1 & Hsa1 & Hlr1)%find_ready_spec.
  pose proof Hstatus as (Hls & Hrows)%status_ready_spec.
  assert (Hgrid : forall (g : nat) probs b, action_probs d1 !! g = Some probs ->
    boards d !! g = Some b ->
    well_shaped probs = true /\ nonneg probs = true /\
    forall x y v, cell_at probs x y = Some v ->
      (legal b player x y = true -> (0 < v)%Q) /\ (legal b player x y = false -> v = 0%Q)).
  { intros g probs b Hprobs Hb.
    pose proof (Forall_lookup_1 _ _ _ _ Hsa1 Hprobs) as Hs. cbn beta in Hs.
    pose proof (lookup_lt_Some _ _ _ Hb) as Hg.
    assert (Hcell : forall x y v, cell_at probs x y = Some v ->
      (legal b player x y = true -> (0 < v)%Q) /\ (legal b player x y = false -> v = 0%Q)).
    { intros x y v Hc. pose proof (cell_at_on_board _ _ _ _ Hc) as Hxy.
      destruct (Hscores (Z.of_nat g, x, y)) as (_ & v' & Hv' & Hyes & Hno).
      { unfold in_grid. split; [lia | done]. }
      unfold score_of in Hv'. destruct (Z.ltb_spec (Z.of_nat g) 0); [lia|].
      rewrite Nat2Z.id, Hprobs, Hc in Hv'. injection Hv' as <-.
      unfold draws in Hyes, Hno. rewrite Nat2Z.id, Hb in Hyes, Hno.
      split; [intros Hl; by apply Hyes | done]. }
    split; [done|]. split; [|done].
    apply nonneg_pointwise; [done|]. intros x y v Hc.
    destruct (Hcell x y v Hc) as [Hyes Hno].
    destruct (legal b player x y); [apply Qlt_le_weak; by apply Hyes | by rewrite Hno]. }
  destruct (select_and_step_fold player Hp N_GAMES 0 d1)
    as (d' & Hsel & Hrng' & Hap' & Hlb' & Hls' & _ & Hgames).
  { intros bx [_ Hbx].
    destruct (lookup_lt_is_Some_2 (action_probs d1) bx) as [probs Hprobs]; [lia|].
    destruct (lookup_lt_is_Some_2 (boards d) bx) as [b Hb]; [lia|].
    destruct (lookup_lt_is_Some_2 (player_status d) bx) as [st Hst]; [lia|].
    destruct (Hgrid bx probs b Hprobs Hb) as (Hs & Hn & _).
    exists probs, b, st. rewrite Hb1, Hs1. do 5 (split; [done|]). split.
    - apply (Forall_lookup_1 _ _ _ _ Hvb Hb).
    - apply (Forall_lookup_1 _ _ _ _ Hrows Hst). }
  exists d1, d'. split; [done|]. split; [exact Hsel|].
  split; [unfold turn; rewrite Hfind; cbn [bind]; exact Hsel|].
  do 5 (split; [done|]). split; [done|].
  intros g b st Hb Hst. pose proof (lookup_lt_Some _ _ _ Hb) as Hg.
  destruct (lookup_lt_is_Some_2 (action_probs d1) g) as [probs Hprobs]; [lia|].
  destruct (Hgrid g probs b Hprobs Hb) as (Hs & Hn & Hcell).
  destruct (Hgames g probs b st) as (b' & st' & Hblock & Hb' & Hst');
    [lia | done | by rewrite Hb1 | by rewrite Hs1 |].
  exists probs, b', st'. done.
Qed.

(** X2. A turn plays by the rules.  In every game in which the mover has a
    legal move, the turn puts a token of the mover on a cell that is empty
    and from which some ray captures; it turns exactly the opposing tokens
    of the captures from that cell, at least one, and leaves every other
    cell as it was; and it marks the mover as having played. *)
Theorem turn_plays_legal_move `{R : RandomSource} {U : UniformOpen R}
    (player : Z) (sched : list thread) (d : device) (g : nat) (b : board) (st : list Z) :
  is_player player = true -> schedule sched ->
  find_ready d = true -> status_ready d = true ->
  boards d !! g = Some b -> player_status d !! g = Some st ->
  has_move b player = true ->
  exists (d' : device) (b' : board) (ax ay : Z),
    turn sched player d = Ret d' /\ boards d' !! g = Some b' /\
    player_status d' !! g = Some (<[Z.to_nat (player - 1) := 0]> st) /\
    legal b player ax ay = true /\
    cell_at b ax ay = Some 0 /\ cell_at b' ax ay = Some player /\
    (exists x y, cell_at b x y = Some (3 - player) /\ cell_at b' x y = Some player) /\
    forall x y, ~ (x = ax /\ y = ay) ->
      (cell_at b x y = Some (3 - player) /\ cell_at b' x y = Some player /\
       exists r n, r ∈ RAYS /\ captures b ax ay r player n /\
                   between ax ay r n x y = true) \/
      (cell_at b' x y = cell_at b x y /\
       forall r n, r ∈ RAYS -> captures b ax ay r player n ->
                   between ax ay r n x y = false).
Proof.
  intros Hp Hsched Hready Hstatus Hb Hst Hmove.
  destruct (turn_games player sched d Hp Hsched Hready Hstatus)
    as (d1 & d' & _ & _ & Hturn & _ & _ & _ & _ & _ & _ & Hgames).
  destruct (Hgames g b st Hb Hst) as (probs & b' & st' & _ & Hs & Hn & Hcell & Hblock & Hb' & Hst').
  pose proof Hready as (_ & Hvb & _)%find_ready_spec.
  pose proof Hstatus as (_ & Hrows)%status_ready_spec.
  pose proof (Forall_lookup_1 _ _ _ _ Hvb Hb) as Hv. cbn beta in Hv.
  pose proof (Forall_lookup_1 _ _ _ _ Hrows Hst) as Hl. cbn beta in Hl.
  destruct (select_and_step_block_spec player probs b st Hs Hn Hv Hp Hl)
    as (sh & b2 & st2 & _ & Hblock2 & _ & _ & Hcase).
  rewrite Hblock in Hblock2. injection Hblock2 as <- <-.
  destruct Hcase as [(_ & Hzero & _) | (ax & ay & _ & Harg & -> & Horig & Hturned & Hkept)].
  { exfalso. apply has_move_spec in Hmove as (x & y & Hlegal).
    assert (Hxy : on_board x y).
    { unfold legal in Hlegal. destruct (cell_at b x y) eqn:Hc; [|done].
      by apply cell_at_on_board in Hc. }
    destruct (well_shaped_cell probs x y Hs Hxy) as [v Hc].
    destruct (Hcell x y v Hc) as [Hyes _]. specialize (Hyes Hlegal).
    pose proof (Hzero x y v Hc). lra. }
  destruct Harg as (Hxy & M & HM & Hpos & _).
  assert (Hlegal : legal b player ax ay = true).
  { destruct (Hcell ax ay M HM) as [_ Hno].
    destruct (legal b player ax ay); [done|]. rewrite Hno in Hpos by done. lra. }
  pose proof (proj1 (legal_spec b player ax ay Hv Hp) Hlegal) as (Hempty & r0 & Hr0 & Hhit).
  exists d', b', ax, ay. do 6 (split; [done|]). split.
  - destruct (ray_cast_spec b ax ay r0 player Hv Hp Hr0) as (h & Hrc & Hh).
    rewrite Hrc in Hhit. injection Hhit as ->.
    destruct (proj1 Hh eq_refl) as (n & Hn1 & Hrun & Hend).
    exists (ax + Z.of_nat 1 * r0.1), (ay + Z.of_nat 1 * r0.2).
    split; [apply Hrun; lia|].
    apply (Hturned r0 n); [done | done |]. apply between_spec. exists 1%nat. done.
  - intros x y Hne.
    destruct (turned_or_not b ax ay player x y Hv Hp) as [(r & n & Hr & Hcap & Hbt) | Hnone].
    + left. split; [|split; [by apply (Hturned r n) | by exists r, n]].
      apply between_spec in Hbt as (j & Hj & -> & ->).
      destruct Hcap as (_ & Hrun & _). by apply Hrun.
    + right. split; [by apply Hkept | done].
Qed.

Lemma turn_plays_legal_move_witness :
  has_move initial_board 1 = true /\
  exists (d' : @device lcg_source) (b' : board) (ax ay : Z),
    turn (row_major 0) 1 (init device0 initial_board) = Ret d' /\
    boards d' !! 0%nat = Some b' /\
    legal initial_board 1 ax ay = true /\ cell_at b' ax ay = Some 1.
Proof.
  split; [reflexivity|].
  destruct (@turn_plays_legal_move lcg_source lcg_open 1 (row_major 0)
              (init device0 initial_board) 0 initial_board [0; 0])
    as (d' & b' & ax & ay & Hturn & Hb' & _ & Hlegal & _ & Hcell & _);
    [reflexivity | apply row_major_schedule | reflexivity | reflexivity
    | reflexivity | reflexivity | reflexivity |].
  exists d', b', ax, ay. split; [exact Hturn|]. split; [exact Hb'|].
  split; [exact Hlegal | exact Hcell].
Defined.

(** X3. A turn keeps the device arrays in order: [N_GAMES] boards of 8x8
    cells that are empty or hold a token of player 1 or 2, status rows of two
    flags, score grids of 8x8 scores that are not negative.  It writes the
    flag of the mover only; the flag of the other player is as before. *)
Theorem turn_keeps_arrays `{R : RandomSource} {U : UniformOpen R}
    (player : Z) (sched : list thread) (d : device) :
  is_player player = true -> schedule sched ->
  find_ready d = true -> status_ready d = true ->
  exists d' : device,
    turn sched player d = Ret d' /\
    find_ready d' = true /\ status_ready d' = true /\ select_ready d' = true /\
    forall (g : nat) (st st' : list Z),
      player_status d !! g = Some st -> player_status d' !! g = Some st' ->
      flag st' (3 - player) = flag st (3 - player) /\
      (flag st' player = 0 \/ flag st' player = 1).
Proof.
  intros Hp Hsched Hready Hstatus.
  destruct (turn_spec player sched d Hp Hsched Hready Hstatus)
    as (d' & Hturn & Hready' & Hstatus' & Hgames).
  destruct (turn_games player sched d Hp Hsched Hready Hstatus)
    as (d1 & d2 & _ & _ & Hturn2 & _ & _ & _ & Hap & Hready1 & _ & Hgames2).
  rewrite Hturn in Hturn2. injection Hturn2 as <-.
  exists d'. do 3 (split; [done|]). split.
  - pose proof Hready as (Hlb & _)%find_ready_spec.
    pose proof Hstatus as (Hls & _)%status_ready_spec.
    pose proof Hready' as (Hlb' & Hvb' & Hla' & Hsa' & _)%find_ready_spec.
    pose proof Hstatus' as (Hls' & Hrows')%status_ready_spec.
    unfold select_ready. rewrite !andb_true_iff, !Nat.eqb_eq.
    split; [split; [split; [split; [split|]|]|]|]; try done.
    + apply forallb_forall. intros b Hb%list_elem_of_In.
      by apply (proj1 (Forall_forall _ _) Hvb').
    + apply forallb_forall. intros probs [g Hprobs]%list_elem_of_In%list_elem_of_lookup.
      pose proof (lookup_lt_Some _ _ _ Hprobs) as Hg.
      destruct (lookup_lt_is_Some_2 (boards d) g) as [b Hb]; [lia|].
      destruct (lookup_lt_is_Some_2 (player_status d) g) as [st Hst]; [lia|].
      destruct (Hgames2 g b st Hb Hst) as (probs1 & _ & _ & Hprobs1 & Hs & Hn & _).
      rewrite Hap in Hprobs. assert (probs1 = probs) by congruence. subst.
      by rewrite Hs, Hn.
    + apply forallb_forall. intros st Hst%list_elem_of_In. apply Nat.eqb_eq.
      by apply (proj1 (Forall_forall _ _) Hrows').
  - intros g st st' Hst Hst'.
    pose proof Hready as (Hlb & _)%find_ready_spec.
    pose proof Hstatus as (Hls & Hrows)%status_ready_spec.
    pose proof (lookup_lt_Some _ _ _ Hst) as Hg.
    destruct (lookup_lt_is_Some_2 (boards d) g) as [b Hb]; [lia|].
    pose proof (Forall_lookup_1 _ _ _ _ Hrows Hst) as Hl. cbn beta in Hl.
    destruct st as [|s1 [|s2 [|]]]; try done.
    destruct (Hgames g b [s1; s2] Hb Hst) as (b' & _ & Hcase).
    apply is_player_spec in Hp.
    destruct Hcase as [(_ & _ & Hst2) | (_ & _ & Hst2)];
      rewrite Hst' in Hst2; injection Hst2 as ->;
      destruct Hp as [-> | ->]; cbn; auto.
Qed.

Lemma turn_keeps_arrays_witness :
  exists d' : @device lcg_source,
    turn (row_major 0) 1 (init device0 initial_board) = Ret d' /\
    find_ready d' = true /\ status_ready d' = true /\ select_ready d' = true.
Proof.
  destruct (@turn_keeps_arrays lcg_source lcg_open 1 (row_major 0)
              (init device0 initial_board))
    as (d' & Hturn & Hf & Hs & Hsel & _);
    [reflexivity | apply row_major_schedule | reflexivity | reflexivity |].
  exists d'. split; [exact Hturn|]. split; [exact Hf|]. split; [exact Hs | exact Hsel].
Defined.

(** ** Invariants of the loop of [rollout] *)

(** What every turn keeps holds when the loop ends; and the loop ends, or
    runs out of fuel: it does not fail otherwise. *)
Lemma rollout_loop_invariant `{R : RandomSource} {U : UniformOpen R}
    (sched : nat -> list thread) (Q : Z -> device -> Prop) :
  (forall k, schedule (sched k)) ->
  (forall k player d d',
     is_player player = true -> find_ready d = true -> status_ready d = true ->
     Q player d -> turn (sched k) player d = Ret d' -> Q (3 - player) d') ->
  forall (fuel k : nat) (player : Z) (d : device),
    is_player player = true -> find_ready d = true -> status_ready d = true ->
    Q player d ->
    match rollout_loop fuel sched k player d with
    | Ret (d', k') =>
        exists player', is_player player' = true /\
          find_ready d' = true /\ status_ready d' = true /\ Q player' d' /\
          (sum_status (player_status d') <? 2 * Z.of_nat N_GAMES) = false
    | Err e => e = OutOfFuel
    end.
Proof.
  intros Hsched Hstep. induction fuel as [|fuel IH]; intros k player d Hp Hready Hstatus HQ.
  - done.
  - cbn [rollout_loop].
    destruct (sum_status (player_status d) <? 2 * Z.of_nat N_GAMES) eqn:Hsum.
    + destruct (turn_spec player (sched k) d Hp (Hsched k) Hready Hstatus)
        as (d1 & Hturn & Hready1 & Hstatus1 & _).
      rewrite Hturn. cbn [bind].
      apply IH; [by apply is_player_other | done | done |].
      by apply (Hstep k player d d1).
    + by exists player.
Qed.

Lemma sum_status_flags (ps : list (list Z)) :
  Forall (fun st => exists s1 s2, st = [s1; s2] /\ (s1 = 0 \/ s1 = 1) /\ (s2 = 0 \/ s2 = 1)) ps ->
  sum_status ps <= 2 * Z.of_nat (length ps) /\
  (2 * Z.of_nat (length ps) <= sum_status ps -> Forall (fun st => st = [1; 1]) ps).
Proof.
  unfold sum_status. induction 1 as [|st ps (s1 & s2 & -> & H1 & H2) _ [IH1 IH2]].
  - split; [done|]. intros _. constructor.
  - cbn [concat app foldr length]. split; [lia|]. intros Hsum.
    constructor; [|apply IH2; lia]. f_equal; [|f_equal]; lia.
Qed.

(** The flags tell the last two turns of every game. *)
Lemma game_inv_turn `{R : RandomSource} {U : UniformOpen R}
    (sched : list thread) (player : Z) (d d' : device) :
  is_player player = true -> schedule sched ->
  find_ready d = true -> status_ready d = true ->
  (forall (g : nat) b st, boards d !! g = Some b -> player_status d !! g = Some st ->
     game_inv b st player) ->
  turn sched player d = Ret d' ->
  forall (g : nat) b st, boards d' !! g = Some b -> player_status d' !! g = Some st ->
    game_inv b st (3 - player).
Proof.
  intros Hp Hsched Hready Hstatus Hinv Hturn g b' st' Hb' Hst'.
  destruct (turn_spec player sched d Hp Hsched Hready Hstatus)
    as (d2 & Hturn2 & Hready' & Hstatus' & Hgames).
  rewrite Hturn in Hturn2. injection Hturn2 as <-.
  pose proof Hready as (Hlb & _)%find_ready_spec.
  pose proof Hready' as (Hlb' & _)%find_ready_spec.
  pose proof Hstatus as (Hls & _)%status_ready_spec.
  pose proof (lookup_lt_Some _ _ _ Hb') as Hg.
  destruct (lookup_lt_is_Some_2 (boards d) g) as [b Hb]; [lia|].
  destruct (lookup_lt_is_Some_2 (player_status d) g) as [st Hst]; [lia|].
  destruct (Hgames g b st Hb Hst) as (b2 & Hb2 & Hcase).
  assert (b2 = b') by congruence. subst b2.
  destruct Hcase as [(Hno & -> & Hst2) | (Hyes & Hcount & Hst2)].
  - assert (st' = <[Z.to_nat (player - 1) := 1]> st) by congruence. subst st'.
    by apply (game_pass b st player Hp (Hinv g b st Hb Hst) Hno).
  - assert (st' = <[Z.to_nat (player - 1) := 0]> st) by congruence. subst st'.
    by apply (game_move b b' st player Hp (Hinv g b st Hb Hst) Hyes Hcount).
Qed.

(** X11. When the loop of [rollout] ends, every game is over: both flags of
    the game are set, and on its final board neither player has a legal
    move.  The winners are counted on finished games only. *)
Theorem rollout_ends_in_final_positions `{R : RandomSource} {U : UniformOpen R}
    (fuel : nat) (sched : nat -> list thread) (d : device) (board0 : board) (planner : Z) :
  (forall k, schedule (sched k)) -> valid_board board0 = true ->
  globals_ready d = true -> is_player planner = true ->
  (2 * count_empty board0 + 2 < fuel)%nat ->
  exists (d' : device) (k : nat),
    rollout_run fuel sched d board0 planner = Ret (d', k) /\
    forall g : nat, (g < N_GAMES)%nat ->
      exists b : board,
        boards d' !! g = Some b /\ player_status d' !! g = Some [1; 1] /\
        has_move b 1 = false /\ has_move b 2 = false.
Proof.
  intros Hsched Hv Hg Hp Hfuel.
  destruct (rollout_run_terminates fuel sched d board0 planner Hsched Hv Hg Hp Hfuel)
    as (d' & k & Hrun & _).
  exists d', k. split; [done|].
  destruct (init_ready d board0 Hv Hg) as [Hready0 Hstatus0].
  destruct (init_inv d board0 planner Hv Hg Hp) as (_ & _ & Hinv0).
  pose proof (rollout_loop_invariant sched
    (fun player d0 => forall (g : nat) b st, boards d0 !! g = Some b ->
       player_status d0 !! g = Some st -> game_inv b st player) Hsched
    (fun k0 player d0 d1 Hp0 Hr0 Hs0 HQ Hturn =>
       game_inv_turn (sched k0) player d0 d1 Hp0 (Hsched k0) Hr0 Hs0 HQ Hturn)
    fuel 0%nat planner (init d board0) Hp Hready0 Hstatus0
    (fun g b st Hb Hst => proj1 (Hinv0 g b st Hb Hst))) as Hloop.
  cbn beta in Hloop.
  rewrite rollout_run_shaped in Hrun by (by apply valid_board_shape).
  rewrite Hrun in Hloop.
  destruct Hloop as (player' & Hp' & Hready' & Hstatus' & Hinv' & Hexit).
  pose proof Hready' as (Hlb' & _)%find_ready_spec.
  pose proof Hstatus' as (Hls' & _)%status_ready_spec.
  assert (Hall : Forall (fun st => st = [1; 1]) (player_status d')).
  { apply sum_status_flags.
    - apply Forall_lookup_2. intros g st Hst. pose proof (lookup_lt_Some _ _ _ Hst).
      destruct (lookup_lt_is_Some_2 (boards d') g) as [b Hb]; [lia|].
      apply (game_inv_row b st player'). by apply (Hinv' g).
    - apply Z.ltb_ge in Hexit. lia. }
  intros g Hlt.
  destruct (lookup_lt_is_Some_2 (boards d') g) as [b Hb]; [lia|].
  destruct (lookup_lt_is_Some_2 (player_status d') g) as [st Hst]; [lia|].
  pose proof (Forall_lookup_1 _ _ _ _ Hall Hst) as Heq. cbn beta in Heq. subst st.
  exists b. split; [done|]. split; [done|].
  destruct (Hinv' g b [1; 1] Hb Hst) as (_ & _ & _ & Hother & Hboth).
  apply is_player_spec in Hp' as [-> | ->].
  - split; [by apply Hboth | by apply Hother].
  - split; [by apply Hother | by apply Hboth].
Qed.

Lemma rollout_ends_in_final_positions_witness :
  valid_board initial_board = true /\
  exists (d' : @device lcg_source) (k : nat),
    rollout_run 200 row_major device0 initial_board 1 = Ret (d', k) /\
    exists b : board, boards d' !! 0%nat = Some b /\ has_move b 1 = false.
Proof.
  split; [reflexivity|].
  destruct (@rollout_ends_in_final_positions lcg_source lcg_open 200 row_major device0
              initial_board 1)
    as (d' & k & Hrun & Hfinal);
    [apply row_major_schedule | reflexivity | reflexivity | reflexivity
    | apply Nat.ltb_lt; reflexivity |].
  exists d', k. split; [exact Hrun|].
  destruct (Hfinal 0%nat) as (b & Hb & _ & Hno & _); [apply Nat.ltb_lt; reflexivity|].
  exists b. split; [exact Hb | exact Hno].
Defined.

(** A turn leaves a board on which neither player can move as it is. *)
Lemma frozen_turn `{R : RandomSource} {U : UniformOpen R}
    (sched : list thread) (player : Z) (d d' : device) (g : nat) (b : board) :
  is_player player = true -> schedule sched ->
  find_ready d = true -> status_ready d = true ->
  has_move b 1 = false -> has_move b 2 = false ->
  boards d !! g = Some b -> turn sched player d = Ret d' -> boards d' !! g = Some b.
Proof.
  intros Hp Hsched Hready Hstatus Hno1 Hno2 Hb Hturn.
  destruct (turn_spec player sched d Hp Hsched Hready Hstatus)
    as (d2 & Hturn2 & _ & _ & Hgames).
  rewrite Hturn in Hturn2. injection Hturn2 as <-.
  pose proof Hready as (Hlb & _)%find_ready_spec.
  pose proof Hstatus as (Hls & _)%status_ready_spec.
  pose proof (lookup_lt_Some _ _ _ Hb).
  destruct (lookup_lt_is_Some_2 (player_status d) g) as [st Hst]; [lia|].
  destruct (Hgames g b st Hb Hst) as (b' & Hb' & [(_ & -> & _) | (Hyes & _)]); [done|].
  apply is_player_spec in Hp as [-> | ->]; congruence.
Qed.

(** X12. A game that is over is frozen.  If neither player has a legal move
    on the board of a game, the loop of [rollout] leaves that board as it
    is, however many turns the other games of the batch still take; and the
    loop does not fail. *)
Theorem finished_game_is_frozen `{R : RandomSource} {U : UniformOpen R}
    (fuel : nat) (sched : nat -> list thread) (k : nat) (player : Z) (d : device)
    (g : nat) (b : board) :
  (forall k, schedule (sched k)) -> is_player player = true ->
  find_ready d = true -> status_ready d = true ->
  boards d !! g = Some b -> has_move b 1 = false -> has_move b 2 = false ->
  match rollout_loop fuel sched k player d with
  | Ret (d', _) => boards d' !! g = Some b
  | Err e => e = OutOfFuel
  end.
Proof.
  intros Hsched Hp Hready Hstatus Hb Hno1 Hno2.
  pose proof (rollout_loop_invariant sched (fun _ d0 => boards d0 !! g = Some b) Hsched
    (fun k0 p0 d0 d1 Hp0 Hr0 Hs0 HQ Hturn =>
       frozen_turn (sched k0) p0 d0 d1 g b Hp0 (Hsched k0) Hr0 Hs0 Hno1 Hno2 HQ Hturn)
    fuel k player d Hp Hready Hstatus Hb) as Hloop.
  cbn beta in Hloop.
  destruct (rollout_loop fuel sched k player d) as [[d' k']|e]; [|done].
  by destruct Hloop as (_ & _ & _ & _ & HQ & _).
Qed.

Lemma finished_game_is_frozen_witness :
  match rollout_loop 200 row_major 0 1 mixed_device with
  | Ret (d', _) => boards d' !! 0%nat = Some empty_board
  | Err e => e = OutOfFuel
  end.
Proof.
  exact (@finished_game_is_frozen lcg_source lcg_open 200 row_major 0 1 mixed_device
           0 empty_board row_major_schedule eq_refl eq_refl eq_refl eq_refl eq_refl eq_refl).
Defined.

(** ** Passes before the loop can end *)

Lemma sum_status_one_flag (ps : list (list Z)) :
  Forall (fun st => exists s1 s2, st = [s1; s2] /\ 0 <= s1 /\ 0 <= s2 /\ s1 + s2 <= 1) ps ->
  sum_status ps <= Z.of_nat (length ps).
Proof.
  unfold sum_status. induction 1 as [|st ps (s1 & s2 & -> & H1 & H2 & H3) _ IH]; [done|].
  cbn [concat app foldr length]. lia.
Qed.

(** X13. [rollout] always takes at least two turns.  The flags start at 0
    and a turn sets only the flag of its mover, so that after the first turn
    at most [N_GAMES] flags are set: even from a position in which the game
    is over, both kernels are launched twice before [rollout] returns. *)
Theorem rollout_takes_two_turns `{R : RandomSource} {U : UniformOpen R}
    (fuel : nat) (sched : nat -> list thread) (d : device) (board0 : board) (planner : Z) :
  (forall k, schedule (sched k)) -> valid_board board0 = true ->
  globals_ready d = true -> is_player planner = true ->
  (2 * count_empty board0 + 2 < fuel)%nat ->
  exists (d1 d2 d' : device) (k : nat),
    turn (sched 0%nat) planner (init d board0) = Ret d1 /\
    turn (sched 1%nat) (3 - planner) d1 = Ret d2 /\
    rollout_run fuel sched d board0 planner = Ret (d', k) /\ (2 <= k)%nat.
Proof.
  intros Hsched Hv Hg Hp Hfuel.
  pose proof (init_inv d board0 planner Hv Hg Hp) as Hinv0.
  replace (2 * count_empty board0 + 2)%nat with (S (S (2 * count_empty board0))) in Hinv0
    by lia.
  destruct (batch_inv_turn planner (sched 0%nat) (init d board0) _ Hp (Hsched 0%nat) Hinv0)
    as (d1 & Hturn1 & Hinv1 & _).
  destruct (batch_inv_turn (3 - planner) (sched 1%nat) d1 _ (is_player_other _ Hp)
              (Hsched 1%nat) Hinv1)
    as (d2 & Hturn2 & Hinv2 & _).
  do 2 (destruct fuel as [|fuel]; [lia|]).
  destruct (rollout_loop_terminates sched Hsched (2 * count_empty board0) fuel 2
              (3 - (3 - planner)) d2 (is_player_other _ (is_player_other _ Hp)) Hinv2)
    as (d' & k & Hloop & Hk & _); [lia|].
  exists d1, d2, d', k. split; [done|]. split; [done|]. split; [|lia].
  destruct (init_ready d board0 Hv Hg) as [Hready0 Hstatus0].
  destruct (turn_spec planner (sched 0%nat) (init d board0) Hp (Hsched 0%nat)
              Hready0 Hstatus0) as (d1' & Hturn1' & _ & Hstatus1 & Hgames1).
  rewrite Hturn1 in Hturn1'. injection Hturn1' as <-.
  pose proof Hstatus1 as (Hls1 & _)%status_ready_spec.
  assert (Hsum1 : sum_status (player_status d1) <= Z.of_nat N_GAMES).
  { rewrite <- Hls1. apply sum_status_one_flag. apply Forall_lookup_2. intros g st Hst.
    pose proof (lookup_lt_Some _ _ _ Hst) as Hlt.
    destruct (Hgames1 g board0 [0; 0]) as (b' & _ & Hcase).
    - unfold init. cbn [boards]. apply lookup_replicate. split; [done | lia].
    - unfold init. cbn [player_status]. apply lookup_replicate. split; [done | lia].
    - apply is_player_spec in Hp.
      destruct Hcase as [(_ & _ & Hst2) | (_ & _ & Hst2)];
        rewrite Hst in Hst2; injection Hst2 as ->;
        destruct Hp as [-> | ->]; cbn; eexists _, _; (split; [reflexivity | lia]). }
  rewrite rollout_run_shaped by (by apply valid_board_shape). cbn [rollout_loop].
  assert (sum_status (player_status (init d board0)) = 0) as ->
    by (unfold init; cbn [player_status]; rewrite sum_status_replicate; lia).
  assert ((0 <? 2 * Z.of_nat N_GAMES) = true) as -> by done.
  rewrite Hturn1. cbn [bind].
  assert ((sum_status (player_status d1) <? 2 * Z.of_nat N_GAMES) = true) as ->
    by (apply Z.ltb_lt; unfold N_GAMES in *; lia).
  rewrite Hturn2. cbn [bind]. exact Hloop.
Qed.

Lemma rollout_takes_two_turns_witness :
  valid_board empty_board = true /\
  exists (d' : @device lcg_source) (k : nat),
    rollout_run 200 row_major device0 empty_board 1 = Ret (d', k) /\ (2 <= k)%nat.
Proof.
  split; [reflexivity|].
  destruct (@rollout_takes_two_turns lcg_source lcg_open 200 row_major device0
              empty_board 1)
    as (d1 & d2 & d' & k & _ & _ & Hrun & Hk);
    [apply row_major_schedule | reflexivity | reflexivity | reflexivity
    | apply Nat.ltb_lt; reflexivity |].
  exists d', k. split; [exact Hrun | exact Hk].
Defined.

(** ** The streams that [find_actions] draws from *)

Lemma draws_of_perm bs player (l l' : list thread) (i : nat) :
  l ≡ₚ l' -> draws_of bs player l i = draws_of bs player l' i.
Proof.
  induction 1 as [|t l l' _ IH|t t' l|l l' l'' _ IH1 _ IH2]; cbn [draws_of]; lia.
Qed.

Lemma draws_of_none bs player (l : list thread) (i : nat) :
  (forall t, t ∈ l -> Z.to_nat (slot t) <> i) -> draws_of bs player l i = 0%nat.
Proof.
  induction l as [|t l IH]; intros Hl; [done|]. cbn [draws_of].
  rewrite IH by (intros t' Ht'; apply Hl; rewrite elem_of_cons; by right).
  rewrite bool_decide_eq_false_2; [done|]. apply Hl. rewrite elem_of_cons. by left.
Qed.

Lemma draws_of_filter bs player (l : list thread) (i : nat) :
  draws_of bs player l i =
  length (List.filter (fun t => bool_decide (Z.to_nat (slot t) = i) && draws bs player t) l).
Proof.
  induction l as [|t l IH]; [done|]. cbn [draws_of List.filter]. rewrite IH.
  by destruct (bool_decide (Z.to_nat (slot t) = i) && draws bs player t).
Qed.

Lemma draws_of_grid bs player (n g : nat) (b : board) (tx : Z) :
  bs !! g = Some b -> (g < n)%nat -> 0 <= tx < 8 ->
  draws_of bs player (grid_threads n) (Z.to_nat (tx + Z.of_nat g * 8)) = row_draws b player tx.
Proof.
  intros Hb Hg Htx. rewrite draws_of_filter. unfold row_draws.
  rewrite <- (length_fmap (fun ty : Z => (Z.of_nat g, tx, ty))).
  apply Permutation_length, NoDup_Permutation.
  - apply NoDup_ListNoDup, List.NoDup_filter, NoDup_ListNoDup, grid_threads_NoDup.
  - apply NoDup_fmap_2; [by intros x y [= ->]|].
    apply NoDup_ListNoDup, List.NoDup_filter, NoDup_ListNoDup, range8_NoDup.
  - intros [[bx tx'] ty]. rewrite list_elem_of_In, filter_In, <- list_elem_of_In.
    rewrite grid_threads_spec, andb_true_iff, bool_decide_eq_true, list_elem_of_fmap.
    setoid_rewrite list_elem_of_In. setoid_rewrite filter_In.
    setoid_rewrite <- list_elem_of_In. setoid_rewrite range8_spec.
    unfold in_grid, on_board, slot, draws. split.
    + intros ((Hbx & Hx & Hy) & Hslot & Hd).
      assert (bx = Z.of_nat g /\ tx' = tx) as [-> ->] by lia.
      rewrite Nat2Z.id, Hb in Hd. exists ty. done.
    + intros (ty' & [= -> -> ->] & Hy & Hl).
      rewrite Nat2Z.id, Hb. split; [lia|]. done.
Qed.

(** X7. What [find_actions] takes from the random streams.  The stream
    [tx + 8 * g] is the stream of row [tx] of game [g]: whatever the order
    of the threads, it is left as it was when the mover has no legal move
    in that row and advanced by one step when the mover has exactly one.
    The streams from [8 * N_GAMES] on, although allocated, are not
    touched. *)
Theorem find_actions_streams `{RandomSource} (player : Z) (sched : list thread)
    (d : device) :
  is_player player = true -> schedule sched -> find_ready d = true ->
  exists d' : device,
    find_actions sched player d = Ret d' /\
    length (rng_states d') = length (rng_states d) /\
    (forall (g : nat) (tx : Z) (b : board) (s : rng_state),
       boards d !! g = Some b -> 0 <= tx < 8 -> (row_draws b player tx <= 1)%nat ->
       rng_states d !! Z.to_nat (tx + Z.of_nat g * 8) = Some s ->
       rng_states d' !! Z.to_nat (tx + Z.of_nat g * 8) =
         Some (Nat.iter (row_draws b player tx) advance s)) /\
    (forall i : nat, (8 * N_GAMES <= i)%nat -> rng_states d' !! i = rng_states d !! i).
Proof.
  intros Hp Hsched Hready.
  destruct (find_actions_fold player Hp sched d) as (d' & Hrun & _ & _ & Hready' & Hrng & _);
    [by apply schedule_NoDup | by intros t Ht%(schedule_spec _ _ Hsched) | done |].
  pose proof Hready as (Hlb & _ & _ & _ & Hlr)%find_ready_spec.
  pose proof Hready' as (_ & _ & _ & _ & Hlr')%find_ready_spec.
  exists d'. split; [done|]. split; [lia|]. split.
  - intros g tx b s Hb Htx _ Hs. rewrite (Hrng _ s Hs). do 2 f_equal.
    rewrite (draws_of_perm _ _ _ _ _ Hsched).
    apply draws_of_grid; [done | | done]. apply lookup_lt_Some in Hb. lia.
  - intros i Hi. destruct (rng_states d !! i) as [s|] eqn:Hs.
    + rewrite (Hrng _ s Hs). rewrite draws_of_none; [done|].
      intros t Ht%(schedule_spec _ _ Hsched). pose proof (slot_in_grid _ _ Ht). lia.
    + apply lookup_ge_None in Hs. apply lookup_ge_None. lia.
Qed.

Lemma find_actions_streams_witness :
  exists d' : @device lcg_source,
    find_actions (reversed 0) 1 (init device0 initial_board) = Ret d' /\
    rng_states d' !! Z.to_nat (2 + Z.of_nat 0 * 8) =
      Some (Nat.iter (row_draws initial_board 1 2) (@advance lcg_source) (3 : Z)).
Proof.
  destruct (@find_actions_streams lcg_source 1 (reversed 0) (init device0 initial_board))
    as (d' & Hrun & _ & Hrow & _);
    [reflexivity | apply reversed_schedule | reflexivity |].
  exists d'. split; [exact Hrun|].
  apply (Hrow 0%nat 2 initial_board (3 : Z));
    [reflexivity | lia | apply Nat.leb_le; reflexivity | reflexivity].
Defined.

(** A turn leaves the streams from [8 * N_GAMES] on as they are. *)
Lemma unused_streams_turn `{R : RandomSource} {U : UniformOpen R}
    (sched : list thread) (player : Z) (d d' : device) (rng0 : list rng_state) :
  is_player player = true -> schedule sched ->
  find_ready d = true -> status_ready d = true ->
  (forall i : nat, (8 * N_GAMES <= i)%nat -> rng_states d !! i = rng0 !! i) ->
  turn sched player d = Ret d' ->
  forall i : nat, (8 * N_GAMES <= i)%nat -> rng_states d' !! i = rng0 !! i.
Proof.
  intros Hp Hsched Hready Hstatus Hrng Hturn i Hi.
  destruct (turn_games player sched d Hp Hsched Hready Hstatus)
    as (d1 & d2 & Hfind & _ & Hturn2 & _ & _ & Hrng2 & _).
  rewrite Hturn in Hturn2. injection Hturn2 as <-.
  destruct (find_actions_fold player Hp sched d) as (d1' & Hrun & _ & _ & Hready1 & Hrng1 & _);
    [by apply schedule_NoDup | by intros t Ht%(schedule_spec _ _ Hsched) | done |].
  unfold find_actions in Hfind. rewrite Hfind in Hrun. injection Hrun as <-.
  pose proof Hready as (_ & _ & _ & _ & Hlr)%find_ready_spec.
  pose proof Hready1 as (_ & _ & _ & _ & Hlr1)%find_ready_spec.
  rewrite Hrng2, <- (Hrng i Hi). destruct (rng_states d !! i) as [s|] eqn:Hs.
  - rewrite (Hrng1 _ s Hs). rewrite draws_of_none; [done|].
    intros t Ht%(schedule_spec _ _ Hsched). pose proof (slot_in_grid _ _ Ht). lia.
  - apply lookup_ge_None in Hs. apply lookup_ge_None. lia.
Qed.

(** X9. Of the [8 * 8 * N_GAMES] streams that the notebook allocates,
    [rollout] uses the first [8 * N_GAMES] only: a whole run leaves every
    other stream in the state it was in. *)
Theorem rollout_uses_first_streams `{R : RandomSource} {U : UniformOpen R}
    (fuel : nat) (sched : nat -> list thread) (d : device) (board0 : board) (planner : Z) :
  (forall k, schedule (sched k)) -> valid_board board0 = true ->
  globals_ready d = true -> is_player planner = true ->
  (2 * count_empty board0 + 2 < fuel)%nat ->
  exists (d' : device) (k : nat),
    rollout_run fuel sched d board0 planner = Ret (d', k) /\
    length (rng_states d') = length (rng_states d) /\
    forall i : nat, (8 * N_GAMES <= i)%nat -> rng_states d' !! i = rng_states d !! i.
Proof.
  intros Hsched Hv Hg Hp Hfuel.
  destruct (rollout_run_terminates fuel sched d board0 planner Hsched Hv Hg Hp Hfuel)
    as (d' & k & Hrun & _ & Hready' & _).
  exists d', k. split; [done|].
  destruct (init_ready d board0 Hv Hg) as [Hready0 Hstatus0].
  pose proof (rollout_loop_invariant sched
    (fun _ d0 => forall i : nat, (8 * N_GAMES <= i)%nat ->
       rng_states d0 !! i = rng_states d !! i) Hsched
    (fun k0 p0 d0 d1 Hp0 Hr0 Hs0 HQ Hturn =>
       unused_streams_turn (sched k0) p0 d0 d1 (rng_states d) Hp0 (Hsched k0) Hr0 Hs0 HQ Hturn)
    fuel 0%nat planner (init d board0) Hp Hready0 Hstatus0 (fun i Hi => eq_refl)) as Hloop.
  cbn beta in Hloop. rewrite rollout_run_shaped in Hrun by (by apply valid_board_shape).
  rewrite Hrun in Hloop.
  destruct Hloop as (_ & _ & _ & _ & HQ & _). split; [|done].
  pose proof Hready0 as (_ & _ & _ & _ & Hlr)%find_ready_spec.
  pose proof Hready' as (_ & _ & _ & _ & Hlr')%find_ready_spec.
  unfold init in Hlr. cbn [rng_states] in Hlr. lia.
Qed.

Lemma rollout_uses_first_streams_witness :
  valid_board initial_board = true /\
  exists (d' : @device lcg_source) (k : nat),
    rollout_run 200 row_major device0 initial_board 1 = Ret (d', k) /\
    rng_states d' !! 256%nat = Some (257 : Z).
Proof.
  split; [reflexivity|].
  destruct (@rollout_uses_first_streams lcg_source lcg_open 200 row_major device0
              initial_board 1)
    as (d' & k & Hrun & _ & Hrng);
    [apply row_major_schedule | reflexivity | reflexivity | reflexivity
    | apply Nat.ltb_lt; reflexivity |].
  exists d', k. split; [exact Hrun|].
  exact (eq_trans (Hrng 256%nat (le_n 256)) eq_refl).
Defined.

(** ** What [rollout] reads of the device memory *)

Lemma scores_ext (a1 a2 : list (list (list Q))) :
  length a1 = N_GAMES -> length a2 = N_GAMES ->
  Forall (fun g => well_shaped g = true) a1 -> Forall (fun g => well_shaped g = true) a2 ->
  (forall t, in_grid N_GAMES t -> score_of a1 t = score_of a2 t) -> a1 = a2.
Proof.
  intros Hl1 Hl2 Hs1 Hs2 Hsc. apply list_eq. intros g.
  destruct (decide (g < N_GAMES)%nat) as [Hg | Hg].
  - destruct (lookup_lt_is_Some_2 a1 g) as [p1 H1]; [lia|].
    destruct (lookup_lt_is_Some_2 a2 g) as [p2 H2]; [lia|].
    rewrite H1, H2. f_equal. apply grid_ext.
    + apply (Forall_lookup_1 _ _ _ _ Hs1 H1).
    + apply (Forall_lookup_1 _ _ _ _ Hs2 H2).
    + intros x y Hxy. specialize (Hsc (Z.of_nat g, x, y)). unfold score_of, in_grid in Hsc.
      destruct (Z.ltb_spec (Z.of_nat g) 0); [lia|].
      rewrite Nat2Z.id, H1, H2 in Hsc. apply Hsc. split; [lia | done].
  - rewrite !lookup_ge_None_2 by lia. done.
Qed.




(** ** What [ray_cast] reads *)

(** X14. [ray_cast] reads the cells of its ray beyond the origin and nothing
    else: on two boards that agree on these cells it returns the same
    answer.  In particular the answer does not depend on what the origin
    holds. *)
Theorem ray_cast_reads_its_ray (b b' : board) (x0 y0 : Z) (r : ray) (player : Z) :
  valid_board b = true -> valid_board b' = true ->
  is_player player = true -> r ∈ RAYS ->
  (forall j : nat, (1 <= j)%nat ->
     cell_at b' (x0 + Z.of_nat j * r.1) (y0 + Z.of_nat j * r.2) =
     cell_at b (x0 + Z.of_nat j * r.1) (y0 + Z.of_nat j * r.2)) ->
  ray_cast b' x0 y0 r player = ray_cast b x0 y0 r player.
Proof.
  intros Hv Hv' Hp Hr Hsame.
  destruct (ray_cast_spec b x0 y0 r player Hv Hp Hr) as (h & -> & Hh).
  destruct (ray_cast_spec b' x0 y0 r player Hv' Hp Hr) as (h' & -> & Hh').
  f_equal. apply eq_true_iff_eq. rewrite Hh, Hh', !capturing_line_captures.
  split; intros [n Hn]; exists n.
  - apply (captures_ext b' b); [|done]. intros j Hj. symmetry. by apply Hsame.
  - by apply (captures_ext b b').
Qed.

Lemma ray_cast_reads_its_ray_witness :
  ray_cast pass_board 0 0 (1, 0) 1 = ray_cast empty_board 0 0 (1, 0) 1.
Proof.
  apply (ray_cast_reads_its_ray empty_board pass_board 0 0 (1, 0) 1);
    [reflexivity | reflexivity | reflexivity | apply (RAYS_elem 2); reflexivity |].
  intros j Hj. cbn [fst snd].
  do 8 (destruct j as [|j]; [first [lia | reflexivity]|]).
  unfold cell_at.
  assert ((0 + Z.of_nat (S (S (S (S (S (S (S (S j)))))))) * 1 <? 8) = false) as ->
    by (apply Z.ltb_ge; lia).
  by rewrite !andb_false_r.
Defined.

(** ** Finalize on cells that are not cell states *)




(** ** When the shared stream does no harm *)

Lemma filter_at_most_one {A : Type} (f : A -> bool) (l : list A) (x y : A) :
  NoDup l -> (length (List.filter f l) <= 1)%nat ->
  x ∈ l -> y ∈ l -> f x = true -> f y = true -> x = y.
Proof.
  intros Hnd Hlen Hx Hy Hfx Hfy.
  assert (Hin : forall z, z ∈ l -> f z = true -> In z (List.filter f l))
    by (intros z Hz Hfz; apply filter_In; split; [by apply list_elem_of_In | done]).
  induction l as [|a l IH]; [by apply elem_of_nil in Hx|].
  apply NoDup_cons in Hnd as [Hna Hnd]. cbn [List.filter] in Hlen.
  assert (Hpos : forall z, z ∈ l -> f z = true -> (1 <= length (List.filter f l))%nat).
  { intros z Hz Hfz.
    assert (Hz' : In z (List.filter f l))
      by (apply filter_In; split; [by apply list_elem_of_In | done]).
    destruct (List.filter f l); [done | cbn; lia]. }
  apply elem_of_cons in Hx as [-> | Hx], Hy as [-> | Hy].
  - done.
  - rewrite Hfx in Hlen. cbn [length] in Hlen. pose proof (Hpos y Hy Hfy). lia.
  - rewrite Hfy in Hlen. cbn [length] in Hlen. pose proof (Hpos x Hx Hfx). lia.
  - apply IH; try done.
    + destruct (f a); cbn [length] in Hlen; lia.
    + intros z Hz Hfz. apply filter_In. split; [by apply list_elem_of_In | done].
Qed.

Lemma draws_before_none bs player (l : list thread) (t : thread) :
  (forall t', t' ∈ l -> t' <> t -> slot t' = slot t -> draws bs player t' = false) ->
  draws_before bs player l t = 0%nat.
Proof.
  induction l as [|a l IH]; intros Hl; [done|]. cbn [draws_before].
  destruct (decide (a = t)) as [_ | Hne]; [done|].
  rewrite IH by (intros t' Ht'; apply Hl; rewrite elem_of_cons; by right).
  destruct (bool_decide_reflect (slot a = slot t)) as [Hs | _]; [|done].
  rewrite (Hl a); [done | rewrite elem_of_cons; by left | done | done].
Qed.

(** With at most one legal move in every row, the first draw of a stream
    goes to the only thread that draws from it. *)
Lemma expected_score_single `{RandomSource} (bs : list board) (rng : list rng_state)
    (player : Z) (l : list thread) (t : thread) :
  (forall t', t' ∈ l -> in_grid N_GAMES t') -> in_grid N_GAMES t ->
  (forall (g : nat) b tx, bs !! g = Some b -> 0 <= tx < 8 ->
     (row_draws b player tx <= 1)%nat) ->
  expected_score bs rng player l t =
    if draws bs player t then
      match rng !! Z.to_nat (slot t) with
      | Some s => Some (next_uniform s).1
      | None => None
      end
    else Some 0%Q.
Proof.
  intros Hl Ht Hrows. unfold expected_score.
  destruct (draws bs player t) eqn:Hd; [|done].
  rewrite draws_before_none; [done|].
  intros t' Ht' Hne Hslot. destruct (draws bs player t') eqn:Hd'; [|done]. exfalso.
  apply Hl in Ht'. destruct t as [[bx tx] ty], t' as [[bx' tx'] ty'].
  unfold in_grid, on_board, slot, draws in *.
  assert (bx' = bx /\ tx' = tx) as [-> ->] by lia.
  destruct (bs !! Z.to_nat bx) as [b|] eqn:Hb; [|done].
  apply Hne. do 2 f_equal.
  apply (filter_at_most_one (fun ty => legal b player tx ty) range8).
  - apply range8_NoDup.
  - apply (Hrows (Z.to_nat bx) b tx); [exact Hb | lia].
  - apply range8_spec. lia.
  - apply range8_spec. lia.
  - exact Hd'.
  - exact Hd.
Qed.

(** X8. The threads of a row of [find_actions] share a stream, but a row in
    which the mover has at most one legal move has at most one thread that
    draws.  When this holds for every row of every board, [find_actions]
    leaves the same scores and the same streams, whatever the order of its
    threads. *)
Theorem find_actions_single_move_rows `{RandomSource} (player : Z)
    (sched sched' : list thread) (d : device) :
  is_player player = true -> schedule sched -> schedule sched' ->
  find_ready d = true ->
  (forall (g : nat) b tx, boards d !! g = Some b -> 0 <= tx < 8 ->
     (row_draws b player tx <= 1)%nat) ->
  exists d' : device,
    find_actions sched player d = Ret d' /\ find_actions sched' player d = Ret d'.
Proof.
  intros Hp Hsched Hsched' Hready Hrows.
  destruct (find_actions_fold player Hp sched d)
    as (e1 & Hrun1 & Hb1 & Hs1 & Hre1 & Hrng1 & _ & Hin1);
    [by apply schedule_NoDup | by intros t Ht%(schedule_spec _ _ Hsched) | done |].
  destruct (find_actions_fold player Hp sched' d)
    as (e2 & Hrun2 & Hb2 & Hs2 & Hre2 & Hrng2 & _ & Hin2);
    [by apply schedule_NoDup | by intros t Ht%(schedule_spec _ _ Hsched') | done |].
  exists e1. unfold find_actions. split; [done|]. rewrite Hrun2. f_equal.
  pose proof Hready as (_ & _ & _ & _ & Hlr)%find_ready_spec.
  pose proof Hre1 as (_ & _ & Hla1 & Hsa1 & Hlre1)%find_ready_spec.
  pose proof Hre2 as (_ & _ & Hla2 & Hsa2 & Hlre2)%find_ready_spec.
  assert (Hrng' : rng_states e2 = rng_states e1).
  { apply list_eq. intros i. destruct (rng_states d !! i) as [s|] eqn:Hsi.
    - rewrite (Hrng1 _ s Hsi), (Hrng2 _ s Hsi). do 2 f_equal.
      apply draws_of_perm. unfold schedule in *. by rewrite Hsched, Hsched'.
    - apply lookup_ge_None in Hsi. rewrite !lookup_ge_None_2 by lia. done. }
  assert (Hap' : action_probs e2 = action_probs e1).
  { apply scores_ext; try done. intros t Ht.
    rewrite (Hin1 t) by (by apply (schedule_spec _ _ Hsched)).
    rewrite (Hin2 t) by (by apply (schedule_spec _ _ Hsched')).
    rewrite !expected_score_single; try done.
    - by intros t' Ht'%(schedule_spec _ _ Hsched).
    - by intros t' Ht'%(schedule_spec _ _ Hsched'). }
  destruct e1, e2. cbn in *. congruence.
Qed.

Lemma find_actions_single_move_rows_witness :
  exists d' : @device lcg_source,
    find_actions (row_major 0) 1 (init device0 initial_board) = Ret d' /\
    find_actions (reversed 0) 1 (init device0 initial_board) = Ret d'.
Proof.
  apply (@find_actions_single_move_rows lcg_source 1 (row_major 0) (reversed 0)
           (init device0 initial_board));
    [reflexivity | apply row_major_schedule | apply reversed_schedule | reflexivity |].
  intros g b tx Hb Htx. apply lookup_replicate in Hb as [-> _].
  assert (Hcase : tx = 0 \/ tx = 1 \/ tx = 2 \/ tx = 3 \/ tx = 4 \/ tx = 5 \/ tx = 6 \/ tx = 7)
    by lia.
  repeat destruct Hcase as [-> | Hcase]; try subst tx; apply Nat.leb_le; reflexivity.
Defined.
